(** * Jira AI Breakdown: the popup's generation, schema and creation logic

    A shallow embedding of [popup.js]: the Groq response validation
    ([groqGenerate]), the rich-text document builder and reader ([buildAdf],
    [extractAdfText]), the status catalogue ([fetchProjectStatuses]), the
    subtask-type detection cascade ([detectSubtaskTypeName]), the status
    transition ([jiraTransition]) and the confirmation run ([onConfirm]).

    Conventions.
    - A JavaScript string is a [string]: a sequence of code units below 256.
      White space is the part of the ECMAScript white-space and
      line-terminator set that lies in that range.
    - The tracker is a deterministic environment: each remote call is answered
      by a function of the calls made so far (the trace) and of the request.
    - The answers of the tracker and the generation result carry the shapes
      the REST API and the prompt give them; a member the code guards with
      [||] or [?.] is optional. The text the generation service returns is
      validated by [groqGenerate] and is an arbitrary JSON value there.
    - A request is kept by what the code puts into it (path parameters and
      body) rather than by its URL.
    - Toasts, spinners and the DOM are not modelled; what a confirmation
      shows at its end is its result. *)

From Stdlib Require Import String Ascii List ZArith Lia Bool.
From stdpp Require Import gmap strings.
Import ListNotations.

Local Open Scope string_scope.
Local Open Scope list_scope.
Set Warnings "-register-all".

(** ** Strings *)

Module Str.

Definition code (c : ascii) : nat := nat_of_ascii c.

(** [\s] of a regular expression and the characters [trim] removes. *)
Definition is_space (c : ascii) : bool :=
  let n := code c in
  (((9 <=? n) && (n <=? 13)) || (n =? 32) || (n =? 160))%nat.

Definition lower_char (c : ascii) : ascii :=
  let n := code c in
  if (((65 <=? n) && (n <=? 90))
      || ((192 <=? n) && (n <=? 222) && negb (n =? 215)))%nat
  then ascii_of_nat (n + 32) else c.

Fixpoint toLowerCase (s : string) : string :=
  match s with
  | EmptyString => EmptyString
  | String c r => String (lower_char c) (toLowerCase r)
  end.

Fixpoint all_space (s : string) : bool :=
  match s with
  | EmptyString => true
  | String c r => is_space c && all_space r
  end.

Fixpoint trimStart (s : string) : string :=
  match s with
  | EmptyString => EmptyString
  | String c r => if is_space c then trimStart r else s
  end.

Fixpoint trimEnd (s : string) : string :=
  match s with
  | EmptyString => EmptyString
  | String c r => if all_space s then EmptyString else String c (trimEnd r)
  end.

Definition trim (s : string) : string := trimEnd (trimStart s).

Fixpoint drop (n : nat) (s : string) : string :=
  match n, s with
  | O, _ => s
  | S _, EmptyString => EmptyString
  | S k, String _ r => drop k r
  end.

(** [s.startsWith(p)] *)
Fixpoint startsWith (p s : string) : bool :=
  match p, s with
  | EmptyString, _ => true
  | String a p', String b s' => Ascii.eqb a b && startsWith p' s'
  | String _ _, EmptyString => false
  end.

(** [hay.includes(needle)] *)
Fixpoint includes (needle hay : string) : bool :=
  startsWith needle hay
  || match hay with
     | EmptyString => false
     | String _ r => includes needle r
     end.

(** [parts.join(sep)] *)
Fixpoint join (sep : string) (parts : list string) : string :=
  match parts with
  | [] => EmptyString
  | [p] => p
  | p :: rest => p ++ sep ++ join sep rest
  end.

(** A non-empty string is truthy. *)
Definition truthy (s : string) : bool :=
  match s with EmptyString => false | _ => true end.

End Str.

(** ** JavaScript values that cross the model's boundary *)

(** A number is kept by what the program can observe of it: whether it is
    [NaN], whether it is a zero, and otherwise its decimal rendering (the text
    a template literal interpolates). *)
Inductive jsnumber : Type :=
| NaN
| Zero
| Nonzero (rendering : string).

Definition number_truthy (n : jsnumber) : bool :=
  match n with Nonzero _ => true | _ => false end.

Definition number_toString (n : jsnumber) : string :=
  match n with NaN => "NaN" | Zero => "0" | Nonzero r => r end.

Inductive json : Type :=
| JNull
| JBool (b : bool)
| JNum (n : jsnumber)
| JStr (s : string)
| JArr (items : list json)
| JObj (props : list (string * json)).

Inductive exn : Type :=
| Error (message : string)
| TypeError (message : string).

(** The settled state of a promise. *)
Inductive result (A : Type) : Type :=
| Throw (e : exn)
| Ok (a : A).
Arguments Throw {A} e.
Arguments Ok {A} a.

Fixpoint assoc {V : Type} (k : string) (l : list (string * V)) : option V :=
  match l with
  | [] => None
  | (k', v) :: r => if String.eqb k k' then Some v else assoc k r
  end.

(** [o[k] = v] on an object that owns [k]: the value changes, the position of
    the key does not; a new key goes last. The same holds for [Map.set]. *)
Fixpoint assoc_set {V : Type} (k : string) (v : V) (l : list (string * V))
  : list (string * V) :=
  match l with
  | [] => [(k, v)]
  | (k', v') :: r =>
      if String.eqb k k' then (k, v) :: r else (k', v') :: assoc_set k v r
  end.

(** [v.name] for a property name that no prototype defines: reading from
    [null] throws, reading from a primitive or an array gives [undefined]. *)
Definition get_prop (v : json) (name : string) : result (option json) :=
  match v with
  | JNull => Throw (TypeError "Cannot read properties of null")
  | JObj props => Ok (assoc name props)
  | _ => Ok None
  end.

(** [l.slice(0, n)] for an integer [n]. *)
Definition slice0 {A : Type} (l : list A) (n : Z) : list A :=
  let len := Z.of_nat (length l) in
  let stop := if (n <? 0)%Z then Z.max (len + n) 0 else Z.min n len in
  firstn (Z.to_nat stop) l.

(** ** Groq API *)

Module Groq.

(** What [fetch] delivered: a failure status with the message the code
    derives from it, or a completion whose first choice has [content]. *)
Inductive response : Type :=
| NotOk (message : string)
| Completion (content : option string).

Definition invalid_json : exn :=
  Error "AI returned invalid JSON. Please try again.".
Definition missing_subtasks : exn :=
  Error "AI response missing subtasks array. Please try again.".

Definition fence : string := "```".

(** [raw.replace(/^```json\s*/i, '')] *)
Definition strip_open (raw : string) : string :=
  if Str.startsWith "```json" (Str.toLowerCase (String.substring 0 7 raw))
  then Str.trimStart (Str.drop 7 raw)
  else raw.

(** [s.replace(/```\s*$/, '')]: the leftmost fence that only white space
    follows is removed together with that white space. *)
Fixpoint strip_close (s : string) : string :=
  match s with
  | EmptyString => EmptyString
  | String c r =>
      if Str.startsWith fence s && Str.all_space (Str.drop 3 s)
      then EmptyString
      else String c (strip_close r)
  end.

Definition strip (raw : string) : string :=
  Str.trim (strip_close (strip_open raw)).

(** [data.choices?.[0]?.message?.content || '{}'] *)
Definition raw_content (content : option string) : string :=
  match content with
  | Some c => if Str.truthy c then c else "{}"
  | None => "{}"
  end.

Section Generate.

(** [JSON.parse]; [None] stands for a [SyntaxError]. *)
Variable JSON_parse : string -> option json.

Definition groqGenerate (resp : response) (numSubtasks : Z) : result json :=
  match resp with
  | NotOk message => Throw (Error message)
  | Completion content =>
      match JSON_parse (strip (raw_content content)) with
      | None => Throw invalid_json
      | Some parsed =>
          match get_prop parsed "subtasks" with
          | Throw e => Throw e
          | Ok (Some (JArr subtasks)) =>
              if (Z.of_nat (length subtasks) >? numSubtasks)%Z
              then
                match parsed with
                | JObj props =>
                    Ok (JObj (assoc_set "subtasks"
                                (JArr (slice0 subtasks numSubtasks)) props))
                | _ => Ok parsed
                end
              else Ok parsed
          | Ok _ => Throw missing_subtasks
          end
      end
  end.

End Generate.

End Groq.

(** ** Rich-text documents *)

Module Adf.

(** A node of the tracker's document format. Every member is optional, as
    the reader only looks at [type], [text] and [content]. *)
Inductive node : Type :=
| Node (type : option string) (version : option Z) (level : option Z)
       (text : option string) (content : option (list node)).

Definition type_of (n : node) : option string :=
  match n with Node t _ _ _ _ => t end.
Definition text_of (n : node) : option string :=
  match n with Node _ _ _ t _ => t end.
Definition content_of (n : node) : option (list node) :=
  match n with Node _ _ _ _ c => c end.

Definition text_node (s : string) : node :=
  Node (Some "text") None None (Some s) None.
Definition paragraph (s : string) : node :=
  Node (Some "paragraph") None None None (Some [text_node s]).
Definition heading (level : Z) (s : string) : node :=
  Node (Some "heading") None (Some level) None (Some [text_node s]).
Definition listItem (s : string) : node :=
  Node (Some "listItem") None None None (Some [paragraph s]).
Definition bulletList (items : list string) : node :=
  Node (Some "bulletList") None None None (Some (map listItem items)).

Definition buildAdf (description : string) (acceptanceCriteria : list string)
  : node :=
  let content1 :=
    if Str.truthy description then [paragraph description] else [] in
  let content2 :=
    match acceptanceCriteria with
    | [] => []
    | _ :: _ =>
        [heading 3 "Acceptance Criteria"; bulletList acceptanceCriteria]
    end in
  Node (Some "doc") (Some 1%Z) None None (Some (content1 ++ content2)).

(** The texts [walk] pushes, in the order it pushes them. *)
Fixpoint walk (n : node) : list string :=
  match n with
  | Node type _ _ text content =>
      (match type with
       | Some t =>
           if String.eqb t "text"
           then [match text with
                 | Some s => if Str.truthy s then s else EmptyString
                 | None => EmptyString
                 end]
           else []
       | None => []
       end)
      ++ match content with
         | Some children =>
             (fix walk_all (l : list node) : list string :=
                match l with
                | [] => []
                | c :: r => walk c ++ walk_all r
                end) children
         | None => []
         end
  end.

Definition extractAdfText (adf : node) : string :=
  match content_of adf with
  | None => EmptyString
  | Some _ => Str.trim (Str.join " " (walk adf))
  end.

End Adf.

(** ** Status catalogue *)

Record status : Type := { st_name : string; st_id : string }.

(** One entry of [GET project/{key}/statuses]. *)
Record issuetype_statuses : Type :=
  { its_name : string; its_statuses : list status }.

(** The body of [fetchProjectStatuses] after the request: a [Map] filled by
    two nested [forEach], then [Array.from(statusMap.values())]. *)
Definition collect_statuses (data : list issuetype_statuses) : list status :=
  let statusMap :=
    fold_left
      (fun m type =>
         fold_left (fun m' s => assoc_set (st_name s) s m')
                   (its_statuses type) m)
      data [] in
  map snd statusMap.

(** ** The tracker *)

Record issuetype : Type := { it_name : string; it_subtask : bool }.
Record project : Type :=
  { p_key : string; p_issuetypes : option (list issuetype) }.
Record createmeta : Type := { cm_projects : option (list project) }.

Record transition : Type := { tr_id : string; tr_name : string }.
Record transitions : Type := { ts_transitions : option (list transition) }.

Record user : Type := { accountId : string }.
Record created : Type := { key : string }.

(** The essential fields of [POST issue]. A parent issue has no [parent]. *)
Record base_fields : Type :=
  { bf_project : string;
    bf_parent : option string;
    bf_summary : option string;
    bf_description : Adf.node;
    bf_issuetype : string }.

(** The optional fields of [PUT issue/{key}]; an absent member is [None]. *)
Record extra_fields : Type :=
  { ef_priority : option string;
    ef_assignee : option string;
    ef_duedate : option string;
    ef_labels : option (list string) }.

(** A remote call with its answer. [Probe] is the bare [fetch] of the
    detection cascade; its answer is the text
    [JSON.stringify(await resp.json().catch(() => ({})))], or the rejection of
    [fetch]. Every other event is a [jiraRequest]. *)
Inductive event : Type :=
| Createmeta (projectKey : string) (r : result createmeta)
| CreateIssue (fields : base_fields) (r : result created)
| UpdateIssue (issueKey : string) (fields : extra_fields) (r : result unit)
| GetTransitions (issueKey : string) (r : result transitions)
| DoTransition (issueKey id : string) (r : result unit)
| UserSearch (query : string) (r : result (list user))
| AddWatcher (issueKey account : string) (r : result unit)
| Probe (projectKey name : string) (r : result string).

(** The tracker answers each request from the calls made so far. *)
Record tracker : Type :=
  { on_createmeta : list event -> string -> result createmeta;
    on_create : list event -> base_fields -> result created;
    on_update : list event -> string -> extra_fields -> result unit;
    on_transitions : list event -> string -> result transitions;
    on_transition : list event -> string -> string -> result unit;
    on_user_search : list event -> string -> result (list user);
    on_watcher : list event -> string -> string -> result unit;
    on_probe : list event -> string -> string -> result string }.

(** ** Program state and the monad of asynchronous functions *)

(** The calls made so far, the module-level cache of subtask type names, and
    the [createdKeys] array of the confirmation in progress. *)
Record store : Type :=
  { trace : list event;
    subtaskTypeCache : gmap string string;
    createdKeys : list string }.

Definition M (A : Type) : Type := store -> result A * store.

Definition ret {A : Type} (a : A) : M A := fun s => (Ok a, s).

Definition bind {A B : Type} (c : M A) (k : A -> M B) : M B :=
  fun s =>
    match c s with
    | (Ok a, s') => k a s'
    | (Throw e, s') => (Throw e, s')
    end.

Notation "'let!' x ':=' c 'in' k" := (bind c (fun x => k))
  (at level 10, x pattern, c at level 100, k at level 200).
Notation "c ';;' k" := (bind c (fun _ => k))
  (at level 100, k at level 200, right associativity).

(** [try { c } catch (e) { h e }] *)
Definition try_catch {A : Type} (c : M A) (h : exn -> M A) : M A :=
  fun s =>
    match c s with
    | (Throw e, s') => h e s'
    | (Ok a, s') => (Ok a, s')
    end.

(** [c.catch(() => { })] *)
Definition swallow (c : M unit) : M unit := try_catch c (fun _ => ret tt).

(** The store after one more remote call. *)
Definition extend (s : store) (e : event) : store :=
  {| trace := trace s ++ [e];
     subtaskTypeCache := subtaskTypeCache s;
     createdKeys := createdKeys s |}.

(** A remote call: the tracker answers from the trace, the call is logged. *)
Definition remote {A : Type} (answer : list event -> result A)
           (record : result A -> event) : M A :=
  fun s => let r := answer (trace s) in (r, extend s (record r)).

(** [_subtaskTypeCache[projectKey]]; an empty string reads as falsy. *)
Definition read_cache (projectKey : string) : M (option string) :=
  fun s =>
    (Ok (match subtaskTypeCache s !! projectKey with
         | Some v => if Str.truthy v then Some v else None
         | None => None
         end), s).

(** The store after [_subtaskTypeCache[projectKey] = name]. *)
Definition cached (s : store) (projectKey name : string) : store :=
  {| trace := trace s;
     subtaskTypeCache := <[projectKey := name]> (subtaskTypeCache s);
     createdKeys := createdKeys s |}.

Definition write_cache (projectKey name : string) : M unit :=
  fun s => (Ok tt, cached s projectKey name).

Definition push_key (k : string) : M unit :=
  fun s =>
    (Ok tt,
     {| trace := trace s;
        subtaskTypeCache := subtaskTypeCache s;
        createdKeys := createdKeys s ++ [k] |}).

Definition reset_keys : M unit :=
  fun s =>
    (Ok tt,
     {| trace := trace s;
        subtaskTypeCache := subtaskTypeCache s;
        createdKeys := [] |}).

Definition or_empty (o : option string) : string :=
  match o with Some s => s | None => EmptyString end.

Definition or_nil {A : Type} (o : option (list A)) : list A :=
  match o with Some l => l | None => [] end.

(** [o || null] on an optional string *)
Definition or_null (o : option string) : option string :=
  match o with
  | Some s => if Str.truthy s then Some s else None
  | None => None
  end.

(** ** Jira API *)

Record subtask : Type :=
  { sub_title : string;
    sub_description : option string;
    sub_acceptance_criteria : option (list string) }.

Inductive mode : Type := breakdown | create.

(** The [_meta] bag the generate handlers attach to the AI output. The create
    handler sets four of its members only, so each one may be [undefined]. *)
Record meta : Type :=
  { m_mode : option mode;
    m_parentKey : option string;
    m_projectKey : option string;
    m_issueType : option string;
    m_breakType : option string;
    m_jiraStatus : option string;
    m_priority : option string;
    m_assigneeId : option string;
    m_dueDate : option string;
    m_labels : option (list string);
    m_storyPoints : option jsnumber;
    m_watchers : option (list string) }.

Definition empty_meta : meta :=
  {| m_mode := None; m_parentKey := None; m_projectKey := None;
     m_issueType := None; m_breakType := None; m_jiraStatus := None;
     m_priority := None; m_assigneeId := None; m_dueDate := None;
     m_labels := None; m_storyPoints := None; m_watchers := None |}.

Record ai_output : Type :=
  { title : option string;
    description : option string;
    acceptance_criteria : option (list string);
    subtasks : option (list subtask);
    _meta : option meta }.

Record settings : Type :=
  { groq_key : string; jira_url : string;
    jira_email : string; jira_token : string }.

Definition validateSettings (c : settings) : bool :=
  Str.truthy (groq_key c) && Str.truthy (jira_url c)
  && Str.truthy (jira_email c) && Str.truthy (jira_token c).

(** How a confirmation ends: a guard returned early, [showResult] was
    reached, or the [catch] block toasted [err.message]. *)
Inductive run : Type :=
| NotStarted
| Shown (parentKey : string) (allKeys : list string) (m : meta)
| Failed (message : string).

Definition message_of (e : exn) : string :=
  match e with Error m => m | TypeError m => m end.

Definition candidates : list string :=
  ["Subtask"; "Sub-task"; "subtask"; "sub-task"].

Definition extra_nonempty (x : extra_fields) : bool :=
  match ef_priority x, ef_assignee x, ef_duedate x, ef_labels x with
  | None, None, None, None => false
  | _, _, _, _ => true
  end.

Section Jira.

Variable w : tracker.

Definition jiraCreateIssue (projectKey issueType : string)
           (title : option string) (description : string)
           (acceptanceCriteria : list string) : M created :=
  let fields :=
    {| bf_project := projectKey;
       bf_parent := None;
       bf_summary := title;
       bf_description := Adf.buildAdf description acceptanceCriteria;
       bf_issuetype := issueType |} in
  remote (fun t => on_create w t fields) (CreateIssue fields).

(** The [try] block of [detectSubtaskTypeName]: the creation metadata and
    the first issue type flagged as a subtask; [Some name] is its early
    [return]. *)
Definition discover (projectKey : string) : M (option string) :=
  let! data :=
    remote (fun t => on_createmeta w t projectKey) (Createmeta projectKey) in
  match find (fun p => String.eqb (p_key p) projectKey)
             (or_nil (cm_projects data)) with
  | Some proj =>
      match find it_subtask (or_nil (p_issuetypes proj)) with
      | Some subtaskType =>
          write_cache projectKey (it_name subtaskType) ;;
          ret (Some (it_name subtaskType))
      | None => ret None
      end
  | None => ret None
  end.

(** The fallback loop over the candidate names. *)
Fixpoint probe (projectKey : string) (names : list string) : M string :=
  match names with
  | [] => write_cache projectKey "Subtask" ;; ret "Subtask"
  | name :: rest =>
      let! valid :=
        try_catch
          (let! body :=
             remote (fun t => on_probe w t projectKey name)
                    (Probe projectKey name) in
           let errText := Str.toLowerCase body in
           if negb (Str.includes "issuetype" errText)
              && negb (Str.includes "issue type" errText)
           then write_cache projectKey name ;; ret true
           else ret false)
          (fun _ => ret false) in
      if valid then ret name else probe projectKey rest
  end.

Definition detectSubtaskTypeName (projectKey : string) : M string :=
  let! cached := read_cache projectKey in
  match cached with
  | Some name => ret name
  | None =>
      let! found := try_catch (discover projectKey) (fun _ => ret None) in
      match found with
      | Some name => ret name
      | None => probe projectKey candidates
      end
  end.

Definition jiraCreateSubtask (parentKey projectKey title description : string)
           (acceptanceCriteria : list string) (breakType : option string)
           (extraFields : extra_fields) : M created :=
  let! typeName :=
    match or_null breakType with
    | Some t => ret t
    | None => detectSubtaskTypeName projectKey
    end in
  let baseFields :=
    {| bf_project := projectKey;
       bf_parent := Some parentKey;
       bf_summary := Some title;
       bf_description := Adf.buildAdf description acceptanceCriteria;
       bf_issuetype := typeName |} in
  let! result :=
    remote (fun t => on_create w t baseFields) (CreateIssue baseFields) in
  (if extra_nonempty extraFields
   then try_catch
          (remote (fun t => on_update w t (key result) extraFields)
                  (UpdateIssue (key result) extraFields))
          (fun _ => ret tt)
   else ret tt) ;;
  ret result.

Definition jiraAddWatcher (issueKey userQuery : string) : M unit :=
  let! account :=
    if Str.includes "@" userQuery
    then try_catch
           (let! users :=
              remote (fun t => on_user_search w t userQuery)
                     (UserSearch userQuery) in
            match users with
            | u :: _ => ret (accountId u)
            | [] => ret userQuery
            end)
           (fun _ => ret userQuery)
    else ret userQuery in
  remote (fun t => on_watcher w t issueKey account)
         (AddWatcher issueKey account).

Definition jiraTransition (issueKey targetStatus : string) : M unit :=
  let! data :=
    remote (fun t => on_transitions w t issueKey) (GetTransitions issueKey) in
  match find (fun t => String.eqb (Str.toLowerCase (tr_name t))
                                  (Str.toLowerCase targetStatus))
             (or_nil (ts_transitions data)) with
  | None => ret tt
  | Some m =>
      remote (fun t => on_transition w t issueKey (tr_id m))
             (DoTransition issueKey (tr_id m))
  end.

End Jira.

(** ** Breakdown flow *)

(** [s.split('-')[0]] *)
Fixpoint before_dash (s : string) : string :=
  match s with
  | EmptyString => EmptyString
  | String c r => if Ascii.eqb c "-" then EmptyString
                  else String c (before_dash r)
  end.

Section Breakdown.

(** [parseFloat] *)
Variable parseFloat : string -> jsnumber.

(** The [_meta] that [onBreakdownGenerate] attaches to the AI output, from
    the values it read from the form. *)
Definition breakdown_meta (storyKey projectKey : string)
           (breakType : option string)
           (jiraStatus priority assigneeId dueDate : string)
           (labels : list string) (storyPts : string)
           (watchers : list string) : meta :=
  {| m_mode := Some breakdown;
     m_parentKey := Some storyKey;
     m_projectKey :=
       Some (if Str.truthy projectKey then projectKey
             else before_dash storyKey);
     m_issueType := None;
     m_breakType := breakType;
     m_jiraStatus := Some jiraStatus;
     m_priority := Some priority;
     m_assigneeId := Some assigneeId;
     m_dueDate := Some dueDate;
     m_labels := Some labels;
     m_storyPoints :=
       if Str.truthy storyPts then Some (parseFloat storyPts) else None;
     m_watchers := Some watchers |}.

End Breakdown.

(** ** Confirm and create in Jira *)

Section Confirm.

Variable w : tracker.

(** [meta.storyPoints || null] *)
Definition storyPoints_of (m : meta) : option jsnumber :=
  match m_storyPoints m with
  | Some n => if number_truthy n then Some n else None
  | None => None
  end.

Definition finalLabels_of (m : meta) : list string :=
  or_nil (m_labels m)
  ++ match storyPoints_of m with
     | Some n => [("sp:" ++ number_toString n)%string]
     | None => []
     end.

(** The extra-fields object: only non-empty values become members. *)
Definition extraFields_of (m : meta) : extra_fields :=
  {| ef_priority := or_null (m_priority m);
     ef_assignee := or_null (m_assigneeId m);
     ef_duedate := or_null (m_dueDate m);
     ef_labels :=
       match finalLabels_of m with
       | [] => None
       | l => Some l
       end |}.

Definition transition_if_set (issueKey jiraStatus : string) : M unit :=
  if Str.truthy jiraStatus && Str.truthy issueKey
  then swallow (jiraTransition w issueKey jiraStatus)
  else ret tt.

Fixpoint add_watchers (stKey : string) (watchers : list string) : M unit :=
  match watchers with
  | [] => ret tt
  | x :: rest =>
      swallow (jiraAddWatcher w stKey x) ;; add_watchers stKey rest
  end.

(** The [for] loop over the subtasks. *)
Fixpoint create_subtasks (m : meta) (parentKey : string)
         (sts : list subtask) : M unit :=
  match sts with
  | [] => ret tt
  | st :: rest =>
      let! result :=
        jiraCreateSubtask w parentKey (or_empty (m_projectKey m))
          (sub_title st) (or_empty (sub_description st))
          (or_nil (sub_acceptance_criteria st))
          (or_null (m_breakType m)) (extraFields_of m) in
      let stKey := key result in
      push_key stKey ;;
      transition_if_set stKey (or_empty (m_jiraStatus m)) ;;
      add_watchers stKey (or_nil (m_watchers m)) ;;
      create_subtasks m parentKey rest
  end.

(** The [try] block; it returns the parent key [showResult] receives. *)
Definition confirm_body (out : ai_output) (m : meta) : M string :=
  let jiraStatus := or_empty (m_jiraStatus m) in
  let! parentKey :=
    match m_mode m with
    | Some create =>
        let! parentResult :=
          jiraCreateIssue w (or_empty (m_projectKey m))
            (match or_null (m_issueType m) with
             | Some t => t
             | None => "Story"
             end)
            (title out) (or_empty (description out))
            (or_nil (acceptance_criteria out)) in
        let parentKey := key parentResult in
        push_key parentKey ;;
        transition_if_set parentKey jiraStatus ;;
        ret parentKey
    | _ =>
        let parentKey := or_empty (m_parentKey m) in
        transition_if_set parentKey jiraStatus ;;
        ret parentKey
    end in
  create_subtasks m parentKey (or_nil (subtasks out)) ;;
  ret parentKey.

Definition onConfirm (currentAiOutput : option ai_output)
           (currentSettings : settings) (s : store) : run * store :=
  match currentAiOutput with
  | None => (NotStarted, s)
  | Some out =>
      if negb (validateSettings currentSettings) then (NotStarted, s)
      else
        let m := match _meta out with Some m => m | None => empty_meta end in
        match (reset_keys ;; confirm_body out m) s with
        | (Ok parentKey, s') => (Shown parentKey (createdKeys s') m, s')
        | (Throw err, s') => (Failed (message_of err), s')
        end
  end.

End Confirm.

(** The tracker's list of statuses, deduplicated. *)
Definition fetchProjectStatuses
           (answer : result (list issuetype_statuses)) : result (list status) :=
  match answer with
  | Throw e => Throw e
  | Ok data => Ok (collect_statuses data)
  end.

(** ** A parser for a fragment of JSON

    [groqGenerate] is parametric in [JSON.parse]. The examples instantiate it
    with this parser, which accepts JSON texts without fractions, exponents
    and [\u] escapes and agrees with [JSON.parse] on them. *)

Module JsonText.

Definition is_json_space (c : ascii) : bool :=
  let n := Str.code c in
  ((n =? 32) || (n =? 9) || (n =? 10) || (n =? 13))%nat.

Fixpoint skip_ws (s : string) : string :=
  match s with
  | EmptyString => EmptyString
  | String c r => if is_json_space c then skip_ws r else s
  end.

Definition is_digit (c : ascii) : bool :=
  let n := Str.code c in ((48 <=? n) && (n <=? 57))%nat.

Fixpoint digits (s : string) : string * string :=
  match s with
  | EmptyString => (EmptyString, EmptyString)
  | String c r =>
      if is_digit c
      then let (d, rest) := digits r in (String c d, rest)
      else (EmptyString, s)
  end.

Definition dquote : ascii := ascii_of_nat 34.

Definition unescape (c : ascii) : option ascii :=
  if Ascii.eqb c dquote then Some dquote
  else
    match c with
    | "\"%char => Some "\"%char
    | "/"%char => Some "/"%char
    | "b"%char => Some (ascii_of_nat 8)
    | "f"%char => Some (ascii_of_nat 12)
    | "n"%char => Some (ascii_of_nat 10)
    | "r"%char => Some (ascii_of_nat 13)
    | "t"%char => Some (ascii_of_nat 9)
    | _ => None
    end.

(** The characters after an opening quote, up to the closing one. *)
Fixpoint string_body (s : string) : option (string * string) :=
  match s with
  | EmptyString => None
  | String "\" (String e r) =>
      match unescape e, string_body r with
      | Some c, Some (t, rest) => Some (String c t, rest)
      | _, _ => None
      end
  | String c r =>
      if Ascii.eqb c dquote then Some (EmptyString, r)
      else if (Str.code c <? 32)%nat then None
      else match string_body r with
           | Some (t, rest) => Some (String c t, rest)
           | None => None
           end
  end.

Definition number (negative : bool) (s : string) : option (json * string) :=
  match digits s with
  | (EmptyString, _) => None
  | (d, rest) =>
      let unsupported :=
        match rest with
        | String c _ =>
            is_digit c || Ascii.eqb c "." || Ascii.eqb c "e"
            || Ascii.eqb c "E"
        | EmptyString => false
        end in
      let leading_zero :=
        match d with
        | String "0" (String _ _) => true
        | _ => false
        end in
      if unsupported || leading_zero then None
      else if String.eqb d "0" then Some (JNum Zero, rest)
      else Some (JNum (Nonzero (if negative then String "-" d else d)), rest)
  end.

Definition literal (word : string) (v : json) (s : string)
  : option (json * string) :=
  if Str.startsWith word s
  then Some (v, Str.drop (String.length word) s)
  else None.

Fixpoint value (fuel : nat) (s : string) : option (json * string) :=
  match fuel with
  | O => None
  | S f =>
      match skip_ws s with
      | String "n" _ as t => literal "null" JNull t
      | String "t" _ as t => literal "true" (JBool true) t
      | String "f" _ as t => literal "false" (JBool false) t
      | String "-" r => number true r
      | String "[" r =>
          match skip_ws r with
          | String "]" rest => Some (JArr [], rest)
          | t =>
              match elements f t with
              | Some (l, rest) => Some (JArr l, rest)
              | None => None
              end
          end
      | String "{" r =>
          match skip_ws r with
          | String "}" rest => Some (JObj [], rest)
          | t =>
              match members f t with
              | Some (l, rest) =>
                  Some (JObj (fold_left
                                (fun o kv => assoc_set (fst kv) (snd kv) o)
                                l []), rest)
              | None => None
              end
          end
      | String c r as t =>
          if Ascii.eqb c dquote
          then match string_body r with
               | Some (k, rest) => Some (JStr k, rest)
               | None => None
               end
          else number false t
      | EmptyString => None
      end
  end
with elements (fuel : nat) (s : string) : option (list json * string) :=
  match fuel with
  | O => None
  | S f =>
      match value f s with
      | Some (v, r) =>
          match skip_ws r with
          | String "," r' =>
              match elements f r' with
              | Some (l, rest) => Some (v :: l, rest)
              | None => None
              end
          | String "]" rest => Some ([v], rest)
          | _ => None
          end
      | None => None
      end
  end
with members (fuel : nat) (s : string)
  : option (list (string * json) * string) :=
  match fuel with
  | O => None
  | S f =>
      match skip_ws s with
      | String c r =>
          if negb (Ascii.eqb c dquote) then None else
          match string_body r with
          | Some (k, r1) =>
              match skip_ws r1 with
              | String ":" r2 =>
                  match value f r2 with
                  | Some (v, r3) =>
                      match skip_ws r3 with
                      | String "," r4 =>
                          match members f r4 with
                          | Some (l, rest) => Some ((k, v) :: l, rest)
                          | None => None
                          end
                      | String "}" rest => Some ([(k, v)], rest)
                      | _ => None
                      end
                  | None => None
                  end
              | _ => None
              end
          | None => None
          end
      | _ => None
      end
  end.

Definition parse (s : string) : option json :=
  match value (2 * String.length s + 3) s with
  | Some (v, rest) =>
      match skip_ws rest with
      | EmptyString => Some v
      | _ => None
      end
  | None => None
  end.

End JsonText.

(** ** Vocabulary of the properties *)

Definition nl : string := String (ascii_of_nat 10) EmptyString.
Definition quote : string := String (ascii_of_nat 34) EmptyString.

(** A Markdown fenced code block with info string [info] around [body]. *)
Definition fenced (info body : string) : string :=
  (Groq.fence ++ info ++ nl ++ body ++ nl ++ Groq.fence)%string.

(** [s] contains the fragments one after the other, in the order given. *)
Fixpoint in_order (frags : list string) (s : string) : Prop :=
  match frags with
  | [] => True
  | f :: fs =>
      exists pre rest, s = (pre ++ f ++ rest)%string /\ in_order fs rest
  end.

(** The test of the probe loop on the lower-cased serialized body. *)
Definition mentions_issuetype (body : string) : bool :=
  Str.includes "issuetype" (Str.toLowerCase body)
  || Str.includes "issue type" (Str.toLowerCase body).

(** The first status of a list that carries a given name. *)
Definition first_named (name : string) (l : list status) : option status :=
  find (fun s => String.eqb (st_name s) name) l.

(** [s] is the last status of [l] that carries its name. *)
Definition last_named (s : status) (l : list status) : Prop :=
  exists before after,
    l = before ++ s :: after /\ ~ In (st_name s) (map st_name after).

(** The names of a list in the order of their first occurrence. *)
Fixpoint first_occurrences (names : list string) : list string :=
  match names with
  | [] => []
  | x :: r =>
      x :: List.filter (fun y => negb (String.eqb y x)) (first_occurrences r)
  end.

Definition all_statuses (data : list issuetype_statuses) : list status :=
  concat (map its_statuses data).

(** A generation response with three subtasks, as a JSON text. *)
Definition json_member (name value : string) : string :=
  (quote ++ name ++ quote ++ ":" ++ value)%string.

Definition json_string (s : string) : string := (quote ++ s ++ quote)%string.

Definition sample_subtask (t : string) : string :=
  ("{" ++ json_member "title" (json_string t) ++ "}")%string.

Definition sample_body : string :=
  ("{" ++ json_member "title" (json_string "Add login") ++ ", "
       ++ json_member "subtasks"
            ("[" ++ sample_subtask "form" ++ "," ++ sample_subtask "session"
                 ++ "," ++ sample_subtask "logout" ++ "]")
       ++ "}")%string.

Definition sample_items : list json :=
  [JObj [("title", JStr "form")]; JObj [("title", JStr "session")];
   JObj [("title", JStr "logout")]].

Definition sample_parsed : json :=
  JObj [("title", JStr "Add login"); ("subtasks", JArr sample_items)].

(** Two issue types that both report a status named [Done]. *)
Definition done_of_story : status := {| st_name := "Done"; st_id := "10001" |}.
Definition done_of_bug : status := {| st_name := "Done"; st_id := "10042" |}.
Definition open_of_story : status := {| st_name := "Open"; st_id := "1" |}.

Definition sample_statuses : list issuetype_statuses :=
  [ {| its_name := "Story"; its_statuses := [done_of_story; open_of_story] |};
    {| its_name := "Bug"; its_statuses := [done_of_bug] |} ].

(** The [Map] after the statuses of [l] were set one by one. *)
Definition fill (l : list status) : list (string * status) :=
  fold_left (fun m s => assoc_set (st_name s) s m) l [].

(** What discovery yields: the first issue type flagged as a subtask among
    the issue types of the first project entry that carries the key. *)
Definition first_subtask_type (projectKey : string)
           (answer : result createmeta) : option issuetype :=
  match answer with
  | Throw _ => None
  | Ok data =>
      match find (fun p => String.eqb (p_key p) projectKey)
                 (or_nil (cm_projects data)) with
      | Some proj => find it_subtask (or_nil (p_issuetypes proj))
      | None => None
      end
  end.

(** A probe does not validate its candidate: [fetch] was rejected, or the
    serialized body mentions the issue type. *)
Definition rejected (r : result string) : bool :=
  match r with
  | Throw _ => true
  | Ok body => mentions_issuetype body
  end.

(** The trace after the candidates [names] were probed one after the other. *)
Fixpoint probed (w : tracker) (projectKey : string) (t : list event)
         (names : list string) : list event :=
  match names with
  | [] => t
  | name :: rest =>
      probed w projectKey
             (t ++ [Probe projectKey name (on_probe w t projectKey name)]) rest
  end.

(** Each of the candidates [names], probed in turn, is rejected. *)
Fixpoint all_rejected (w : tracker) (projectKey : string) (t : list event)
         (names : list string) : bool :=
  match names with
  | [] => true
  | name :: rest =>
      rejected (on_probe w t projectKey name)
      && all_rejected w projectKey
           (t ++ [Probe projectKey name (on_probe w t projectKey name)]) rest
  end.

(** A target status matches a transition up to letter case. *)
Definition same_name (targetStatus : string) (t : transition) : Prop :=
  Str.toLowerCase (tr_name t) = Str.toLowerCase targetStatus.

Definition meta_of (out : ai_output) : meta :=
  match _meta out with Some m => m | None => empty_meta end.

(** The request that creates the parent issue. *)
Definition parent_fields (out : ai_output) (m : meta) : base_fields :=
  {| bf_project := or_empty (m_projectKey m);
     bf_parent := None;
     bf_summary := title out;
     bf_description :=
       Adf.buildAdf (or_empty (description out))
                    (or_nil (acceptance_criteria out));
     bf_issuetype :=
       match or_null (m_issueType m) with Some t => t | None => "Story" end |}.

(** The request that creates the subtask [st] under [parentKey]. *)
Definition subtask_fields (m : meta) (parentKey : string) (st : subtask)
           (typeName : string) : base_fields :=
  {| bf_project := or_empty (m_projectKey m);
     bf_parent := Some parentKey;
     bf_summary := Some (sub_title st);
     bf_description :=
       Adf.buildAdf (or_empty (sub_description st))
                    (or_nil (sub_acceptance_criteria st));
     bf_issuetype := typeName |}.

Definition request_for (m : meta) (parentKey : string) (st : subtask)
           (f : base_fields) : Prop :=
  exists typeName, f = subtask_fields m parentKey st typeName.

(** *** Sample trackers *)

Definition count_created (t : list event) : nat :=
  length (List.filter (fun e => match e with
                                | CreateIssue _ (Ok _) => true
                                | _ => false
                                end) t).

Definition issue_number (n : nat) : string :=
  match n with
  | 0 => "KAN-10" | 1 => "KAN-11" | 2 => "KAN-12" | 3 => "KAN-13"
  | _ => "KAN-99"
  end.

Definition sample_createmeta (subtaskName : string) : result createmeta :=
  Ok {| cm_projects :=
          Some [ {| p_key := "KAN";
                    p_issuetypes :=
                      Some [ {| it_name := "Story"; it_subtask := false |};
                             {| it_name := subtaskName; it_subtask := true |};
                             {| it_name := "Chore"; it_subtask := true |} ]
                 |} ] |}.

(** A tracker that refuses every issue whose summary is [refused], refuses
    every field update and every watcher, and numbers the issues it creates. *)
Definition sample_tracker (createmeta : result createmeta)
           (probe : string -> result string) (refused : string) : tracker :=
  {| on_createmeta := fun _ _ => createmeta;
     on_create := fun t f =>
       if String.eqb (or_empty (bf_summary f)) refused
       then Throw (Error "Jira error: summary is invalid")
       else Ok {| key := issue_number (count_created t) |};
     on_update := fun _ _ _ =>
       Throw (Error "Jira error: Field 'duedate' cannot be set.");
     on_transitions := fun _ _ =>
       Ok {| ts_transitions :=
               Some [ {| tr_id := "11"; tr_name := "To Do" |};
                      {| tr_id := "21"; tr_name := "In Progress" |};
                      {| tr_id := "31"; tr_name := "IN PROGRESS" |} ] |};
     on_transition := fun _ _ _ => Ok tt;
     on_user_search := fun _ _ => Ok [];
     on_watcher := fun _ _ _ => Throw (Error "Jira error: HTTP 404");
     on_probe := fun _ _ name => probe name |}.

Definition no_probe (name : string) : result string :=
  Throw (TypeError "Failed to fetch").

(** Only [Sub-task] passes the probe. *)
Definition picky_probe (name : string) : result string :=
  if String.eqb name "Sub-task"
  then Ok ("{" ++ json_member "errors"
                   ("{" ++ json_member "project"
                             (json_string "project is required") ++ "}")
               ++ "}")%string
  else Ok ("{" ++ json_member "errors"
                   ("{" ++ json_member "issuetype"
                             (json_string "Specify a valid issue type")
                        ++ "}")
               ++ "}")%string.

Definition forbidden : result createmeta :=
  Throw (Error "Jira error: HTTP 403").

Definition jira : tracker :=
  sample_tracker (sample_createmeta "Sub-task") no_probe "boom".

Definition restricted_jira : tracker :=
  sample_tracker forbidden picky_probe "boom".

Definition offline_jira : tracker :=
  sample_tracker forbidden no_probe "boom".

(** A tracker whose subtask type has an empty name. *)
Definition blank_jira : tracker :=
  sample_tracker (sample_createmeta EmptyString) no_probe "boom".

Definition empty_store : store :=
  {| trace := []; subtaskTypeCache := ∅; createdKeys := [] |}.

Definition sample_settings : settings :=
  {| groq_key := "gsk"; jira_url := "https://example.atlassian.net";
     jira_email := "dev@example.com"; jira_token := "token" |}.

Definition sample_subtasks : list subtask :=
  [ {| sub_title := "form"; sub_description := Some "Build the form";
       sub_acceptance_criteria := Some ["has two fields"] |};
    {| sub_title := "boom"; sub_description := None;
       sub_acceptance_criteria := None |};
    {| sub_title := "logout"; sub_description := Some "Add logout";
       sub_acceptance_criteria := None |} ].

Definition sample_meta (md : mode) (points : option jsnumber) : meta :=
  {| m_mode := Some md;
     m_parentKey :=
       match md with breakdown => Some "KAN-2" | create => None end;
     m_projectKey := Some "KAN";
     m_issueType := Some "Story";
     m_breakType := None;
     m_jiraStatus := Some "in progress";
     m_priority := Some "High";
     m_assigneeId := None;
     m_dueDate := Some "2026-12-01";
     m_labels := Some ["backend"];
     m_storyPoints := points;
     m_watchers := Some ["alice@example.com"] |}.

Definition sample_output (md : mode) (points : option jsnumber)
           (sts : list subtask) : ai_output :=
  {| title := Some "Add login";
     description := Some "Users can log in.";
     acceptance_criteria := Some ["session is kept"];
     subtasks := Some sts;
     _meta := Some (sample_meta md points) |}.

(** *** The shape of a confirmation run *)

(** An event that neither creates nor updates an issue. *)
Definition quiet (e : event) : Prop :=
  match e with
  | CreateIssue _ _ | UpdateIssue _ _ _ => False
  | _ => True
  end.

(** A computation that only appends events satisfying [P] to the trace and
    leaves the created keys alone. *)
Definition appends {A : Type} (P : event -> Prop) (c : M A) : Prop :=
  forall s,
  exists evs,
    trace (snd (c s)) = trace s ++ evs
    /\ createdKeys (snd (c s)) = createdKeys s
    /\ Forall P evs.

(** The calls that follow the creation of the issue [k] in one iteration: at
    most one update, which carries the extra fields of the run, then
    transitions and watchers. *)
Definition enrichment (m : meta) (k : string) (evs : list event) : Prop :=
  exists upd others,
    evs = upd ++ others
    /\ (upd = [] \/ exists r, upd = [UpdateIssue k (extraFields_of m) r])
    /\ Forall quiet others.

(** [loop_shape m parentKey sts evs ks r]: the loop over [sts] made the calls
    [evs], pushed the keys [ks] and ended with [r]. *)
Inductive loop_shape (m : meta) (parentKey : string)
  : list subtask -> list event -> list string -> result unit -> Prop :=
| loop_done : loop_shape m parentKey [] [] [] (Ok tt)
| loop_abort st rest pre f e :
    Forall quiet pre ->
    request_for m parentKey st f ->
    loop_shape m parentKey (st :: rest)
               (pre ++ [CreateIssue f (Throw e)]) [] (Throw e)
| loop_next st rest pre f k post evs ks r :
    Forall quiet pre ->
    request_for m parentKey st f ->
    enrichment m (key k) post ->
    loop_shape m parentKey rest evs ks r ->
    loop_shape m parentKey (st :: rest)
               (pre ++ CreateIssue f (Ok k) :: post ++ evs) (key k :: ks) r.

Definition returning (r : result unit) (parentKey : string) : result string :=
  match r with
  | Ok _ => Ok parentKey
  | Throw e => Throw e
  end.

(** The calls, the keys and the result of the [try] block. *)
Inductive body_shape (out : ai_output) (m : meta)
  : list event -> list string -> result string -> Prop :=
| parent_refused e :
    m_mode m = Some create ->
    body_shape out m [CreateIssue (parent_fields out m) (Throw e)] []
               (Throw e)
| parent_created k pre evs ks r :
    m_mode m = Some create ->
    Forall quiet pre ->
    loop_shape m (key k) (or_nil (subtasks out)) evs ks r ->
    body_shape out m
               (CreateIssue (parent_fields out m) (Ok k) :: pre ++ evs)
               (key k :: ks) (returning r (key k))
| parent_given pre evs ks r :
    m_mode m <> Some create ->
    Forall quiet pre ->
    loop_shape m (or_empty (m_parentKey m)) (or_nil (subtasks out)) evs ks r ->
    body_shape out m (pre ++ evs) ks
               (returning r (or_empty (m_parentKey m))).

(** The issue creations of a trace, with their answers. *)
Fixpoint creations (evs : list event) : list (base_fields * result created) :=
  match evs with
  | [] => []
  | CreateIssue f r :: rest => (f, r) :: creations rest
  | _ :: rest => creations rest
  end.

Definition is_subtask_creation (c : base_fields * result created) : bool :=
  match bf_parent (fst c) with Some _ => true | None => false end.

Definition subtask_creations (evs : list event)
  : list (base_fields * result created) :=
  List.filter is_subtask_creation (creations evs).

Definition parent_creations (evs : list event)
  : list (base_fields * result created) :=
  List.filter (fun c => negb (is_subtask_creation c)) (creations evs).

(** The field updates of a trace. *)
Fixpoint updates (evs : list event) : list (string * extra_fields) :=
  match evs with
  | [] => []
  | UpdateIssue k x _ :: rest => (k, x) :: updates rest
  | _ :: rest => updates rest
  end.

Definition succeeded (k : string) : result created := Ok {| key := k |}.

Definition mode_is_create (m : meta) : bool :=
  match m_mode m with Some create => true | _ => false end.

(** A computation that never throws. *)
Definition returns {A : Type} (c : M A) : Prop :=
  forall s, exists a, fst (c s) = Ok a.

(** What [onConfirm] reports for the result of the [try] block. *)
Definition reported (m : meta) (r : result string) (keys : list string) : run :=
  match r with
  | Ok parentKey => Shown parentKey keys m
  | Throw e => Failed (message_of e)
  end.

(** A tracker that refuses the parent issue of the sample output. *)
Definition strict_jira : tracker :=
  sample_tracker (sample_createmeta "Sub-task") no_probe "Add login".

(** A run in create mode whose second subtask is refused. *)
Definition refused_output : ai_output :=
  sample_output create (Some Zero) sample_subtasks.

(** A run in breakdown mode in which every creation succeeds. *)
Definition accepted_output : ai_output :=
  sample_output breakdown (Some (Nonzero "3")) [ {| sub_title := "form";
                                   sub_description := Some "Build the form";
                                   sub_acceptance_criteria := None |};
                                {| sub_title := "logout";
                                   sub_description := None;
                                   sub_acceptance_criteria := None |} ].

(** ** The HTTP layer, the issue reader and the pages around the popup *)

(** [String(n)] for a natural number. *)
Fixpoint decimal (fuel n : nat) (acc : string) : string :=
  let acc' := String (ascii_of_nat (48 + n mod 10)) acc in
  match fuel with
  | O => acc'
  | S f => if (n / 10 =? 0)%nat then acc' else decimal f (n / 10) acc'
  end.

Definition nat_toString (n : nat) : string := decimal n n EmptyString.

(** *** The values of a refused answer

    The body of a refused answer is whatever JSON the server sent. An object
    is given by its members in the order [Object.values] enumerates them. *)

(** [l.map(f)] for an [f] that may throw: the first failure, from the left,
    is the result. *)
Definition collect {A B : Type} (f : A -> result B)
  : list A -> result (list B) :=
  fix go (l : list A) : result (list B) :=
    match l with
    | [] => Ok []
    | x :: r =>
        match f x with
        | Throw e => Throw e
        | Ok y =>
            match go r with
            | Throw e => Throw e
            | Ok ys => Ok (y :: ys)
            end
        end
    end.

Definition not_primitive : exn :=
  TypeError "Cannot convert object to primitive value".

(** [String(v)] for a value made by [JSON.parse]. An array is joined with
    commas, its [null] elements giving the empty string. An object has no
    callable member of its own: it is [[object Object]] through
    [Object.prototype.toString], unless a member named [toString] hides that
    method, and then the conversion throws. *)
Fixpoint js_toString (v : json) : result string :=
  match v with
  | JNull => Ok "null"
  | JBool b => Ok (if b then "true" else "false")
  | JNum n => Ok (number_toString n)
  | JStr s => Ok s
  | JArr items =>
      match collect (fun x => match x with
                              | JNull => Ok EmptyString
                              | _ => js_toString x
                              end) items with
      | Throw e => Throw e
      | Ok texts => Ok (Str.join "," texts)
      end
  | JObj props =>
      match assoc "toString" props with
      | Some _ => Throw not_primitive
      | None => Ok "[object Object]"
      end
  end.

(** The text of one element in [Array.prototype.join]. *)
Definition element_text (x : json) : result string :=
  match x with
  | JNull => Ok EmptyString
  | _ => js_toString x
  end.

(** [items.join(sep)] *)
Definition js_join (sep : string) (items : list json) : result string :=
  match collect element_text items with
  | Throw e => Throw e
  | Ok texts => Ok (Str.join sep texts)
  end.

Definition json_truthy (v : json) : bool :=
  match v with
  | JNull => false
  | JBool b => b
  | JNum n => number_truthy n
  | JStr s => Str.truthy s
  | JArr _ | JObj _ => true
  end.

(** [Object.values(member || {})] for a member that may be absent: the
    values of an object, the elements of an array, the characters of a
    string, and nothing for a number or [true]. *)
Definition values_or_none (member : option json) : list json :=
  match member with
  | None => []
  | Some v =>
      if json_truthy v
      then match v with
           | JObj props => map snd props
           | JArr items => items
           | JStr s =>
               map (fun c => JStr (String c EmptyString))
                   (list_ascii_of_string s)
           | _ => []
           end
      else []
  end.

Definition not_a_function : exn :=
  TypeError "err.errorMessages?.join is not a function".

(** [err.errorMessages?.join(', ')]: [undefined], which counts as the empty
    string in the [||] chain, when the member is absent or [null]; the joined
    elements of an array; a [TypeError] for any other member, which has no
    [join] to call, and for a body that is [null]. *)
Definition joined_messages (err : json) : result string :=
  match get_prop err "errorMessages" with
  | Throw e => Throw e
  | Ok None | Ok (Some JNull) => Ok EmptyString
  | Ok (Some (JArr items)) => js_join ", " items
  | Ok (Some _) => Throw not_a_function
  end.

(** What [fetch] resolved with. [resp_error] is what
    [resp.json().catch(() => ({}))] gives on the error path: the parsed body,
    or the empty object when there is none; [resp_json] is what [resp.json()]
    gives on the success path. *)
Record http_response (A : Type) : Type :=
  { resp_ok : bool;
    resp_status : nat;
    resp_error : json;
    resp_json : result A }.
Arguments resp_ok {A} _.
Arguments resp_status {A} _.
Arguments resp_error {A} _.
Arguments resp_json {A} _.

(** [err.errorMessages?.join(', ') || Object.values(err.errors ||
    {}).join(', ') || `HTTP ${resp.status}`] *)
Definition error_text (status : nat) (err : json) : result string :=
  match joined_messages err with
  | Throw e => Throw e
  | Ok messages =>
      if Str.truthy messages then Ok messages
      else
        match get_prop err "errors" with
        | Throw e => Throw e
        | Ok member =>
            match js_join ", " (values_or_none member) with
            | Throw e => Throw e
            | Ok fields =>
                if Str.truthy fields then Ok fields
                else Ok ("HTTP " ++ nat_toString status)%string
            end
        end
  end.

(** [jiraRequest] after [fetch]; [empty] is the [{}] of a 204 answer. *)
Definition jiraRequest {A : Type} (empty : A)
           (fetched : result (http_response A)) : result A :=
  match fetched with
  | Throw e => Throw e
  | Ok resp =>
      if negb (resp_ok resp)
      then
        match error_text (resp_status resp) (resp_error resp) with
        | Throw e => Throw e
        | Ok msg => Throw (Error ("Jira error: " ++ msg))
        end
      else if (resp_status resp =? 204)%nat then Ok empty
      else resp_json resp
  end.

(** [GET issue/{key}?fields=summary,description,project,issuetype] *)
Record project_ref : Type := { pr_key : option string }.
Record issue_fields : Type :=
  { if_summary : option string;
    if_description : option Adf.node;
    if_project : option project_ref }.
Record issue : Type := { i_fields : option issue_fields }.

Record story : Type :=
  { story_key : string;
    story_title : string;
    story_description : string;
    story_projectKey : string }.

Definition empty_node : Adf.node := Adf.Node None None None None None.

(** [jiraGetIssue] after its request. *)
Definition jiraGetIssue (issueKey : string) (answer : result issue)
  : result story :=
  match answer with
  | Throw e => Throw e
  | Ok data =>
      let fields :=
        match i_fields data with
        | Some f => f
        | None => {| if_summary := None; if_description := None;
                     if_project := None |}
        end in
      Ok {| story_key := issueKey;
            story_title := or_empty (if_summary fields);
            story_description :=
              Adf.extractAdfText
                (match if_description fields with
                 | Some d => d
                 | None => empty_node
                 end);
            story_projectKey :=
              match if_project fields with
              | Some p => or_empty (pr_key p)
              | None => EmptyString
              end |}
  end.

(** *** [escHtml] *)

(** [s.replace(/c/g, rep)] for a single character [c]. *)
Fixpoint replace_char (c : ascii) (rep : string) (s : string) : string :=
  match s with
  | EmptyString => EmptyString
  | String x r =>
      if Ascii.eqb x c then (rep ++ replace_char c rep r)%string
      else String x (replace_char c rep r)
  end.

Definition double_quote : ascii := ascii_of_nat 34.

Definition escHtml (str : string) : string :=
  replace_char double_quote "&quot;"
    (replace_char ">" "&gt;"
       (replace_char "<" "&lt;" (replace_char "&" "&amp;" str))).

Fixpoint has_char (c : ascii) (s : string) : bool :=
  match s with
  | EmptyString => false
  | String x r => Ascii.eqb x c || has_char c r
  end.

(** *** The content script *)

Definition is_upper (c : ascii) : bool :=
  let n := Str.code c in ((65 <=? n) && (n <=? 90))%nat.

Definition is_digit (c : ascii) : bool :=
  let n := Str.code c in ((48 <=? n) && (n <=? 57))%nat.

Definition is_upper_or_digit (c : ascii) : bool := is_upper c || is_digit c.

(** The longest prefix whose characters satisfy [p], and the rest. *)
Fixpoint span (p : ascii -> bool) (s : string) : string * string :=
  match s with
  | EmptyString => (EmptyString, EmptyString)
  | String c r =>
      if p c then let (run, rest) := span p r in (String c run, rest)
      else (EmptyString, s)
  end.

Fixpoint all_chars (p : ascii -> bool) (s : string) : bool :=
  match s with
  | EmptyString => true
  | String c r => p c && all_chars p r
  end.

(** [([A-Z][A-Z0-9]+-\d+)] matched at the start of [s]. Each [+] is greedy,
    and giving characters back never helps: what follows a shorter run is an
    upper-case letter or a digit, not the dash. *)
Definition issue_key_at (s : string) : option string :=
  match s with
  | String c r =>
      if is_upper c
      then
        match span is_upper_or_digit r with
        | (String a run, String d rest) =>
            if Ascii.eqb d "-"
            then
              match span is_digit rest with
              | (String n ds, _) =>
                  Some (String c (String a run) ++ "-" ++ String n ds)%string
              | (EmptyString, _) => None
              end
            else None
        | _ => None
        end
      else None
  | EmptyString => None
  end.

(** [([A-Z][A-Z0-9]+)] matched at the start of [s]. *)
Definition project_key_at (s : string) : option string :=
  match s with
  | String c r =>
      if is_upper c
      then
        match span is_upper_or_digit r with
        | (String a run, _) => Some (String c (String a run))
        | (EmptyString, _) => None
        end
      else None
  | EmptyString => None
  end.

(** [url.match(/<prefix>(...)/)]: the capture of the leftmost match. *)
Fixpoint capture_after (prefix : string) (at_start : string -> option string)
         (url : string) : option string :=
  match (if Str.startsWith prefix url
         then at_start (Str.drop (String.length prefix) url)
         else None) with
  | Some k => Some k
  | None =>
      match url with
      | EmptyString => None
      | String _ r => capture_after prefix at_start r
      end
  end.

Record jira_context : Type :=
  { issueKey : string; projectKey : string; isJiraIssue : bool }.

Definition getJiraContext (url : string) : jira_context :=
  match capture_after "/browse/" issue_key_at url with
  | Some k =>
      {| issueKey := k; projectKey := before_dash k; isJiraIssue := true |}
  | None =>
      match capture_after "/jira/software/projects/" project_key_at url with
      | Some p =>
          {| issueKey := EmptyString; projectKey := p; isJiraIssue := false |}
      | None =>
          {| issueKey := EmptyString; projectKey := EmptyString;
             isJiraIssue := false |}
      end
  end.

(** *** The form values of the generate handlers *)

(** [s.split(c)] *)
Fixpoint split_on (c : ascii) (s : string) : list string :=
  match s with
  | EmptyString => [EmptyString]
  | String x r =>
      if Ascii.eqb x c then EmptyString :: split_on c r
      else match split_on c r with
           | h :: t => String x h :: t
           | [] => [String x EmptyString]
           end
  end.

(** [raw ? raw.split(',').map(s => s.trim()).filter(Boolean) : []] *)
Definition comma_list (raw : string) : list string :=
  if Str.truthy raw
  then List.filter Str.truthy (map Str.trim (split_on "," raw))
  else [].

(** [s.replace(/\s+/g, '-')]; [in_run] tells that the character before was
    white space. *)
Fixpoint dash_spaces (in_run : bool) (s : string) : string :=
  match s with
  | EmptyString => EmptyString
  | String c r =>
      if Str.is_space c
      then if in_run then dash_spaces true r
           else String "-" (dash_spaces true r)
      else String c (dash_spaces false r)
  end.

Definition team_label (team : string) : string :=
  ("team-" ++ dash_spaces false (Str.toLowerCase team))%string.

(** The [labels] array of [onBreakdownGenerate]. *)
Definition breakdown_labels (labelsRaw team : string) : list string :=
  comma_list labelsRaw
  ++ (if Str.truthy team then [team_label team] else []).

(** The [_meta] that [onCreateGenerate] attaches to the AI output. *)
Definition create_meta (projectKey issueType jiraStatus : string) : meta :=
  {| m_mode := Some create;
     m_parentKey := None;
     m_projectKey := Some projectKey;
     m_issueType := Some issueType;
     m_breakType := None;
     m_jiraStatus := Some jiraStatus;
     m_priority := None;
     m_assigneeId := None;
     m_dueDate := None;
     m_labels := None;
     m_storyPoints := None;
     m_watchers := None |}.

(** *** The options page *)

(** [s.replace(/\/$/, '')] *)
Fixpoint strip_trailing_slash (s : string) : string :=
  match s with
  | EmptyString => EmptyString
  | String c EmptyString => if Ascii.eqb c "/" then EmptyString else s
  | String c r => String c (strip_trailing_slash r)
  end.

Inductive save_outcome : Type :=
| Saved (stored : settings)
| Alert (message : string).

Definition saveSettings (groq url email token : string) : save_outcome :=
  let groq_key := Str.trim groq in
  let jira_url := strip_trailing_slash (Str.trim url) in
  let jira_email := Str.trim email in
  let jira_token := Str.trim token in
  if negb (Str.truthy groq_key) || negb (Str.truthy jira_url)
     || negb (Str.truthy jira_email) || negb (Str.truthy jira_token)
  then Alert "Please fill in all required fields."
  else if negb (Str.startsWith "https://" jira_url)
  then Alert "Jira URL must start with https://"
  else Saved {| groq_key := groq_key; jira_url := jira_url;
                jira_email := jira_email; jira_token := jira_token |}.

(** ** Vocabulary of the further properties *)

(** A computation that only appends events satisfying [P] to the trace. *)
Definition emits {A : Type} (P : event -> Prop) (c : M A) : Prop :=
  forall s,
  exists evs, trace (snd (c s)) = trace s ++ evs /\ Forall P evs.

(** The calls a confirmation may make, given its output and metadata. *)
Definition allowed (out : ai_output) (m : meta) (e : event) : Prop :=
  match e with
  | Createmeta pk _ =>
      or_null (m_breakType m) = None /\ pk = or_empty (m_projectKey m)
  | Probe pk name _ =>
      or_null (m_breakType m) = None /\ pk = or_empty (m_projectKey m)
      /\ In name candidates
  | CreateIssue f _ =>
      (m_mode m = Some create /\ f = parent_fields out m)
      \/ (exists parentKey st typeName,
             In st (or_nil (subtasks out))
             /\ f = subtask_fields m parentKey st typeName
             /\ forall t, or_null (m_breakType m) = Some t -> typeName = t)
  | UpdateIssue _ x _ =>
      x = extraFields_of m /\ extra_nonempty x = true
  | GetTransitions _ _ | DoTransition _ _ _ =>
      or_empty (m_jiraStatus m) <> EmptyString
  | UserSearch q _ =>
      In q (or_nil (m_watchers m)) /\ Str.includes "@" q = true
  | AddWatcher _ _ _ => or_nil (m_watchers m) <> []
  end.

(** The keys the tracker answered to the creation requests of a trace, those
    of [jiraCreateIssue] and [jiraCreateSubtask], in their order. A probe of
    the detection cascade posts an issue as well, and a tracker that accepts
    it creates one; the probe's answer is only searched for the words of an
    issue-type error, and no key is read from it. *)
Fixpoint answered_keys (evs : list event) : list string :=
  match evs with
  | [] => []
  | CreateIssue _ (Ok k) :: rest => key k :: answered_keys rest
  | _ :: rest => answered_keys rest
  end.

Definition is_probe (e : event) : bool :=
  match e with Probe _ _ _ => true | _ => false end.

(** A tracker whose user search knows every address. *)
Definition directory_jira : tracker :=
  {| on_createmeta := on_createmeta jira;
     on_create := on_create jira;
     on_update := on_update jira;
     on_transitions := on_transitions jira;
     on_transition := on_transition jira;
     on_user_search :=
       fun _ _ => Ok [ {| accountId := "5b10a2844c20165700ede21g" |};
                       {| accountId := "other" |} ];
     on_watcher := fun _ _ _ => Ok tt;
     on_probe := on_probe jira |}.

(** The answer to an accepted [POST issue]. *)
Definition created_body : string :=
  ("{" ++ json_member "id" (json_string "10077") ++ ","
       ++ json_member "key" (json_string "KAN-77") ++ "}")%string.

(** A tracker without readable creation metadata that accepts every probe
    and creates the probed issue. *)
Definition welcoming_jira : tracker :=
  sample_tracker forbidden (fun _ => Ok created_body) "boom".

(** A breakdown of one subtask with no type override and nothing
    optional. *)
Definition one_subtask_output : ai_output :=
  {| title := Some "Add login";
     description := None;
     acceptance_criteria := None;
     subtasks :=
       Some [ {| sub_title := "form"; sub_description := None;
                 sub_acceptance_criteria := None |} ];
     _meta :=
       Some {| m_mode := Some breakdown;
               m_parentKey := Some "KAN-2";
               m_projectKey := Some "KAN";
               m_issueType := None;
               m_breakType := None;
               m_jiraStatus := Some EmptyString;
               m_priority := Some EmptyString;
               m_assigneeId := Some EmptyString;
               m_dueDate := Some EmptyString;
               m_labels := Some [];
               m_storyPoints := None;
               m_watchers := Some [] |} |}.

Definition is_detection_call (e : event) : bool :=
  match e with Createmeta _ _ | Probe _ _ _ => true | _ => false end.

Definition is_update_call (e : event) : bool :=
  match e with UpdateIssue _ _ _ => true | _ => false end.

Definition is_transition_call (e : event) : bool :=
  match e with GetTransitions _ _ | DoTransition _ _ _ => true | _ => false end.

Definition is_search_call (e : event) : bool :=
  match e with UserSearch _ _ => true | _ => false end.

Definition is_watcher_call (e : event) : bool :=
  match e with UserSearch _ _ | AddWatcher _ _ _ => true | _ => false end.

(** The issue type a call asks for, when it creates a subtask. *)
Definition subtask_type_asked (e : event) : option string :=
  match e with
  | CreateIssue f _ =>
      match bf_parent f with
      | Some _ => Some (bf_issuetype f)
      | None => None
      end
  | _ => None
  end.

(** A run in breakdown mode with a type override and nothing optional. *)
Definition plain_output : ai_output :=
  {| title := Some "Add login";
     description := None;
     acceptance_criteria := None;
     subtasks := Some sample_subtasks;
     _meta :=
       Some {| m_mode := Some breakdown;
               m_parentKey := Some "KAN-2";
               m_projectKey := Some "KAN";
               m_issueType := None;
               m_breakType := Some "Task";
               m_jiraStatus := Some EmptyString;
               m_priority := Some EmptyString;
               m_assigneeId := Some EmptyString;
               m_dueDate := Some EmptyString;
               m_labels := Some [];
               m_storyPoints := None;
               m_watchers := Some [] |} |}.

(** A run of the create flow. *)
Definition created_output : ai_output :=
  {| title := Some "Add login";
     description := Some "Users can log in.";
     acceptance_criteria := Some ["session is kept"];
     subtasks := Some sample_subtasks;
     _meta := Some (create_meta "KAN" "Story" "In Progress") |}.

(** * Properties *)

(** ** Strings and association lists *)

Lemma append_nil_l (s : string) : (EmptyString ++ s)%string = s.
Proof. reflexivity. Qed.

Lemma append_cons (c : ascii) (a b : string) :
  (String c a ++ b)%string = String c (a ++ b).
Proof. reflexivity. Qed.

Lemma startsWith_app (p r : string) : Str.startsWith p (p ++ r) = true.
Proof.
  induction p as [|c p IH].
  - reflexivity.
  - rewrite append_cons. cbn [Str.startsWith].
    now rewrite Ascii.eqb_refl, IH.
Qed.

Lemma includes_startsWith (needle hay : string) :
  Str.startsWith needle hay = true -> Str.includes needle hay = true.
Proof. intros H. destruct hay; cbn [Str.includes]; now rewrite H. Qed.

Lemma includes_occurs (needle pre rest : string) :
  Str.includes needle (pre ++ needle ++ rest) = true.
Proof.
  induction pre as [|c pre IH].
  - rewrite append_nil_l. apply includes_startsWith, startsWith_app.
  - rewrite append_cons. cbn [Str.includes]. rewrite IH. apply orb_true_r.
Qed.

Lemma string_app_assoc (a b c : string) :
  ((a ++ b) ++ c = a ++ (b ++ c))%string.
Proof.
  induction a as [|x a IH]; [reflexivity|].
  rewrite !append_cons. now rewrite IH.
Qed.

Lemma string_app_nil_r (a : string) : (a ++ EmptyString)%string = a.
Proof.
  induction a as [|x a IH]; [reflexivity|].
  rewrite append_cons. now rewrite IH.
Qed.

Lemma assoc_set_same {V : Type} (k : string) (v : V) (l : list (string * V)) :
  assoc k (assoc_set k v l) = Some v.
Proof.
  induction l as [|[k' v'] l IH]; simpl.
  - now rewrite String.eqb_refl.
  - destruct (String.eqb k k') eqn:E; simpl.
    + now rewrite String.eqb_refl.
    + now rewrite E.
Qed.

Lemma assoc_set_other {V : Type} (k k' : string) (v : V)
      (l : list (string * V)) :
  k' <> k -> assoc k' (assoc_set k v l) = assoc k' l.
Proof.
  intros N. induction l as [|[k0 v0] l IH]; simpl.
  - destruct (String.eqb k' k) eqn:E; [|reflexivity].
    apply String.eqb_eq in E. contradiction.
  - destruct (String.eqb k k0) eqn:E; simpl.
    + apply String.eqb_eq in E. subst k0.
      destruct (String.eqb k' k) eqn:E'; [|reflexivity].
      apply String.eqb_eq in E'. contradiction.
    + now rewrite IH.
Qed.

Lemma slice0_firstn {A : Type} (l : list A) (n : Z) :
  (0 <= n)%Z -> (n < Z.of_nat (length l))%Z ->
  slice0 l n = firstn (Z.to_nat n) l.
Proof.
  intros H0 H1. unfold slice0.
  destruct (n <? 0)%Z eqn:E; [apply Z.ltb_lt in E; lia|].
  now rewrite Z.min_l by lia.
Qed.

Lemma all_space_app (a b : string) :
  Str.all_space (a ++ b) = Str.all_space a && Str.all_space b.
Proof.
  induction a as [|c a IH]; [reflexivity|].
  rewrite append_cons. cbn [Str.all_space]. rewrite IH. apply andb_assoc.
Qed.

Lemma trimStart_all_space (a b : string) :
  Str.all_space a = true -> Str.trimStart (a ++ b) = Str.trimStart b.
Proof.
  induction a as [|c a IH]; intros H; [reflexivity|].
  cbn [Str.all_space] in H. apply andb_prop in H as [Hc Ha].
  rewrite append_cons. cbn [Str.trimStart]. rewrite Hc. auto.
Qed.

Lemma trimStart_app (a b : string) :
  Str.all_space a = false ->
  Str.trimStart (a ++ b) = (Str.trimStart a ++ b)%string.
Proof.
  induction a as [|c a IH]; intros H; [discriminate|].
  cbn [Str.all_space] in H. rewrite append_cons. cbn [Str.trimStart].
  destruct (Str.is_space c); [auto | now rewrite append_cons].
Qed.

Lemma trimEnd_all_space (a : string) :
  Str.all_space a = true -> Str.trimEnd a = EmptyString.
Proof.
  destruct a; intros H; [reflexivity|]. cbn [Str.trimEnd]. now rewrite H.
Qed.

Lemma trimEnd_app_space (a ws : string) :
  Str.all_space ws = true -> Str.trimEnd (a ++ ws) = Str.trimEnd a.
Proof.
  intros H. induction a as [|c a IH].
  - rewrite append_nil_l. now apply trimEnd_all_space.
  - rewrite append_cons. cbn [Str.trimEnd]. rewrite <- append_cons.
    rewrite all_space_app, H, andb_true_r.
    destruct (Str.all_space (String c a)); [reflexivity | now rewrite IH].
Qed.

Lemma trimStart_not_all_space (a : string) :
  Str.all_space a = false -> Str.all_space (Str.trimStart a) = false.
Proof.
  induction a as [|c a IH]; intros H; [discriminate|].
  cbn [Str.all_space] in H. cbn [Str.trimStart].
  destruct (Str.is_space c) eqn:E; [auto|].
  cbn [Str.all_space]. now rewrite E.
Qed.

Lemma trimStart_idempotent (a : string) :
  Str.trimStart (Str.trimStart a) = Str.trimStart a.
Proof.
  induction a as [|c a IH]; [reflexivity|].
  cbn [Str.trimStart]. destruct (Str.is_space c) eqn:E; [exact IH|].
  cbn [Str.trimStart]. now rewrite E.
Qed.

(** ** Groq response validation *)

(** No fence inside [x] is taken for the closing one: white space alone never
    follows it, as the closing fence itself does. *)
Lemma no_early_fence (x tail : string) :
  Str.startsWith Groq.fence (x ++ nl ++ Groq.fence ++ tail)
  && Str.all_space (Str.drop 3 (x ++ nl ++ Groq.fence ++ tail)) = false.
Proof.
  destruct x as [|c1 [|c2 [|c3 x]]]; try reflexivity.
  - rewrite !append_cons, append_nil_l. unfold Groq.fence, nl.
    rewrite !append_cons. cbn [Str.startsWith].
    replace (Ascii.eqb "`" (ascii_of_nat 10)) with false by reflexivity.
    now rewrite andb_false_l, andb_false_r.
  - rewrite !append_cons, append_nil_l. unfold Groq.fence, nl.
    rewrite !append_cons. cbn [Str.startsWith].
    replace (Ascii.eqb "`" (ascii_of_nat 10)) with false by reflexivity.
    now rewrite andb_false_l, !andb_false_r.
  - rewrite !append_cons. cbn [Str.drop].
    rewrite !all_space_app.
    replace (Str.all_space Groq.fence) with false by reflexivity.
    rewrite andb_false_l, !andb_false_r. reflexivity.
Qed.

Lemma strip_close_at_fence (trailing : string) :
  Str.all_space trailing = true ->
  Groq.strip_close (Groq.fence ++ trailing) = EmptyString.
Proof.
  intros H. unfold Groq.fence. rewrite !append_cons, append_nil_l.
  cbn [Groq.strip_close Str.startsWith Str.drop].
  replace (Ascii.eqb "`" "`") with true by reflexivity.
  cbn [andb]. now rewrite H.
Qed.

Lemma strip_close_fenced (x trailing : string) :
  Str.all_space trailing = true ->
  Groq.strip_close (x ++ nl ++ Groq.fence ++ trailing) = (x ++ nl)%string.
Proof.
  intros H. induction x as [|c x IH].
  - rewrite !append_nil_l. unfold nl at 1 2.
    rewrite !append_cons, !append_nil_l.
    cbn [Groq.strip_close]. rewrite (strip_close_at_fence _ H).
    unfold Groq.fence at 1. cbn [Str.startsWith].
    replace (Ascii.eqb "`" (ascii_of_nat 10)) with false by reflexivity.
    reflexivity.
  - pose proof (no_early_fence (String c x) trailing) as E.
    rewrite !append_cons in *. cbn [Groq.strip_close].
    rewrite E. now rewrite IH.
Qed.
Lemma strip_open_tagged (tag rest : string) :
  Str.toLowerCase tag = "json" ->
  Groq.strip_open (Groq.fence ++ tag ++ rest) = Str.trimStart rest.
Proof.
  intros H.
  destruct tag as [|a [|b [|c [|d [|e tag]]]]]; try discriminate H.
  cbn [Str.toLowerCase] in H. injection H as Ha Hb Hc Hd.
  unfold Groq.strip_open, Groq.fence.
  rewrite !append_cons, !append_nil_l.
  cbn [String.substring Str.toLowerCase Str.drop].
  rewrite Ha, Hb, Hc, Hd. reflexivity.
Qed.

Lemma strip_fenced_json (tag body trailing : string) :
  Str.toLowerCase tag = "json" ->
  Str.all_space trailing = true ->
  Groq.strip (fenced tag body ++ trailing) = Str.trim body.
Proof.
  intros Htag Hws. unfold Groq.strip, fenced.
  rewrite !string_app_assoc. rewrite (strip_open_tagged _ _ Htag).
  rewrite (trimStart_all_space nl) by reflexivity.
  destruct (Str.all_space body) eqn:Hb.
  - rewrite (trimStart_all_space body) by exact Hb.
    rewrite (trimStart_all_space nl) by reflexivity.
    replace (Str.trimStart (Groq.fence ++ trailing))
      with (Groq.fence ++ trailing)%string by reflexivity.
    rewrite (strip_close_at_fence _ Hws).
    unfold Str.trim.
    rewrite <- (string_app_nil_r body) at 1.
    rewrite (trimStart_all_space body) by exact Hb. reflexivity.
  - rewrite (trimStart_app body) by exact Hb.
    rewrite (strip_close_fenced _ _ Hws).
    unfold Str.trim.
    rewrite trimStart_app by now apply trimStart_not_all_space.
    rewrite trimStart_idempotent.
    now rewrite trimEnd_app_space.
Qed.

Lemma raw_content_fenced (info body trailing : string) :
  Groq.raw_content (Some (fenced info body ++ trailing)%string)
  = (fenced info body ++ trailing)%string.
Proof. reflexivity. Qed.

Lemma invalid_json_is_not_missing_subtasks :
  Groq.missing_subtasks <> Groq.invalid_json.
Proof. discriminate. Qed.

(** [C5] When the parsed response has a subtasks array, [groqGenerate]
    returns; if the array is longer than the requested count, the returned
    object carries the first requested-count subtasks in their order and every
    other member unchanged; if it has at most that many, the parsed object is
    returned as it is. The requested count is a count: it is not negative. *)
Theorem groqGenerate_truncates_to_requested_count
        (JSON_parse : string -> option json) (content : option string)
        (numSubtasks : Z) (parsed : json) (items : list json) :
  JSON_parse (Groq.strip (Groq.raw_content content)) = Some parsed ->
  get_prop parsed "subtasks" = Ok (Some (JArr items)) ->
  (0 <= numSubtasks)%Z ->
  exists out,
    Groq.groqGenerate JSON_parse (Groq.Completion content) numSubtasks = Ok out
    /\ ((numSubtasks < Z.of_nat (length items))%Z ->
        get_prop out "subtasks"
        = Ok (Some (JArr (firstn (Z.to_nat numSubtasks) items)))
        /\ forall name, name <> "subtasks" ->
                        get_prop out name = get_prop parsed name)
    /\ ((Z.of_nat (length items) <= numSubtasks)%Z -> out = parsed).
Proof.
  intros Hparse Hsub Hn. unfold Groq.groqGenerate. rewrite Hparse, Hsub.
  destruct (Z.of_nat (length items) >? numSubtasks)%Z eqn:E.
  - apply Z.gtb_lt in E.
    destruct parsed as [| | | | |props]; try discriminate Hsub.
    eexists. split; [reflexivity|]. split; [|lia].
    intros _. rewrite slice0_firstn by lia. cbn [get_prop]. split.
    + now rewrite assoc_set_same.
    + intros name N. now rewrite assoc_set_other.
  - exists parsed. split; [reflexivity|]. split; [|reflexivity].
    intros L. apply Z.gtb_lt in L. congruence.
Qed.

Lemma groqGenerate_truncates_witness :
  exists out,
    Groq.groqGenerate JsonText.parse (Groq.Completion (Some sample_body)) 2
    = Ok out
    /\ ((2 < Z.of_nat (length sample_items))%Z ->
        get_prop out "subtasks"
        = Ok (Some (JArr (firstn (Z.to_nat 2) sample_items)))
        /\ forall name, name <> "subtasks" ->
                        get_prop out name = get_prop sample_parsed name)
    /\ ((Z.of_nat (length sample_items) <= 2)%Z -> out = sample_parsed).
Proof.
  apply (groqGenerate_truncates_to_requested_count
           JsonText.parse (Some sample_body) 2 sample_parsed sample_items).
  - vm_compute. reflexivity.
  - reflexivity.
  - lia.
Defined.

(** A negative count makes [slice] drop from the end instead. *)
Example groqGenerate_negative_count :
  Groq.groqGenerate JsonText.parse (Groq.Completion (Some sample_body)) (-1)
  = Ok (JObj [("title", JStr "Add login");
              ("subtasks", JArr (firstn 2 sample_items))]).
Proof. vm_compute. reflexivity. Qed.

(** [C6], as the claim states it, fails: a fence without the [json] tag stays
    in the text, and a valid JSON body wrapped in it is rejected. *)
Lemma untagged_fence_is_not_stripped :
  JsonText.parse sample_body = Some sample_parsed
  /\ Groq.groqGenerate JsonText.parse
       (Groq.Completion (Some (fenced EmptyString sample_body))) 5
     = Throw Groq.invalid_json.
Proof. split; vm_compute; reflexivity. Qed.

(** [C6], amended. [groqGenerate] removes an opening fence tagged [json] (in
    any letter case, at the very start of the body) and a closing fence, with
    the white space around them, so that such a body is parsed as its trimmed
    inner text; it fails with the invalid-JSON error exactly when the stripped
    text does not parse; and for a parsed value other than [null] it fails
    with the missing-subtasks error exactly when that value has no subtasks
    array. *)
Theorem groqGenerate_strips_json_fence_and_validates
        (JSON_parse : string -> option json) (numSubtasks : Z) :
  (forall tag body trailing parsed,
      Str.toLowerCase tag = "json" ->
      Str.all_space trailing = true ->
      JSON_parse (Str.trim body) = Some parsed ->
      Groq.strip (fenced tag body ++ trailing)%string = Str.trim body
      /\ Groq.groqGenerate JSON_parse
           (Groq.Completion (Some (fenced tag body ++ trailing)%string))
           numSubtasks
         <> Throw Groq.invalid_json)
  /\ (forall content,
         Groq.groqGenerate JSON_parse (Groq.Completion content) numSubtasks
         = Throw Groq.invalid_json
         <-> JSON_parse (Groq.strip (Groq.raw_content content)) = None)
  /\ (forall content parsed,
         JSON_parse (Groq.strip (Groq.raw_content content)) = Some parsed ->
         parsed <> JNull ->
         (Groq.groqGenerate JSON_parse (Groq.Completion content) numSubtasks
          = Throw Groq.missing_subtasks
          <-> forall items,
               get_prop parsed "subtasks" <> Ok (Some (JArr items)))).
Proof.
  assert (Hinv : forall content,
             Groq.groqGenerate JSON_parse (Groq.Completion content) numSubtasks
             = Throw Groq.invalid_json
             <-> JSON_parse (Groq.strip (Groq.raw_content content)) = None).
  { intros content. unfold Groq.groqGenerate.
    destruct (JSON_parse _) as [parsed|]; [|tauto].
    split; [|discriminate]. intros H. exfalso.
    destruct parsed as [| | | | |props]; cbn [get_prop] in H;
      try discriminate H.
    destruct (assoc "subtasks" props) as [[| | | |l|]|]; try discriminate H.
    destruct (_ >? _)%Z; discriminate H. }
  split; [|split].
  - intros tag body trailing parsed Htag Hws Hparse.
    pose proof (strip_fenced_json tag body trailing Htag Hws) as Hstrip.
    split; [exact Hstrip|].
    intros H. apply Hinv in H.
    rewrite raw_content_fenced, Hstrip in H. congruence.
  - exact Hinv.
  - intros content parsed Hparse Hnull. unfold Groq.groqGenerate.
    rewrite Hparse.
    destruct parsed as [| | | | |props]; cbn [get_prop];
      try contradiction; try (split; [discriminate|reflexivity]).
    destruct (assoc "subtasks" props) as [[| | | |l|]|];
      try (split; [discriminate|reflexivity]).
    split.
    + intros H. destruct (_ >? _)%Z; discriminate H.
    + intros H. exfalso. now apply (H l).
Qed.

Lemma groqGenerate_strips_witness :
  (Groq.strip (fenced "JSON" sample_body ++ nl)%string = Str.trim sample_body
   /\ Groq.groqGenerate JsonText.parse
        (Groq.Completion (Some (fenced "JSON" sample_body ++ nl)%string)) 5
      <> Throw Groq.invalid_json)
  /\ (Groq.groqGenerate JsonText.parse (Groq.Completion (Some "{oops")) 5
      = Throw Groq.invalid_json)
  /\ (Groq.groqGenerate JsonText.parse (Groq.Completion None) 5
      = Throw Groq.missing_subtasks).
Proof.
  destruct (groqGenerate_strips_json_fence_and_validates JsonText.parse 5)
    as (Hfence & Hinvalid & Hmissing).
  split; [|split].
  - apply (Hfence "JSON" sample_body nl sample_parsed);
      vm_compute; reflexivity.
  - apply (Hinvalid (Some "{oops")). vm_compute. reflexivity.
  - apply (Hmissing None (JObj [])).
    + vm_compute. reflexivity.
    + discriminate.
    + intros items. discriminate.
Defined.

(** ** Rich-text documents *)

Lemma walk_node (type : option string) (version level : option Z)
      (text : option string) (children : list Adf.node) :
  Adf.walk (Adf.Node type version level text (Some children))
  = Adf.walk (Adf.Node type version level text None)
    ++ flat_map Adf.walk children.
Proof.
  cbn [Adf.walk]. now rewrite app_nil_r.
Qed.

Lemma walk_text_node (s : string) : Adf.walk (Adf.text_node s) = [s].
Proof. destruct s; reflexivity. Qed.

Lemma walk_paragraph (s : string) : Adf.walk (Adf.paragraph s) = [s].
Proof.
  unfold Adf.paragraph. rewrite walk_node. cbn [flat_map].
  now rewrite walk_text_node.
Qed.

Lemma walk_heading (level : Z) (s : string) :
  Adf.walk (Adf.heading level s) = [s].
Proof.
  unfold Adf.heading. rewrite walk_node. cbn [flat_map].
  now rewrite walk_text_node.
Qed.

Lemma walk_listItem (s : string) : Adf.walk (Adf.listItem s) = [s].
Proof.
  unfold Adf.listItem. rewrite walk_node. cbn [flat_map].
  now rewrite walk_paragraph.
Qed.

Lemma walk_bulletList (items : list string) :
  Adf.walk (Adf.bulletList items) = items.
Proof.
  unfold Adf.bulletList. rewrite walk_node.
  replace (Adf.walk (Adf.Node (Some "bulletList") None None None None))
    with (@nil string) by reflexivity.
  cbn [app]. induction items as [|a r IH]; [reflexivity|].
  cbn [map flat_map]. now rewrite walk_listItem, IH.
Qed.

Lemma walk_buildAdf (description : string) (acs : list string) :
  description <> EmptyString -> acs <> [] ->
  Adf.walk (Adf.buildAdf description acs)
  = description :: "Acceptance Criteria" :: acs.
Proof.
  intros Hd Ha. unfold Adf.buildAdf.
  destruct description as [|c d]; [contradiction|].
  destruct acs as [|a r]; [contradiction|].
  cbn [Str.truthy]. rewrite walk_node.
  replace (Adf.walk (Adf.Node (Some "doc") (Some 1%Z) None None None))
    with (@nil string) by reflexivity.
  cbn [app flat_map].
  now rewrite walk_paragraph, walk_heading, walk_bulletList, app_nil_r.
Qed.

Lemma in_order_join (acs : list string) (pre : string) :
  in_order acs (pre ++ Str.join " " acs).
Proof.
  revert pre. induction acs as [|a r IH]; intros pre; [exact I|].
  cbn [in_order]. destruct r as [|b r].
  - exists pre, EmptyString. split; [|exact I].
    cbn [Str.join]. now rewrite string_app_nil_r.
  - exists pre, (" " ++ Str.join " " (b :: r))%string.
    split; [reflexivity | apply IH].
Qed.

(** [C8], as the claim states it, fails: [trim] removes the white space a
    description starts with, and the text no longer contains it. *)
Lemma trimmed_description_is_not_contained :
  ~ in_order [" a"; "b"] (Adf.extractAdfText (Adf.buildAdf " a" ["b"])).
Proof.
  replace (Adf.extractAdfText (Adf.buildAdf " a" ["b"]))
    with "a Acceptance Criteria b" by reflexivity.
  intros (pre & rest & E & _).
  pose proof (includes_occurs " a" pre rest) as H.
  rewrite <- E in H. vm_compute in H. discriminate H.
Qed.

(** [C8], amended. For a non-empty description and a non-empty list of
    acceptance criteria, the text extracted from the built document is the
    white-space-trimmed form of a string that contains the description and
    every criterion in their order: the description, the heading text and
    the criteria, joined by single spaces. *)
Theorem extractAdfText_buildAdf (description : string) (acs : list string) :
  description <> EmptyString -> acs <> [] ->
  let full :=
    (description ++ " Acceptance Criteria " ++ Str.join " " acs)%string in
  Adf.extractAdfText (Adf.buildAdf description acs) = Str.trim full
  /\ in_order (description :: acs) full.
Proof.
  intros Hd Ha full. split.
  - unfold Adf.extractAdfText.
    replace (Adf.content_of (Adf.buildAdf description acs))
      with (Some (match Adf.content_of (Adf.buildAdf description acs) with
                  | Some l => l | None => [] end)) by reflexivity.
    rewrite walk_buildAdf by assumption. f_equal.
    destruct acs as [|a r]; [contradiction|].
    subst full. reflexivity.
  - exists EmptyString, (" Acceptance Criteria " ++ Str.join " " acs)%string.
    split; [reflexivity | apply in_order_join].
Qed.

Lemma extractAdfText_buildAdf_witness :
  Adf.extractAdfText (Adf.buildAdf "Login page" ["has a form"; "keeps state"])
  = "Login page Acceptance Criteria has a form keeps state"
  /\ in_order ["Login page"; "has a form"; "keeps state"]
              "Login page Acceptance Criteria has a form keeps state".
Proof.
  apply (extractAdfText_buildAdf "Login page" ["has a form"; "keeps state"]);
    discriminate.
Defined.

(** ** Status catalogue *)

Lemma fold_left_concat {A B : Type} (f : A -> B -> A) (ls : list (list B))
      (a : A) :
  fold_left (fun acc l => fold_left f l acc) ls a = fold_left f (concat ls) a.
Proof.
  revert a. induction ls as [|l ls IH]; intros a; [reflexivity|].
  cbn [concat fold_left]. now rewrite fold_left_app, IH.
Qed.

Lemma collect_statuses_fill (data : list issuetype_statuses) :
  collect_statuses data = map snd (fill (all_statuses data)).
Proof.
  unfold collect_statuses, fill, all_statuses. f_equal.
  rewrite <- fold_left_concat.
  generalize (@nil (string * status)).
  induction data as [|d data IH]; intros m; [reflexivity|].
  cbn [map fold_left]. apply IH.
Qed.

Lemma fill_snoc (l : list status) (s : status) :
  fill (l ++ [s]) = assoc_set (st_name s) s (fill l).
Proof. unfold fill. now rewrite fold_left_app. Qed.

Lemma keys_assoc_set_old {V : Type} (k : string) (v : V)
      (m : list (string * V)) :
  In k (map fst m) -> map fst (assoc_set k v m) = map fst m.
Proof.
  induction m as [|[k' v'] m IH]; intros H; [destruct H|].
  cbn [assoc_set]. destruct (String.eqb k k') eqn:E.
  - apply String.eqb_eq in E. now subst.
  - cbn [map fst]. f_equal. apply IH. destruct H as [H|H]; [|exact H].
    cbn [fst] in H. subst. now rewrite String.eqb_refl in E.
Qed.

Lemma keys_assoc_set_new {V : Type} (k : string) (v : V)
      (m : list (string * V)) :
  ~ In k (map fst m) -> map fst (assoc_set k v m) = map fst m ++ [k].
Proof.
  induction m as [|[k' v'] m IH]; intros H; [reflexivity|].
  cbn [assoc_set]. destruct (String.eqb k k') eqn:E.
  - apply String.eqb_eq in E. subst. exfalso. apply H. now left.
  - cbn [map fst app]. f_equal. apply IH. intros N. apply H. now right.
Qed.

Lemma In_assoc_set {V : Type} (k k' : string) (v v' : V)
      (m : list (string * V)) :
  List.NoDup (map fst m) ->
  In (k', v') (assoc_set k v m)
  <-> (k' = k /\ v' = v) \/ (k' <> k /\ In (k', v') m).
Proof.
  induction m as [|[k0 v0] m IH]; intros ND.
  - cbn [assoc_set In]. split.
    + intros [H|[]]. injection H as <- <-. now left.
    + intros [[-> ->]|[_ []]]. now left.
  - cbn [map fst] in ND. apply List.NoDup_cons_iff in ND as [Hk0 ND].
    cbn [assoc_set]. destruct (String.eqb k k0) eqn:E.
    + apply String.eqb_eq in E. subst k0. cbn [In]. split.
      * intros [H|H].
        -- injection H as <- <-. now left.
        -- right. split; [|now right].
           intros ->. apply Hk0. now apply (in_map fst) in H.
      * intros [[-> ->]|[N [H|H]]].
        -- now left.
        -- injection H as -> _. contradiction.
        -- now right.
    + apply String.eqb_neq in E. cbn [In]. rewrite (IH ND). split.
      * intros [H|[H|H]].
        -- injection H as <- <-. right. split; [congruence | now left].
        -- now left.
        -- right. split; [tauto | right; tauto].
      * intros [H|[N [H|H]]].
        -- right. now left.
        -- now left.
        -- right. right. tauto.
Qed.

Lemma first_occurrences_In (x : string) (l : list string) :
  In x (first_occurrences l) <-> In x l.
Proof.
  induction l as [|a l IH]; [reflexivity|].
  cbn [first_occurrences In]. rewrite filter_In, IH. split.
  - intros [H|[H _]]; tauto.
  - intros [H|H]; [now left|].
    destruct (String.eqb x a) eqn:E.
    + apply String.eqb_eq in E. now left.
    + right. now split.
Qed.

Lemma first_occurrences_NoDup (l : list string) :
  List.NoDup (first_occurrences l).
Proof.
  induction l as [|a l IH]; [constructor|].
  cbn [first_occurrences]. constructor.
  - rewrite filter_In. intros [_ H]. now rewrite String.eqb_refl in H.
  - now apply List.NoDup_filter.
Qed.

Lemma first_occurrences_snoc (l : list string) (x : string) :
  first_occurrences (l ++ [x])
  = if in_dec string_dec x l then first_occurrences l
    else first_occurrences l ++ [x].
Proof.
  induction l as [|a l IH].
  - destruct (in_dec string_dec x []) as [[]|_]. reflexivity.
  - cbn [app first_occurrences]. rewrite IH.
    destruct (in_dec string_dec x l) as [Hin|Hout];
      destruct (in_dec string_dec x (a :: l)) as [Hin'|Hout'];
      try reflexivity.
    + exfalso. apply Hout'. now right.
    + destruct Hin' as [->|Hin']; [|contradiction].
      rewrite List.filter_app. cbn [List.filter].
      rewrite String.eqb_refl. cbn [negb]. now rewrite app_nil_r.
    + rewrite List.filter_app. cbn [List.filter].
      destruct (String.eqb x a) eqn:E.
      * apply String.eqb_eq in E. subst. exfalso. apply Hout'. now left.
      * reflexivity.
Qed.

Lemma fill_keys (l : list status) :
  map fst (fill l) = first_occurrences (map st_name l).
Proof.
  induction l as [|s l IH] using rev_ind; [reflexivity|].
  rewrite fill_snoc, map_app. cbn [map].
  rewrite first_occurrences_snoc.
  destruct (in_dec string_dec (st_name s) (map st_name l)) as [Hin|Hout].
  - rewrite keys_assoc_set_old; [exact IH|].
    rewrite IH. now apply first_occurrences_In.
  - rewrite keys_assoc_set_new; [now rewrite IH|].
    rewrite IH. now rewrite first_occurrences_In.
Qed.

Lemma fill_NoDup (l : list status) : List.NoDup (map fst (fill l)).
Proof. rewrite fill_keys. apply first_occurrences_NoDup. Qed.

Lemma last_named_snoc (v s : status) (l : list status) :
  last_named v (l ++ [s])
  <-> v = s \/ (st_name v <> st_name s /\ last_named v l).
Proof.
  split.
  - intros (before & after & E & N).
    destruct after as [|a after] using rev_ind.
    + apply app_inj_tail in E as [_ E]. now left.
    + clear IHafter. right.
      rewrite app_comm_cons, app_assoc in E.
      apply app_inj_tail in E as [E ->].
      rewrite map_app, in_app_iff in N. cbn [map In] in N. split.
      * intros Heq. apply N. right. left. now symmetry.
      * exists before, after. split; [exact E | tauto].
  - intros [->|[Hne (before & after & E & N)]].
    + exists l, []. split; [reflexivity | intros []].
    + exists before, (after ++ [s]). split.
      * rewrite E. now rewrite <- app_assoc.
      * rewrite map_app, in_app_iff. cbn [map In]. intros [H|[H|[]]].
        -- contradiction.
        -- now symmetry in H.
Qed.

Lemma fill_entries (l : list status) (k : string) (v : status) :
  In (k, v) (fill l) <-> k = st_name v /\ last_named v l.
Proof.
  revert k v. induction l as [|s l IH] using rev_ind; intros k v.
  - cbn [fill fold_left In]. split; [intros [] |].
    intros [_ (before & after & E & _)]. now destruct before.
  - rewrite fill_snoc, (In_assoc_set _ _ _ _ _ (fill_NoDup l)).
    rewrite last_named_snoc, IH. split.
    + intros [[-> ->]|[N [-> L]]].
      * split; [reflexivity | now left].
      * split; [reflexivity | right; tauto].
    + intros [-> [->|[N L]]].
      * now left.
      * right. tauto.
Qed.

Lemma fill_names (l : list status) :
  map st_name (map snd (fill l)) = map fst (fill l).
Proof.
  assert (H : forall kv, In kv (fill l) -> st_name (snd kv) = fst kv).
  { intros [k v] Hin. apply fill_entries in Hin as [-> _]. reflexivity. }
  induction (fill l) as [|kv m IH]; [reflexivity|].
  cbn [map]. rewrite H by now left. f_equal. apply IH.
  intros kv' Hin. apply H. now right.
Qed.

(** [C7], as the claim states it, fails: the status set later replaces the
    one set first under the same name. *)
Lemma later_status_replaces_earlier :
  first_named "Done" (all_statuses sample_statuses) = Some done_of_story
  /\ fetchProjectStatuses (Ok sample_statuses)
     = Ok [done_of_bug; open_of_story]
  /\ ~ In done_of_story [done_of_bug; open_of_story].
Proof.
  split; [reflexivity|]. split; [reflexivity|].
  intros [H|[H|[]]]; discriminate H.
Qed.

(** [C7], amended. The statuses operation returns one flat list with one
    entry per status name, in the order in which the names are first met;
    when several status objects share a name, the one kept is the last one
    met, standing at the place of the first. *)
Theorem fetchProjectStatuses_keeps_last (data : list issuetype_statuses) :
  exists statuses,
    fetchProjectStatuses (Ok data) = Ok statuses
    /\ List.NoDup (map st_name statuses)
    /\ map st_name statuses
       = first_occurrences (map st_name (all_statuses data))
    /\ forall s, In s statuses <-> last_named s (all_statuses data).
Proof.
  exists (collect_statuses data). split; [reflexivity|].
  rewrite collect_statuses_fill, fill_names, fill_keys.
  split; [apply first_occurrences_NoDup|]. split; [reflexivity|].
  intros s. rewrite in_map_iff. split.
  - intros ([k v] & <- & Hin). now apply fill_entries in Hin.
  - intros L. exists (st_name s, s). split; [reflexivity|].
    now apply fill_entries.
Qed.

(** ** Status transition *)

Lemma find_first {A : Type} (f : A -> bool) (before after : list A) (x : A) :
  f x = true -> (forall y, In y before -> f y = false) ->
  find f (before ++ x :: after) = Some x.
Proof.
  intros Hx Hb. induction before as [|b before IH]; cbn [app find].
  - now rewrite Hx.
  - rewrite (Hb b) by now left. apply IH. intros y Hy. apply Hb. now right.
Qed.

Lemma same_name_eqb (targetStatus : string) (t : transition) :
  String.eqb (Str.toLowerCase (tr_name t)) (Str.toLowerCase targetStatus) = true
  <-> same_name targetStatus t.
Proof. apply String.eqb_eq. Qed.

(** [C9] [jiraTransition] first fetches the transitions of the issue. If the
    fetch fails, the failure is the result. If no transition has the target
    name up to letter case, no further call is made and the operation
    returns. Otherwise the first such transition is executed by its
    identifier, and the outcome of that call is the result. *)
Theorem jiraTransition_matches_by_name (w : tracker)
        (issueKey targetStatus : string) (s : store) :
  let answer := on_transitions w (trace s) issueKey in
  let s1 := extend s (GetTransitions issueKey answer) in
  (forall e, answer = Throw e ->
             jiraTransition w issueKey targetStatus s = (Throw e, s1))
  /\ (forall data,
         answer = Ok data ->
         (forall t, In t (or_nil (ts_transitions data)) ->
                    ~ same_name targetStatus t) ->
         jiraTransition w issueKey targetStatus s = (Ok tt, s1))
  /\ (forall data before t after,
         answer = Ok data ->
         or_nil (ts_transitions data) = before ++ t :: after ->
         same_name targetStatus t ->
         (forall t', In t' before -> ~ same_name targetStatus t') ->
         let done := on_transition w (trace s1) issueKey (tr_id t) in
         jiraTransition w issueKey targetStatus s
         = (done, extend s1 (DoTransition issueKey (tr_id t) done))).
Proof.
  cbv zeta. unfold jiraTransition, bind, remote.
  destruct (on_transitions w (trace s) issueKey) as [e|data].
  - split; [|split]; [|discriminate|discriminate].
    intros e' E. injection E as <-. reflexivity.
  - split; [|split]; [discriminate| |].
    + intros data' E Hnone. injection E as <-.
      destruct (find _ _) as [t|] eqn:F; [|reflexivity].
      apply find_some in F as [Hin Hm]. apply same_name_eqb in Hm.
      now apply Hnone in Hin.
    + intros data' before t after E Hl Ht Hbefore. injection E as <-.
      rewrite Hl, find_first; [reflexivity | now apply same_name_eqb |].
      intros t' Hin. apply Hbefore in Hin.
      destruct (String.eqb _ _) eqn:E; [|reflexivity].
      now apply same_name_eqb in E.
Qed.

Lemma jiraTransition_witness :
  jiraTransition jira "KAN-11" "Blocked" empty_store
  = (Ok tt,
     extend empty_store
       (GetTransitions "KAN-11" (on_transitions jira [] "KAN-11")))
  /\ jiraTransition jira "KAN-11" "in progress" empty_store
     = (Ok tt,
        extend (extend empty_store
                  (GetTransitions "KAN-11" (on_transitions jira [] "KAN-11")))
               (DoTransition "KAN-11" "21" (Ok tt))).
Proof.
  destruct (jiraTransition_matches_by_name jira "KAN-11" "Blocked" empty_store)
    as (_ & Hnone & _).
  destruct (jiraTransition_matches_by_name jira "KAN-11" "in progress"
                                           empty_store)
    as (_ & _ & Hsome).
  split.
  - apply (Hnone _ eq_refl). intros t [<-|[<-|[<-|[]]]]; discriminate.
  - apply (Hsome _ [ {| tr_id := "11"; tr_name := "To Do" |} ]
                 {| tr_id := "21"; tr_name := "In Progress" |}
                 [ {| tr_id := "31"; tr_name := "IN PROGRESS" |} ] eq_refl).
    + reflexivity.
    + reflexivity.
    + intros t' [<-|[]]. discriminate.
Defined.

(** ** Subtask-type detection *)

Lemma read_cache_hit (projectKey name : string) (s : store) :
  subtaskTypeCache s !! projectKey = Some name -> name <> EmptyString ->
  read_cache projectKey s = (Ok (Some name), s).
Proof.
  intros H N. unfold read_cache. rewrite H.
  destruct name; [contradiction | reflexivity].
Qed.

Lemma read_cache_miss (projectKey : string) (s : store) :
  subtaskTypeCache s !! projectKey = None
  \/ subtaskTypeCache s !! projectKey = Some EmptyString ->
  read_cache projectKey s = (Ok None, s).
Proof. intros [H|H]; unfold read_cache; now rewrite H. Qed.

(** The discovery step: what it returns is [first_subtask_type] of the
    tracker's answer, and a type that is found is cached. *)
Lemma discover_spec (w : tracker) (projectKey : string) (s : store) :
  let answer := on_createmeta w (trace s) projectKey in
  let s1 := extend s (Createmeta projectKey answer) in
  try_catch (discover w projectKey) (fun _ => ret None) s
  = match first_subtask_type projectKey answer with
    | Some t => (Ok (Some (it_name t)), cached s1 projectKey (it_name t))
    | None => (Ok None, s1)
    end.
Proof.
  cbv zeta. unfold try_catch, discover, bind, remote, first_subtask_type.
  destruct (on_createmeta w (trace s) projectKey) as [e|data]; [reflexivity|].
  destruct (find _ (or_nil (cm_projects data))) as [proj|]; [|reflexivity].
  destruct (find it_subtask _) as [t|]; reflexivity.
Qed.

Lemma probe_step (w : tracker) (projectKey name : string)
      (rest : list string) (s : store) :
  let answer := on_probe w (trace s) projectKey name in
  let s1 := extend s (Probe projectKey name answer) in
  probe w projectKey (name :: rest) s
  = if rejected answer then probe w projectKey rest s1
    else (Ok name, cached s1 projectKey name).
Proof.
  cbv zeta. cbn [probe]. unfold bind at 1. unfold try_catch, bind, remote.
  destruct (on_probe w (trace s) projectKey name) as [e|body]; cbn [rejected].
  - reflexivity.
  - unfold mentions_issuetype.
    destruct (Str.includes "issuetype" _); [reflexivity|].
    destruct (Str.includes "issue type" _); reflexivity.
Qed.

Lemma probe_all_rejected (w : tracker) (projectKey : string)
      (names : list string) (s : store) :
  all_rejected w projectKey (trace s) names = true ->
  probe w projectKey names s
  = (Ok "Subtask",
     {| trace := probed w projectKey (trace s) names;
        subtaskTypeCache := <[projectKey := "Subtask"]> (subtaskTypeCache s);
        createdKeys := createdKeys s |}).
Proof.
  revert s. induction names as [|name rest IH]; intros s H.
  - reflexivity.
  - cbn [all_rejected] in H. apply andb_prop in H as [Hr Hrest].
    rewrite probe_step, Hr. now rewrite IH.
Qed.

Lemma probe_first_accepted (w : tracker) (projectKey : string)
      (tried : list string) (name : string) (rest : list string) (s : store) :
  all_rejected w projectKey (trace s) tried = true ->
  let t := probed w projectKey (trace s) tried in
  let answer := on_probe w t projectKey name in
  rejected answer = false ->
  probe w projectKey (tried ++ name :: rest) s
  = (Ok name,
     {| trace := t ++ [Probe projectKey name answer];
        subtaskTypeCache := <[projectKey := name]> (subtaskTypeCache s);
        createdKeys := createdKeys s |}).
Proof.
  cbv zeta. revert s. induction tried as [|c tried IH]; intros s H Hacc.
  - cbn [app probed] in *. rewrite probe_step, Hacc. reflexivity.
  - cbn [all_rejected] in H. apply andb_prop in H as [Hr Hrest].
    cbn [app]. rewrite probe_step, Hr.
    exact (IH (extend s (Probe projectKey c _)) Hrest Hacc).
Qed.

(** [C2] The claim is right and the code misses it by a slip. The cache is
    read by truthiness ([if (_subtaskTypeCache[projectKey])]), so a name
    cached as the empty string is present and yet not returned. For a tracker
    whose first subtask type of the project has the empty name, the first
    call caches and returns that name, and the second call requests the
    creation metadata again instead of returning the cached value: two
    requests for one project, where the comment above the function promises
    one, and where [fetchProjectIssueTypes] guards the same name with
    [|| 'Subtask']. *)
Lemma cached_empty_name_is_not_returned :
  let s1 := snd (detectSubtaskTypeName blank_jira "KAN" empty_store) in
  subtaskTypeCache s1 !! "KAN" = Some EmptyString
  /\ trace s1 = [Createmeta "KAN" (sample_createmeta EmptyString)]
  /\ trace (snd (detectSubtaskTypeName blank_jira "KAN" s1))
     = [Createmeta "KAN" (sample_createmeta EmptyString);
        Createmeta "KAN" (sample_createmeta EmptyString)]
  /\ detectSubtaskTypeName blank_jira "KAN" s1 <> (Ok EmptyString, s1).
Proof.
  cbv zeta. split; [vm_compute; reflexivity|].
  split; [vm_compute; reflexivity|].
  split; [vm_compute; reflexivity|].
  intros H. apply (f_equal (fun p => length (trace (snd p)))) in H.
  vm_compute in H. discriminate H.
Qed.

(** [X26] The cascade of [detectSubtaskTypeName]. A cached name that is not
    empty is returned without any call. With no entry for the project, the
    creation metadata are requested; if they yield an issue type flagged as
    a subtask, the name of the first one is cached and returned and no probe
    is made. Otherwise the candidates are probed in their order, and the
    first one whose probe is not rejected is cached and returned; when every
    candidate is rejected, ["Subtask"] is cached and returned. *)
Theorem detectSubtaskTypeName_cascade (w : tracker) (projectKey : string)
        (s : store) :
  (forall name,
      subtaskTypeCache s !! projectKey = Some name -> name <> EmptyString ->
      detectSubtaskTypeName w projectKey s = (Ok name, s))
  /\ (subtaskTypeCache s !! projectKey = None ->
      let answer := on_createmeta w (trace s) projectKey in
      let s1 := extend s (Createmeta projectKey answer) in
      (forall t,
          first_subtask_type projectKey answer = Some t ->
          detectSubtaskTypeName w projectKey s
          = (Ok (it_name t), cached s1 projectKey (it_name t)))
      /\ (first_subtask_type projectKey answer = None ->
          (forall tried name rest,
              candidates = tried ++ name :: rest ->
              all_rejected w projectKey (trace s1) tried = true ->
              let t := probed w projectKey (trace s1) tried in
              let reply := on_probe w t projectKey name in
              rejected reply = false ->
              detectSubtaskTypeName w projectKey s
              = (Ok name,
                 {| trace := t ++ [Probe projectKey name reply];
                    subtaskTypeCache :=
                      <[projectKey := name]> (subtaskTypeCache s);
                    createdKeys := createdKeys s |}))
          /\ (all_rejected w projectKey (trace s1) candidates = true ->
              detectSubtaskTypeName w projectKey s
              = (Ok "Subtask",
                 {| trace := probed w projectKey (trace s1) candidates;
                    subtaskTypeCache :=
                      <[projectKey := "Subtask"]> (subtaskTypeCache s);
                    createdKeys := createdKeys s |})))).
Proof.
  split.
  - intros name H N. unfold detectSubtaskTypeName, bind.
    now rewrite (read_cache_hit _ _ _ H N).
  - intros Hmiss. cbv zeta.
    assert (E : detectSubtaskTypeName w projectKey s
                = match first_subtask_type projectKey
                          (on_createmeta w (trace s) projectKey) with
                  | Some t =>
                      (Ok (it_name t),
                       cached (extend s (Createmeta projectKey
                                 (on_createmeta w (trace s) projectKey)))
                              projectKey (it_name t))
                  | None =>
                      probe w projectKey candidates
                        (extend s (Createmeta projectKey
                                     (on_createmeta w (trace s) projectKey)))
                  end).
    { unfold detectSubtaskTypeName. unfold bind at 1.
      rewrite (read_cache_miss _ _ (or_introl Hmiss)). unfold bind.
      rewrite discover_spec.
      destruct (first_subtask_type _ _); reflexivity. }
    split.
    + intros t Ht. now rewrite E, Ht.
    + intros Hnone. rewrite E, Hnone. split.
      * intros tried name rest -> Hrej Hacc.
        now rewrite (probe_first_accepted _ _ _ _ _ _ Hrej Hacc).
      * intros Hrej. now rewrite (probe_all_rejected _ _ _ _ Hrej).
Qed.

Lemma detectSubtaskTypeName_witness :
  detectSubtaskTypeName jira "KAN"
    (cached empty_store "KAN" "Sub-task")
  = (Ok "Sub-task", cached empty_store "KAN" "Sub-task")
  /\ detectSubtaskTypeName jira "KAN" empty_store
     = (Ok "Sub-task",
        cached (extend empty_store
                  (Createmeta "KAN" (sample_createmeta "Sub-task")))
               "KAN" "Sub-task")
  /\ (exists s', detectSubtaskTypeName restricted_jira "KAN" empty_store
                 = (Ok "Sub-task", s')
                 /\ trace s'
                    = [Createmeta "KAN" forbidden;
                       Probe "KAN" "Subtask" (picky_probe "Subtask");
                       Probe "KAN" "Sub-task" (picky_probe "Sub-task")])
  /\ (exists s', detectSubtaskTypeName offline_jira "KAN" empty_store
                 = (Ok "Subtask", s')
                 /\ subtaskTypeCache s' !! "KAN" = Some "Subtask").
Proof.
  assert (Hmiss : forall w : tracker,
             subtaskTypeCache empty_store !! "KAN" = None)
    by (intros _; vm_compute; reflexivity).
  split; [|split; [|split]].
  - destruct (detectSubtaskTypeName_cascade jira "KAN"
                (cached empty_store "KAN" "Sub-task")) as [Hhit _].
    apply Hhit; [vm_compute; reflexivity | discriminate].
  - destruct (detectSubtaskTypeName_cascade jira "KAN" empty_store)
      as [_ Hcascade].
    destruct (Hcascade (Hmiss jira)) as [Hfound _].
    apply (Hfound {| it_name := "Sub-task"; it_subtask := true |}).
    reflexivity.
  - destruct (detectSubtaskTypeName_cascade restricted_jira "KAN" empty_store)
      as [_ Hcascade].
    destruct (Hcascade (Hmiss restricted_jira)) as [_ Hprobe].
    destruct (Hprobe eq_refl) as [Hfirst _].
    eexists. split.
    + apply (Hfirst ["Subtask"] "Sub-task" ["subtask"; "sub-task"]).
      * reflexivity.
      * vm_compute. reflexivity.
      * vm_compute. reflexivity.
    + reflexivity.
  - destruct (detectSubtaskTypeName_cascade offline_jira "KAN" empty_store)
      as [_ Hcascade].
    destruct (Hcascade (Hmiss offline_jira)) as [_ Hprobe].
    destruct (Hprobe eq_refl) as [_ Hnone].
    eexists. split.
    + apply Hnone. vm_compute. reflexivity.
    + vm_compute. reflexivity.
Defined.

(** ** The confirmation run *)

(** *** Computations that stay quiet *)

Lemma appends_ret {A : Type} (P : event -> Prop) (a : A) : appends P (ret a).
Proof.
  intros s. exists []. cbn. now rewrite app_nil_r.
Qed.

Lemma appends_bind {A B : Type} (P : event -> Prop) (c : M A)
      (k : A -> M B) :
  appends P c -> (forall a, appends P (k a)) -> appends P (bind c k).
Proof.
  intros Hc Hk s. unfold bind.
  destruct (Hc s) as (evs & Ht & Hk1 & HP).
  destruct (c s) as [[e|a] s1]; cbn [snd] in *.
  - exists evs. auto.
  - destruct (Hk a s1) as (evs' & Ht' & Hk' & HP').
    exists (evs ++ evs').
    rewrite Ht', Ht, Hk', Hk1, app_assoc.
    repeat split; auto. now apply Forall_app.
Qed.

Lemma appends_try_catch {A : Type} (P : event -> Prop) (c : M A)
      (h : exn -> M A) :
  appends P c -> (forall e, appends P (h e)) -> appends P (try_catch c h).
Proof.
  intros Hc Hh s. unfold try_catch.
  destruct (Hc s) as (evs & Ht & Hk1 & HP).
  destruct (c s) as [[e|a] s1]; cbn [snd] in *.
  - destruct (Hh e s1) as (evs' & Ht' & Hk' & HP').
    exists (evs ++ evs').
    rewrite Ht', Ht, Hk', Hk1, app_assoc.
    repeat split; auto. now apply Forall_app.
  - exists evs. auto.
Qed.

Lemma appends_remote {A : Type} (P : event -> Prop)
      (answer : list event -> result A) (record : result A -> event) :
  (forall r, P (record r)) -> appends P (remote answer record).
Proof.
  intros H s. exists [record (answer (trace s))]. cbn.
  repeat split; auto.
Qed.

Lemma appends_read_cache (P : event -> Prop) (projectKey : string) :
  appends P (read_cache projectKey).
Proof. intros s. exists []. cbn. now rewrite app_nil_r. Qed.

Lemma appends_write_cache (P : event -> Prop) (projectKey name : string) :
  appends P (write_cache projectKey name).
Proof. intros s. exists []. cbn. now rewrite app_nil_r. Qed.

Lemma appends_swallow (P : event -> Prop) (c : M unit) :
  appends P c -> appends P (swallow c).
Proof.
  intros H. apply appends_try_catch; [exact H|]. intros _. apply appends_ret.
Qed.

Ltac quiet_step :=
  first
    [ apply appends_ret
    | apply appends_read_cache
    | apply appends_write_cache
    | apply appends_remote; intros; exact I
    | apply appends_swallow
    | apply appends_try_catch; [|intros]
    | apply appends_bind; [|intros] ].

Lemma discover_quiet (w : tracker) (projectKey : string) :
  appends quiet (discover w projectKey).
Proof.
  unfold discover. quiet_step; [quiet_step|].
  destruct (find _ _) as [proj|]; [|quiet_step].
  destruct (find _ _) as [t|]; repeat quiet_step.
Qed.

Lemma probe_quiet (w : tracker) (projectKey : string) (names : list string) :
  appends quiet (probe w projectKey names).
Proof.
  induction names as [|name rest IH]; cbn [probe].
  - repeat quiet_step.
  - quiet_step.
    + quiet_step; [|quiet_step].
      quiet_step; [quiet_step|].
      destruct (_ && _); repeat quiet_step.
    + destruct a; [quiet_step | exact IH].
Qed.

Lemma detectSubtaskTypeName_quiet (w : tracker) (projectKey : string) :
  appends quiet (detectSubtaskTypeName w projectKey).
Proof.
  unfold detectSubtaskTypeName. quiet_step; [quiet_step|].
  destruct a as [name|]; [quiet_step|].
  quiet_step.
  - quiet_step; [apply discover_quiet | quiet_step].
  - destruct a as [name|]; [quiet_step | apply probe_quiet].
Qed.

Lemma jiraTransition_quiet (w : tracker) (issueKey targetStatus : string) :
  appends quiet (jiraTransition w issueKey targetStatus).
Proof.
  unfold jiraTransition. quiet_step; [quiet_step|].
  destruct (find _ _); quiet_step.
Qed.

Lemma jiraAddWatcher_quiet (w : tracker) (issueKey userQuery : string) :
  appends quiet (jiraAddWatcher w issueKey userQuery).
Proof.
  unfold jiraAddWatcher. quiet_step; [|quiet_step].
  destruct (Str.includes _ _); [|quiet_step].
  quiet_step; [|quiet_step].
  quiet_step; [quiet_step|]. destruct a; quiet_step.
Qed.

Lemma transition_if_set_quiet (w : tracker) (issueKey jiraStatus : string) :
  appends quiet (transition_if_set w issueKey jiraStatus).
Proof.
  unfold transition_if_set. destruct (_ && _); [|quiet_step].
  quiet_step. apply jiraTransition_quiet.
Qed.

Lemma add_watchers_quiet (w : tracker) (stKey : string)
      (watchers : list string) :
  appends quiet (add_watchers w stKey watchers).
Proof.
  induction watchers as [|x rest IH]; cbn [add_watchers]; [quiet_step|].
  quiet_step; [|exact IH]. quiet_step. apply jiraAddWatcher_quiet.
Qed.

(** *** Computations that never throw *)

Lemma returns_ret {A : Type} (a : A) : returns (ret a).
Proof. intros s. now exists a. Qed.

Lemma returns_bind {A B : Type} (c : M A) (k : A -> M B) :
  returns c -> (forall a, returns (k a)) -> returns (bind c k).
Proof.
  intros Hc Hk s. unfold bind. destruct (Hc s) as (a & Ha).
  destruct (c s) as [[e|a'] s1]; cbn [fst] in Ha; [discriminate|].
  apply Hk.
Qed.

Lemma returns_try_catch {A : Type} (c : M A) (h : exn -> M A) :
  (forall e, returns (h e)) -> returns (try_catch c h).
Proof.
  intros Hh s. unfold try_catch.
  destruct (c s) as [[e|a] s1]; [apply Hh | now exists a].
Qed.

Lemma returns_swallow (c : M unit) : returns (swallow c).
Proof. apply returns_try_catch. intros _. apply returns_ret. Qed.

Lemma returns_read_cache (projectKey : string) :
  returns (read_cache projectKey).
Proof. intros s. eexists. reflexivity. Qed.

Lemma returns_write_cache (projectKey name : string) :
  returns (write_cache projectKey name).
Proof. intros s. now exists tt. Qed.

Ltac returns_step :=
  first
    [ apply returns_ret
    | apply returns_read_cache
    | apply returns_write_cache
    | apply returns_swallow
    | apply returns_try_catch; intros
    | apply returns_bind; [|intros] ].

Lemma probe_returns (w : tracker) (projectKey : string) (names : list string) :
  returns (probe w projectKey names).
Proof.
  induction names as [|name rest IH]; cbn [probe].
  - repeat returns_step.
  - returns_step; [repeat returns_step|].
    destruct a; [returns_step | exact IH].
Qed.

(** The detection cascade always ends with a name. *)
Lemma detectSubtaskTypeName_returns (w : tracker) (projectKey : string) :
  returns (detectSubtaskTypeName w projectKey).
Proof.
  unfold detectSubtaskTypeName. returns_step; [returns_step|].
  destruct a as [name|]; [returns_step|].
  returns_step; [repeat returns_step|].
  destruct a as [name|]; [returns_step | apply probe_returns].
Qed.

Lemma transition_if_set_returns (w : tracker) (issueKey jiraStatus : string) :
  returns (transition_if_set w issueKey jiraStatus).
Proof. unfold transition_if_set. destruct (_ && _); returns_step. Qed.

Lemma add_watchers_returns (w : tracker) (stKey : string)
      (watchers : list string) :
  returns (add_watchers w stKey watchers).
Proof.
  induction watchers as [|x rest IH]; cbn [add_watchers]; [returns_step|].
  returns_step; [returns_step | exact IH].
Qed.

(** *** The shape of the loop *)

(** A quiet computation that returns, run from [s]. *)
Lemma run_quiet {A : Type} (c : M A) (s : store) :
  appends quiet c -> returns c ->
  exists a s1 evs,
    c s = (Ok a, s1)
    /\ trace s1 = trace s ++ evs
    /\ createdKeys s1 = createdKeys s
    /\ Forall quiet evs.
Proof.
  intros Hq Hr. destruct (Hq s) as (evs & Ht & Hk & HP).
  destruct (Hr s) as (a & Ha).
  destruct (c s) as [r s1]. cbn [fst snd] in *. subst r.
  now exists a, s1, evs.
Qed.

(** One call of [jiraCreateSubtask], once the type name is known. *)
Lemma jiraCreateSubtask_eval (w : tracker)
      (parentKey projectKey title description : string)
      (acs : list string) (breakType : option string)
      (extraFields : extra_fields) (s s1 : store) (typeName : string) :
  (match or_null breakType with
   | Some t => ret t
   | None => detectSubtaskTypeName w projectKey
   end) s = (Ok typeName, s1) ->
  let f := {| bf_project := projectKey;
              bf_parent := Some parentKey;
              bf_summary := Some title;
              bf_description := Adf.buildAdf description acs;
              bf_issuetype := typeName |} in
  jiraCreateSubtask w parentKey projectKey title description acs breakType
                    extraFields s
  = match on_create w (trace s1) f with
    | Throw e => (Throw e, extend s1 (CreateIssue f (Throw e)))
    | Ok k =>
        let s2 := extend s1 (CreateIssue f (Ok k)) in
        (Ok k,
         if extra_nonempty extraFields
         then extend s2 (UpdateIssue (key k) extraFields
                           (on_update w (trace s2) (key k) extraFields))
         else s2)
    end.
Proof.
  intros E f. unfold jiraCreateSubtask. unfold bind at 1. rewrite E.
  unfold bind at 1. unfold remote at 1. fold f.
  destruct (on_create w (trace s1) f) as [e|k]; [reflexivity|].
  cbv zeta. destruct (extra_nonempty extraFields); [|reflexivity].
  unfold bind, try_catch, remote, ret.
  destruct (on_update w _ (key k) extraFields); reflexivity.
Qed.

Lemma jiraCreateSubtask_shape (w : tracker) (m : meta) (parentKey : string)
      (st : subtask) (s : store) :
  exists pre f,
    Forall quiet pre
    /\ request_for m parentKey st f
    /\ ((exists e s1,
            jiraCreateSubtask w parentKey (or_empty (m_projectKey m))
              (sub_title st) (or_empty (sub_description st))
              (or_nil (sub_acceptance_criteria st))
              (or_null (m_breakType m)) (extraFields_of m) s
            = (Throw e, s1)
            /\ trace s1 = trace s ++ pre ++ [CreateIssue f (Throw e)]
            /\ createdKeys s1 = createdKeys s)
        \/ (exists k s1 upd,
               jiraCreateSubtask w parentKey (or_empty (m_projectKey m))
                 (sub_title st) (or_empty (sub_description st))
                 (or_nil (sub_acceptance_criteria st))
                 (or_null (m_breakType m)) (extraFields_of m) s
               = (Ok k, s1)
               /\ trace s1 = trace s ++ pre ++ CreateIssue f (Ok k) :: upd
               /\ createdKeys s1 = createdKeys s
               /\ (upd = []
                   \/ exists r,
                        upd = [UpdateIssue (key k) (extraFields_of m) r]))).
Proof.
  set (typeName := match or_null (or_null (m_breakType m)) with
                   | Some t => ret t
                   | None => detectSubtaskTypeName w (or_empty (m_projectKey m))
                   end).
  assert (Hq : appends quiet typeName).
  { subst typeName. destruct (or_null _);
      [apply appends_ret | apply detectSubtaskTypeName_quiet]. }
  assert (Hr : returns typeName).
  { subst typeName. destruct (or_null _);
      [apply returns_ret | apply detectSubtaskTypeName_returns]. }
  destruct (run_quiet typeName s Hq Hr) as (tn & s1 & pre & E & Ht & Hk & HP).
  exists pre, (subtask_fields m parentKey st tn).
  split; [exact HP|]. split; [now exists tn|].
  rewrite (jiraCreateSubtask_eval _ _ _ _ _ _ _ _ _ _ _ E).
  fold (subtask_fields m parentKey st tn).
  destruct (on_create w (trace s1) (subtask_fields m parentKey st tn))
    as [e|k].
  - left. eexists _, _. split; [reflexivity|].
    cbn [extend trace createdKeys]. rewrite Ht, <- app_assoc. auto.
  - right. cbv zeta. destruct (extra_nonempty (extraFields_of m)).
    + eexists _, _, _. split; [reflexivity|].
      cbn [extend trace createdKeys]. rewrite Ht, <- !app_assoc.
      repeat split; eauto.
    + eexists _, _, []. split; [reflexivity|].
      cbn [extend trace createdKeys]. rewrite Ht, <- !app_assoc. auto.
Qed.

Lemma push_key_eval (k : string) (s : store) :
  push_key k s
  = (Ok tt, {| trace := trace s;
               subtaskTypeCache := subtaskTypeCache s;
               createdKeys := createdKeys s ++ [k] |}).
Proof. reflexivity. Qed.

Lemma create_subtasks_shape (w : tracker) (m : meta) (parentKey : string)
      (sts : list subtask) (s s' : store) (r : result unit) :
  create_subtasks w m parentKey sts s = (r, s') ->
  exists evs ks,
    trace s' = trace s ++ evs
    /\ createdKeys s' = createdKeys s ++ ks
    /\ loop_shape m parentKey sts evs ks r.
Proof.
  revert s. induction sts as [|st rest IH]; intros s Run.
  - injection Run as <- <-. exists [], []. rewrite !app_nil_r.
    repeat split. constructor.
  - cbn [create_subtasks] in Run. unfold bind at 1 in Run.
    destruct (jiraCreateSubtask_shape w m parentKey st s)
      as (pre & f & Hpre & Hf & [(e & s1 & E & Ht & Hk)
                                | (k & s1 & upd & E & Ht & Hk & Hupd)]);
      rewrite E in Run.
    + injection Run as <- <-.
      exists (pre ++ [CreateIssue f (Throw e)]), [].
      rewrite Ht, Hk, app_nil_r. repeat split. now constructor.
    + unfold bind at 1 in Run. rewrite push_key_eval in Run.
      set (s2 := {| trace := trace s1;
                    subtaskTypeCache := subtaskTypeCache s1;
                    createdKeys := createdKeys s1 ++ [key k] |}) in Run.
      unfold bind at 1 in Run.
      destruct (run_quiet _ s2
                  (transition_if_set_quiet w (key k)
                                           (or_empty (m_jiraStatus m)))
                  (transition_if_set_returns w (key k)
                                             (or_empty (m_jiraStatus m))))
        as ([] & s3 & evs3 & E3 & Ht3 & Hk3 & HP3).
      rewrite E3 in Run. unfold bind at 1 in Run.
      destruct (run_quiet _ s3
                  (add_watchers_quiet w (key k) (or_nil (m_watchers m)))
                  (add_watchers_returns w (key k) (or_nil (m_watchers m))))
        as ([] & s4 & evs4 & E4 & Ht4 & Hk4 & HP4).
      rewrite E4 in Run.
      destruct (IH s4 Run) as (evs & ks & Ht5 & Hk5 & Hshape).
      exists (pre ++ CreateIssue f (Ok k) :: (upd ++ evs3 ++ evs4) ++ evs),
             (key k :: ks).
      split; [|split].
      * rewrite Ht5, Ht4, Ht3. subst s2. cbn [trace]. rewrite Ht.
        rewrite <- ?app_assoc. cbn [app]. now rewrite <- ?app_assoc.
      * rewrite Hk5, Hk4, Hk3. subst s2. cbn [createdKeys]. rewrite Hk.
        now rewrite <- app_assoc.
      * constructor; auto.
        exists upd, (evs3 ++ evs4). split; [reflexivity|].
        split; [exact Hupd | now apply Forall_app].
Qed.

Lemma confirm_body_shape (w : tracker) (out : ai_output) (m : meta)
      (s s' : store) (r : result string) :
  confirm_body w out m s = (r, s') ->
  exists evs ks,
    trace s' = trace s ++ evs
    /\ createdKeys s' = createdKeys s ++ ks
    /\ body_shape out m evs ks r.
Proof.
  intros Run. unfold confirm_body in Run. unfold bind at 1 in Run.
  destruct (mode_is_create m) eqn:Hmode.
  - assert (Hm : m_mode m = Some create).
    { unfold mode_is_create in Hmode.
      destruct (m_mode m) as [[|]|]; congruence. }
    rewrite Hm in Run.
    unfold bind at 1 in Run. unfold jiraCreateIssue, remote in Run.
    fold (parent_fields out m) in Run.
    destruct (on_create w (trace s) (parent_fields out m)) as [e|k].
    + injection Run as <- <-.
      exists [CreateIssue (parent_fields out m) (Throw e)], [].
      cbn. rewrite app_nil_r. repeat split. now constructor.
    + unfold bind at 1 in Run. rewrite push_key_eval in Run.
      set (s2 := {| trace := _; subtaskTypeCache := _; createdKeys := _ |})
        in Run.
      unfold bind at 1 in Run.
      destruct (run_quiet _ s2
                  (transition_if_set_quiet w (key k)
                                           (or_empty (m_jiraStatus m)))
                  (transition_if_set_returns w (key k)
                                             (or_empty (m_jiraStatus m))))
        as ([] & s3 & evs3 & E3 & Ht3 & Hk3 & HP3).
      rewrite E3 in Run. unfold ret at 1 in Run. unfold bind at 1 in Run.
      destruct (create_subtasks w m (key k) (or_nil (subtasks out)) s3)
        as [r4 s4] eqn:Loop.
      destruct (create_subtasks_shape _ _ _ _ _ _ _ Loop)
        as (evs & ks & Ht & Hk & Hshape).
      exists (CreateIssue (parent_fields out m) (Ok k) :: evs3 ++ evs),
             (key k :: ks).
      assert (r = returning r4 (key k) /\ s' = s4) as [-> ->].
      { destruct r4 as [e|[]]; injection Run as <- <-; now split. }
      rewrite Ht, Hk, Ht3, Hk3. subst s2. cbn.
      rewrite <- !app_assoc. repeat split.
      now apply parent_created.
  - assert (Hm : m_mode m <> Some create).
    { unfold mode_is_create in Hmode.
      destruct (m_mode m) as [[|]|]; congruence. }
    assert (Run' :
              bind (bind (transition_if_set w (or_empty (m_parentKey m))
                                            (or_empty (m_jiraStatus m)))
                         (fun _ => ret (or_empty (m_parentKey m))))
                   (fun parentKey =>
                      bind (create_subtasks w m parentKey
                                            (or_nil (subtasks out)))
                           (fun _ => ret parentKey)) s = (r, s')).
    { unfold bind at 1. destruct (m_mode m) as [[|]|]; try exact Run.
      congruence. }
    clear Run. unfold bind at 1 in Run'. unfold bind at 1 in Run'.
    destruct (run_quiet _ s
                (transition_if_set_quiet w (or_empty (m_parentKey m))
                                         (or_empty (m_jiraStatus m)))
                (transition_if_set_returns w (or_empty (m_parentKey m))
                                           (or_empty (m_jiraStatus m))))
      as ([] & s3 & evs3 & E3 & Ht3 & Hk3 & HP3).
    rewrite E3 in Run'. unfold ret at 1 in Run'. unfold bind at 1 in Run'.
    destruct (create_subtasks w m (or_empty (m_parentKey m))
                              (or_nil (subtasks out)) s3)
      as [r4 s4] eqn:Loop.
    destruct (create_subtasks_shape _ _ _ _ _ _ _ Loop)
      as (evs & ks & Ht & Hk & Hshape).
    exists (evs3 ++ evs), ks.
    assert (r = returning r4 (or_empty (m_parentKey m)) /\ s' = s4)
      as [-> ->].
    { destruct r4 as [e|[]]; injection Run' as <- <-; now split. }
    rewrite Ht, Hk, Ht3, Hk3, <- !app_assoc. repeat split.
    now apply parent_given.
Qed.

(** *** Reading a trace *)

Lemma creations_app (a b : list event) :
  creations (a ++ b) = creations a ++ creations b.
Proof.
  induction a as [|e a IH]; [reflexivity|].
  destruct e; cbn [app creations]; rewrite IH; reflexivity.
Qed.

Lemma creations_quiet (evs : list event) :
  Forall quiet evs -> creations evs = [].
Proof.
  induction 1 as [|e evs He _ IH]; [reflexivity|].
  destruct e; cbn [creations]; auto; destruct He.
Qed.

Lemma creations_enrichment (m : meta) (k : string) (evs : list event) :
  enrichment m k evs -> creations evs = [].
Proof.
  intros (upd & others & -> & [->|(r & ->)] & Hq);
    rewrite creations_app, (creations_quiet _ Hq); reflexivity.
Qed.

Lemma succeeded_key (k : created) : Ok k = succeeded (key k).
Proof. destruct k. reflexivity. Qed.

Lemma In_quiet_update (evs : list event) (k : string) (x : extra_fields)
      (r : result unit) :
  Forall quiet evs -> ~ In (UpdateIssue k x r) evs.
Proof.
  intros Hq Hin. rewrite List.Forall_forall in Hq. exact (Hq _ Hin).
Qed.

Lemma In_quiet_creation (evs : list event) (f : base_fields)
      (r : result created) :
  Forall quiet evs -> ~ In (CreateIssue f r) evs.
Proof.
  intros Hq Hin. rewrite List.Forall_forall in Hq. exact (Hq _ Hin).
Qed.

(** The creations of the loop: one request per subtask, in the order of the
    subtasks, each one under the parent; all of them succeed except, when the
    loop throws, the last one, which is also the last call of the loop. *)
Lemma loop_shape_creations (m : meta) (parentKey : string)
      (sts : list subtask) (evs : list event) (ks : list string)
      (r : result unit) :
  loop_shape m parentKey sts evs ks r ->
  Forall (fun c => is_subtask_creation c = true) (creations evs)
  /\ length (creations evs) <= length sts
  /\ Forall2 (request_for m parentKey)
             (firstn (length (creations evs)) sts)
             (map fst (creations evs))
  /\ match r with
     | Ok _ =>
         length (creations evs) = length sts
         /\ map snd (creations evs) = map succeeded ks
     | Throw e =>
         map snd (creations evs) = map succeeded ks ++ [Throw e]
         /\ exists f before, evs = before ++ [CreateIssue f (Throw e)]
     end.
Proof.
  induction 1 as [ | st rest pre f e Hpre Hf
                   | st rest pre f k post evs ks r Hpre Hf Hpost Hloop IH ].
  - cbn. repeat split; constructor.
  - rewrite creations_app, (creations_quiet _ Hpre). cbn.
    repeat split.
    + constructor; [|constructor]. destruct Hf as (tn & ->). reflexivity.
    + lia.
    + constructor; [exact Hf | constructor].
    + now exists f, pre.
  - destruct IH as (Hsub & Hlen & Hreq & Hres).
    assert (E : creations (pre ++ CreateIssue f (Ok k) :: post ++ evs)
                = (f, Ok k) :: creations evs).
    { rewrite creations_app, (creations_quiet _ Hpre). cbn [app creations].
      now rewrite creations_app, (creations_enrichment _ _ _ Hpost). }
    rewrite E. cbn [length map fst snd firstn]. repeat split.
    + constructor; [|exact Hsub]. destruct Hf as (tn & ->). reflexivity.
    + lia.
    + constructor; assumption.
    + destruct r as [e|u].
      * destruct Hres as (Hres & f' & before & ->). split.
        -- cbn [map app]. now rewrite Hres, succeeded_key.
        -- exists f', (pre ++ CreateIssue f (Ok k) :: post ++ before).
           rewrite <- !app_assoc. cbn [app]. now rewrite <- !app_assoc.
      * destruct Hres as (Hn & Hres). split; [lia|].
        cbn [map]. now rewrite Hres, succeeded_key.
Qed.

(** Every update of the loop follows the creation of the issue it updates,
    carries the extra fields of the run, and the key of that issue is among
    the keys pushed. *)
Lemma loop_shape_updates (m : meta) (parentKey : string)
      (sts : list subtask) (evs : list event) (ks : list string)
      (r : result unit) (k : string) (x : extra_fields) (r0 : result unit) :
  loop_shape m parentKey sts evs ks r ->
  In (UpdateIssue k x r0) evs ->
  x = extraFields_of m
  /\ In k ks
  /\ exists f c before after,
       evs = before ++ CreateIssue f (Ok c) :: UpdateIssue k x r0 :: after
       /\ key c = k /\ bf_parent f = Some parentKey.
Proof.
  induction 1 as [ | st rest pre f e Hpre Hf
                   | st rest pre f c post evs ks r Hpre Hf Hpost Hloop IH ];
    intros Hin.
  - destruct Hin.
  - apply in_app_iff in Hin as [Hin|[Hin|[]]]; [|discriminate Hin].
    now apply In_quiet_update in Hin.
  - apply in_app_iff in Hin as [Hin|[Hin|Hin]].
    + now apply In_quiet_update in Hin.
    + discriminate Hin.
    + apply in_app_iff in Hin as [Hin|Hin].
      * destruct Hpost as (upd & others & -> & Hupd & Hq).
        apply in_app_iff in Hin as [Hin|Hin];
          [|now apply In_quiet_update in Hin].
        destruct Hupd as [->|(r1 & ->)]; [destruct Hin|].
        destruct Hin as [Hin|[]]. injection Hin as <- <- <-.
        split; [reflexivity|]. split; [now left|].
        exists f, c, pre, (others ++ evs). repeat split.
        destruct Hf as (tn & ->). reflexivity.
      * destruct (IH Hin)
          as (Hx & Hk & f' & c' & before & after & -> & Hc & Hp).
        split; [exact Hx|]. split; [now right|].
        exists f', c', (pre ++ CreateIssue f (Ok c) :: post ++ before), after.
        split; [|now split].
        rewrite <- !app_assoc. cbn [app]. now rewrite <- !app_assoc.
Qed.

(** The loop throws only when a creation is refused. *)
Lemma loop_shape_completes (m : meta) (parentKey : string)
      (sts : list subtask) (evs : list event) (ks : list string)
      (r : result unit) :
  loop_shape m parentKey sts evs ks r ->
  (forall f e, ~ In (CreateIssue f (Throw e)) evs) ->
  r = Ok tt.
Proof.
  induction 1 as [ | st rest pre f e Hpre Hf
                   | st rest pre f c post evs ks r Hpre Hf Hpost Hloop IH ];
    intros Hnone.
  - reflexivity.
  - exfalso. apply (Hnone f e). apply in_app_iff. right. now left.
  - apply IH. intros f' e' Hin. apply (Hnone f' e').
    apply in_app_iff. right. right. apply in_app_iff. now right.
Qed.

Lemma loop_shape_abort (m : meta) (parentKey : string)
      (sts : list subtask) (evs : list event) (ks : list string)
      (r : result unit) (i : nat) (f : base_fields) (e : exn) :
  loop_shape m parentKey sts evs ks r ->
  nth_error (creations evs) i = Some (f, Throw e) ->
  r = Throw e
  /\ (exists before, evs = before ++ [CreateIssue f (Throw e)])
  /\ length (creations evs) = S i
  /\ map snd (firstn i (creations evs)) = map succeeded ks.
Proof.
  intros Hloop. revert i.
  induction Hloop as [ | st rest pre f0 e0 Hpre Hf
                       | st rest pre f0 c post evs ks r Hpre Hf Hpost _ IH ];
    intros i Hnth.
  - destruct i; discriminate Hnth.
  - rewrite creations_app, (creations_quiet _ Hpre) in *. cbn in *.
    destruct i as [|i]; [|destruct i; discriminate Hnth].
    injection Hnth as <- <-. repeat split. now exists pre.
  - assert (E : creations (pre ++ CreateIssue f0 (Ok c) :: post ++ evs)
                = (f0, Ok c) :: creations evs).
    { rewrite creations_app, (creations_quiet _ Hpre). cbn [app creations].
      now rewrite creations_app, (creations_enrichment _ _ _ Hpost). }
    rewrite E in *. destruct i as [|i]; [discriminate Hnth|].
    cbn [nth_error] in Hnth.
    destruct (IH i Hnth) as (-> & (before & ->) & Hlen & Hres).
    split; [reflexivity|]. split; [|split].
    + exists (pre ++ CreateIssue f0 (Ok c) :: post ++ before).
      rewrite <- !app_assoc. cbn [app]. now rewrite <- !app_assoc.
    + cbn [length]. now rewrite Hlen.
    + cbn [firstn map snd]. now rewrite Hres, succeeded_key.
Qed.

Lemma filter_all {A : Type} (p : A -> bool) (l : list A) :
  Forall (fun a => p a = true) l ->
  List.filter p l = l /\ List.filter (fun a => negb (p a)) l = [].
Proof.
  induction 1 as [|a l Ha _ [IH1 IH2]]; [now split|].
  cbn [List.filter]. rewrite Ha, IH1, IH2. now split.
Qed.

Lemma loop_shape_subtasks_only (m : meta) (parentKey : string)
      (sts : list subtask) (evs : list event) (ks : list string)
      (r : result unit) :
  loop_shape m parentKey sts evs ks r ->
  subtask_creations evs = creations evs /\ parent_creations evs = [].
Proof.
  intros H. apply loop_shape_creations in H as [H _].
  unfold subtask_creations, parent_creations. now apply filter_all.
Qed.

Lemma quiet_then_loop (m : meta) (parentKey : string)
      (sts : list subtask) (pre evs : list event) (ks : list string)
      (r : result unit) :
  Forall quiet pre ->
  loop_shape m parentKey sts evs ks r ->
  subtask_creations (pre ++ evs) = creations evs
  /\ parent_creations (pre ++ evs) = [].
Proof.
  intros Hpre Hloop. unfold subtask_creations, parent_creations.
  rewrite creations_app, (creations_quiet _ Hpre). cbn [app].
  now apply loop_shape_subtasks_only in Hloop.
Qed.

Lemma onConfirm_shape (w : tracker) (out : ai_output) (cfg : settings)
      (s : store) :
  validateSettings cfg = true ->
  exists evs ks r s',
    onConfirm w (Some out) cfg s = (reported (meta_of out) r ks, s')
    /\ trace s' = trace s ++ evs
    /\ createdKeys s' = ks
    /\ body_shape out (meta_of out) evs ks r.
Proof.
  intros Hcfg. unfold onConfirm. rewrite Hcfg. cbn [negb].
  fold (meta_of out). unfold bind, reset_keys.
  destruct (confirm_body w out (meta_of out) _) as [r s'] eqn:Run.
  destruct (confirm_body_shape _ _ _ _ _ _ Run) as (evs & ks & Ht & Hk & Hb).
  cbn [trace createdKeys app] in Ht, Hk.
  exists evs, ks, r, s'. repeat split; auto.
  rewrite Hk. now destruct r.
Qed.

(** *** The run *)

(** [C3] In create mode, when the call that creates the parent is refused,
    the run fails with that error, the created keys are empty and the refused
    call is the only call of the run: no subtask creation is attempted. *)
Theorem onConfirm_parent_refused (w : tracker) (out : ai_output)
        (cfg : settings) (s : store) (e : exn) :
  validateSettings cfg = true ->
  m_mode (meta_of out) = Some create ->
  on_create w (trace s) (parent_fields out (meta_of out)) = Throw e ->
  let refusal := CreateIssue (parent_fields out (meta_of out)) (Throw e) in
  onConfirm w (Some out) cfg s
  = (Failed (message_of e),
     {| trace := trace s ++ [refusal];
        subtaskTypeCache := subtaskTypeCache s;
        createdKeys := [] |})
  /\ subtask_creations [refusal] = [].
Proof.
  intros Hcfg Hmode Hrefused refusal. split; [|reflexivity].
  unfold onConfirm. rewrite Hcfg. cbn [negb]. fold (meta_of out).
  unfold bind at 1. unfold reset_keys. unfold confirm_body.
  unfold bind at 1. rewrite Hmode. unfold bind at 1.
  unfold jiraCreateIssue, remote. fold (parent_fields out (meta_of out)).
  cbn [trace]. rewrite Hrefused. reflexivity.
Qed.

Lemma onConfirm_parent_refused_witness :
  onConfirm strict_jira (Some refused_output) sample_settings empty_store
  = (Failed "Jira error: summary is invalid",
     {| trace := [CreateIssue
                    (parent_fields refused_output (meta_of refused_output))
                    (Throw (Error "Jira error: summary is invalid"))];
        subtaskTypeCache := ∅;
        createdKeys := [] |}).
Proof.
  apply (onConfirm_parent_refused strict_jira refused_output sample_settings
           empty_store (Error "Jira error: summary is invalid"));
    reflexivity.
Defined.

Lemma body_shape_parent_first (out : ai_output) (m : meta)
      (evs : list event) (ks : list string) (r : result string) :
  body_shape out m evs ks r ->
  (m_mode m = Some create ->
   exists r0 rest,
     evs = CreateIssue (parent_fields out m) r0 :: rest
     /\ parent_creations rest = [])
  /\ (m_mode m <> Some create -> parent_creations evs = []).
Proof.
  intros [ e Hm
         | k pre levs lks lr Hm Hpre Hloop
         | pre levs lks lr Hm Hpre Hloop ].
  - split; [|contradiction]. intros _. now eexists _, [].
  - split; [|contradiction]. intros _. eexists _, _. split; [reflexivity|].
    now apply (quiet_then_loop _ _ _ _ _ _ _ Hpre) in Hloop.
  - split; [contradiction|]. intros _.
    now apply (quiet_then_loop _ _ _ _ _ _ _ Hpre) in Hloop.
Qed.

(** The subtask creations of a run are the creations of its loop. *)
Lemma body_shape_loop (out : ai_output) (m : meta)
      (evs : list event) (ks : list string) (r : result string) :
  body_shape out m evs ks r ->
  (exists e, evs = [CreateIssue (parent_fields out m) (Throw e)]
             /\ ks = [] /\ r = Throw e /\ m_mode m = Some create)
  \/ (exists parentKey before levs pkeys lks lr,
         loop_shape m parentKey (or_nil (subtasks out)) levs lks lr
         /\ evs = before ++ levs
         /\ subtask_creations evs = creations levs
         /\ ks = pkeys ++ lks
         /\ map snd (parent_creations evs) = map succeeded pkeys
         /\ length pkeys = (if mode_is_create m then 1 else 0)
         /\ r = returning lr parentKey
         /\ (forall k x r0, ~ In (UpdateIssue k x r0) before)
         /\ (forall f e, ~ In (CreateIssue f (Throw e)) before)).
Proof.
  intros [ e Hm
         | k pre levs lks lr Hm Hpre Hloop
         | pre levs lks lr Hm Hpre Hloop ].
  - left. now exists e.
  - right.
    exists (key k), (CreateIssue (parent_fields out m) (Ok k) :: pre), levs,
           [key k], lks, lr.
    destruct (quiet_then_loop _ _ _ _ _ _ _ Hpre Hloop) as [Hs Hp].
    unfold subtask_creations, parent_creations in *.
    cbn [creations app List.filter is_subtask_creation fst parent_fields
         bf_parent negb map snd].
    rewrite Hs, Hp. unfold mode_is_create. rewrite Hm.
    repeat split; auto.
    + cbn [map]. now rewrite succeeded_key.
    + intros k0 x r0 [H|H]; [discriminate H|].
      now apply In_quiet_update in H.
    + intros f e [H|H]; [discriminate H|].
      now apply In_quiet_creation in H.
  - right.
    exists (or_empty (m_parentKey m)), pre, levs, [], lks, lr.
    destruct (quiet_then_loop _ _ _ _ _ _ _ Hpre Hloop) as [Hs Hp].
    rewrite Hs, Hp.
    assert (Hc : mode_is_create m = false).
    { unfold mode_is_create. destruct (m_mode m) as [[|]|]; congruence. }
    rewrite Hc. repeat split; auto.
    + intros k0 x r0 H. now apply In_quiet_update in H.
    + intros f e H. now apply In_quiet_creation in H.
Qed.

(** [C4] In one run, the calls are appended to the trace in this order: in
    create mode the creation of the parent is the first call and no later
    call creates a parent, so it precedes every subtask operation; in
    breakdown mode no parent is created. The calls that create subtasks are,
    in their order, the requests for the subtasks of the generation result in
    its order: those of a prefix of the list, and of all of it when the run
    reaches the result display. *)
Theorem onConfirm_call_order (w : tracker) (out : ai_output) (cfg : settings)
        (s : store) :
  validateSettings cfg = true ->
  let m := meta_of out in
  let sts := or_nil (subtasks out) in
  let fin := onConfirm w (Some out) cfg s in
  exists new,
    trace (snd fin) = trace s ++ new
    /\ (m_mode m = Some create ->
        exists r rest,
          new = CreateIssue (parent_fields out m) r :: rest
          /\ parent_creations rest = [])
    /\ (m_mode m <> Some create -> parent_creations new = [])
    /\ exists parentKey,
         length (subtask_creations new) <= length sts
         /\ Forall2 (request_for m parentKey)
                    (firstn (length (subtask_creations new)) sts)
                    (map fst (subtask_creations new))
         /\ (forall pk keys m',
                fst fin = Shown pk keys m' ->
                length (subtask_creations new) = length sts).
Proof.
  intros Hcfg m sts fin.
  destruct (onConfirm_shape w out cfg s Hcfg)
    as (evs & ks & r & s' & Hfin & Ht & Hk & Hbody).
  subst fin. rewrite Hfin. cbn [fst snd]. fold m in Hbody, Hfin |- *.
  exists evs. split; [exact Ht|].
  destruct (body_shape_parent_first _ _ _ _ _ Hbody) as [Hcreate Hbreak].
  split; [exact Hcreate|]. split; [exact Hbreak|].
  destruct (body_shape_loop _ _ _ _ _ Hbody)
    as [(e & -> & -> & -> & Hm)
       |(parentKey & before & levs & pkeys & lks & lr & Hloop & -> & Hsub
         & _ & _ & _ & -> & _)].
  - exists EmptyString. cbn. repeat split; [lia | constructor | discriminate].
  - exists parentKey. rewrite Hsub.
    destruct (loop_shape_creations _ _ _ _ _ _ Hloop)
      as (_ & Hlen & Hreq & Hres).
    split; [exact Hlen|]. split; [exact Hreq|].
    intros pk keys m' Hshown. destruct lr as [e|[]]; [discriminate Hshown|].
    now destruct Hres.
Qed.

Lemma onConfirm_call_order_witness :
  exists r rest,
    trace (snd (onConfirm jira (Some refused_output) sample_settings
                          empty_store))
    = CreateIssue (parent_fields refused_output (meta_of refused_output)) r
        :: rest
    /\ parent_creations rest = [].
Proof.
  destruct (onConfirm_call_order jira refused_output sample_settings
              empty_store eq_refl)
    as (new & Ht & Hcreate & _).
  destruct (Hcreate eq_refl) as (r & rest & -> & Hrest).
  now exists r, rest.
Defined.

(** [C1], as the claim states it, fails: a run that aborts reports the error
    message and nothing else. The keys it has created are in its accumulator,
    which the result display, the only place that shows keys, never
    receives. *)
Lemma aborted_run_reports_no_keys :
  let fin :=
    onConfirm jira (Some refused_output) sample_settings empty_store in
  createdKeys (snd fin) = ["KAN-10"; "KAN-11"]
  /\ fst fin = Failed "Jira error: summary is invalid"
  /\ forall parentKey keys m, fst fin <> Shown parentKey keys m.
Proof.
  cbv zeta. split; [vm_compute; reflexivity|].
  assert (E : fst (onConfirm jira (Some refused_output) sample_settings
                             empty_store)
              = Failed "Jira error: summary is invalid")
    by (vm_compute; reflexivity).
  split; [exact E|]. intros parentKey keys m. rewrite E. discriminate.
Qed.

(** [C1], amended. In one run: (a) if the call that creates the i-th subtask
    is refused, the run fails and reports the message of that error, the
    refused call is the last call of the run, so that nothing is called for
    the later subtasks, and the keys accumulated by then are, in order, the
    key of the parent (in create mode only) and the keys of the subtasks
    created before; (b) a refused update of the optional fields follows the
    creation of the subtask it updates, whose key is among the accumulated
    keys, and a run in which no creation is refused reaches the result
    display with the keys it accumulated. *)
Theorem onConfirm_partial_success (w : tracker) (out : ai_output)
        (cfg : settings) (s : store) :
  validateSettings cfg = true ->
  let m := meta_of out in
  let fin := onConfirm w (Some out) cfg s in
  exists new,
    trace (snd fin) = trace s ++ new
    /\ (forall i f e,
           nth_error (subtask_creations new) i = Some (f, Throw e) ->
           fst fin = Failed (message_of e)
           /\ (exists before, new = before ++ [CreateIssue f (Throw e)])
           /\ length (subtask_creations new) = S i
           /\ exists parentKeys subtaskKeys,
                createdKeys (snd fin) = parentKeys ++ subtaskKeys
                /\ map snd (parent_creations new) = map succeeded parentKeys
                /\ length parentKeys = (if mode_is_create m then 1 else 0)
                /\ map snd (firstn i (subtask_creations new))
                   = map succeeded subtaskKeys)
    /\ (forall k x e,
           In (UpdateIssue k x (Throw e)) new ->
           In k (createdKeys (snd fin))
           /\ exists f c before after,
                new = before ++ CreateIssue f (Ok c)
                               :: UpdateIssue k x (Throw e) :: after
                /\ key c = k /\ bf_parent f <> None)
    /\ ((forall f e, ~ In (CreateIssue f (Throw e)) new) ->
        exists parentKey,
          fst fin = Shown parentKey (createdKeys (snd fin)) m).
Proof.
  intros Hcfg m fin.
  destruct (onConfirm_shape w out cfg s Hcfg)
    as (evs & ks & r & s' & Hfin & Ht & Hk & Hbody).
  subst fin. rewrite Hfin. cbn [fst snd]. fold m in Hbody, Hfin |- *.
  exists evs. split; [exact Ht|]. rewrite Hk.
  destruct (body_shape_loop _ _ _ _ _ Hbody)
    as [(e0 & -> & -> & -> & Hm)
       |(parentKey & before & levs & pkeys & lks & lr & Hloop & -> & Hsub
         & -> & Hparent & Hlen & -> & Hupd & Hcre)].
  - split; [|split].
    + intros i f e Hnth. destruct i; discriminate Hnth.
    + intros k x e [H|[]]. discriminate H.
    + intros Hnone. exfalso. apply (Hnone (parent_fields out m) e0). now left.
  - split; [|split].
    + intros i f e Hnth. rewrite Hsub in *.
      destruct (loop_shape_abort _ _ _ _ _ _ _ _ _ Hloop Hnth)
        as (-> & (before' & ->) & Hn & Hres).
      split; [reflexivity|]. split; [|split; [exact Hn|]].
      * exists (before ++ before'). now rewrite app_assoc.
      * now exists pkeys, lks.
    + intros k x e Hin. apply in_app_iff in Hin as [Hin|Hin].
      * now apply Hupd in Hin.
      * destruct (loop_shape_updates _ _ _ _ _ _ _ _ _ Hloop Hin)
          as (_ & Hk' & f & c & b & a & -> & Hc & Hp).
        split; [apply in_app_iff; now right|].
        exists f, c, (before ++ b), a. rewrite <- app_assoc.
        repeat split; [exact Hc | congruence].
    + intros Hnone.
      assert (lr = Ok tt) as ->.
      { apply (loop_shape_completes _ _ _ _ _ _ Hloop).
        intros f e Hin. apply (Hnone f e). apply in_app_iff. now right. }
      now exists parentKey.
Qed.

Lemma onConfirm_partial_success_witness :
  fst (onConfirm jira (Some refused_output) sample_settings empty_store)
  = Failed "Jira error: summary is invalid"
  /\ createdKeys
       (snd (onConfirm jira (Some refused_output) sample_settings empty_store))
     = ["KAN-10"; "KAN-11"]
  /\ In "KAN-11"
        (createdKeys
           (snd (onConfirm jira (Some refused_output) sample_settings
                           empty_store)))
  /\ exists parentKey,
       fst (onConfirm jira (Some accepted_output) sample_settings empty_store)
       = Shown parentKey
           (createdKeys
              (snd (onConfirm jira (Some accepted_output) sample_settings
                              empty_store)))
           (meta_of accepted_output).
Proof.
  destruct (onConfirm_partial_success jira refused_output sample_settings
              empty_store eq_refl)
    as (new & Ht & Habort & Hupd & _).
  destruct (onConfirm_partial_success jira accepted_output sample_settings
              empty_store eq_refl)
    as (new' & Ht' & _ & _ & Hdone).
  cbn [trace empty_store app] in Ht, Ht'. subst new new'.
  set (boom := {| sub_title := "boom"; sub_description := None;
                  sub_acceptance_criteria := None |}).
  destruct (Habort 1
              (subtask_fields (meta_of refused_output) "KAN-10" boom
                              "Sub-task")
              (Error "Jira error: summary is invalid"))
    as (Hfailed & _ & _ & pkeys & skeys & Hkeys & Hp & _ & Hs).
  { vm_compute. reflexivity. }
  split; [exact Hfailed|]. split; [|split].
  - rewrite Hkeys.
    destruct pkeys as [|p [|? ?]]; try discriminate Hp.
    destruct skeys as [|q [|? ?]]; try discriminate Hs.
    vm_compute in Hp. vm_compute in Hs.
    injection Hp as <-. injection Hs as <-. reflexivity.
  - apply (Hupd "KAN-11" (extraFields_of (meta_of refused_output))
                (Error "Jira error: Field 'duedate' cannot be set.")).
    vm_compute. repeat (first [left; reflexivity | right]).
  - apply Hdone. intros f e Hin. vm_compute in Hin.
    repeat (destruct Hin as [Hin|Hin]; [discriminate Hin|]).
    exact Hin.
Defined.

Lemma finalLabels_of_cases (m : meta) :
  (forall text,
      m_storyPoints m = Some (Nonzero text) ->
      finalLabels_of m = or_nil (m_labels m) ++ [("sp:" ++ text)%string])
  /\ ((forall text, m_storyPoints m <> Some (Nonzero text)) ->
      finalLabels_of m = or_nil (m_labels m)).
Proof.
  unfold finalLabels_of, storyPoints_of. split.
  - intros text ->. reflexivity.
  - intros Hnot. destruct (m_storyPoints m) as [[| |text]|];
      cbn; try apply app_nil_r.
    now destruct (Hnot text).
Qed.

(** [C10] A story-point value of 0 is read as absent by the run: the final
    labels are exactly the configured labels, without any story-point label,
    and every update of optional fields the run sends carries exactly them
    (no labels member when none is configured). A label ["sp:<value>"] is
    added, after the configured ones, only for a value that is neither zero
    nor [NaN]. In the breakdown flow a story-point field that reads as zero
    does put the number 0, not [null], into the metadata. *)
Theorem onConfirm_zero_story_points (w : tracker) (out : ai_output)
        (cfg : settings) (s : store) :
  validateSettings cfg = true ->
  let m := meta_of out in
  let fin := onConfirm w (Some out) cfg s in
  (m_storyPoints m = Some Zero ->
   finalLabels_of m = or_nil (m_labels m)
   /\ exists new,
        trace (snd fin) = trace s ++ new
        /\ forall k x r,
             In (UpdateIssue k x r) new ->
             ef_labels x = match or_nil (m_labels m) with
                           | [] => None
                           | l => Some l
                           end)
  /\ (forall text,
         m_storyPoints m = Some (Nonzero text) ->
         finalLabels_of m = or_nil (m_labels m) ++ [("sp:" ++ text)%string])
  /\ ((forall text, m_storyPoints m <> Some (Nonzero text)) ->
      finalLabels_of m = or_nil (m_labels m))
  /\ (forall (parseFloat : string -> jsnumber) storyKey projectKey breakType
             jiraStatus priority assigneeId dueDate labels storyPts watchers,
         storyPts <> EmptyString ->
         parseFloat storyPts = Zero ->
         m_storyPoints
           (breakdown_meta parseFloat storyKey projectKey breakType jiraStatus
                           priority assigneeId dueDate labels storyPts
                           watchers)
         = Some Zero).
Proof.
  intros Hcfg m fin.
  destruct (finalLabels_of_cases m) as [Hsp Hnone].
  split; [|split; [exact Hsp | split; [exact Hnone|]]].
  - intros Hzero.
    assert (Hlabels : finalLabels_of m = or_nil (m_labels m)).
    { apply Hnone. intros text. rewrite Hzero. discriminate. }
    split; [exact Hlabels|].
    destruct (onConfirm_shape w out cfg s Hcfg)
      as (evs & ks & r & s' & Hfin & Ht & Hk & Hbody).
    subst fin. rewrite Hfin. cbn [snd]. fold m in Hbody.
    exists evs. split; [exact Ht|].
    intros k x r0 Hin.
    assert (Hx : x = extraFields_of m).
    { destruct (body_shape_loop _ _ _ _ _ Hbody)
        as [(e0 & -> & _)
           |(parentKey & before & levs & pkeys & lks & lr & Hloop & ->
             & _ & _ & _ & _ & _ & Hupd & _)].
      - destruct Hin as [Hin|[]]. discriminate Hin.
      - apply in_app_iff in Hin as [Hin|Hin]; [now apply Hupd in Hin|].
        now destruct (loop_shape_updates _ _ _ _ _ _ _ _ _ Hloop Hin). }
    subst x. unfold extraFields_of. cbn [ef_labels]. now rewrite Hlabels.
  - intros parseFloat storyKey projectKey breakType jiraStatus priority
           assigneeId dueDate labels storyPts watchers Hpts Hzero.
    unfold breakdown_meta. cbn [m_storyPoints].
    destruct storyPts; [contradiction|]. cbn [Str.truthy]. now rewrite Hzero.
Qed.

Lemma onConfirm_zero_story_points_witness :
  finalLabels_of (meta_of refused_output) = ["backend"]
  /\ updates (trace (snd (onConfirm jira (Some refused_output) sample_settings
                                   empty_store)))
     = [("KAN-11", extraFields_of (meta_of refused_output))]
  /\ ef_labels (extraFields_of (meta_of refused_output)) = Some ["backend"]
  /\ finalLabels_of (meta_of accepted_output) = ["backend"; "sp:3"].
Proof.
  destruct (onConfirm_zero_story_points jira refused_output sample_settings
              empty_store eq_refl)
    as (Hzero & _).
  destruct (onConfirm_zero_story_points jira accepted_output sample_settings
              empty_store eq_refl)
    as (_ & Hsp & _).
  destruct (Hzero eq_refl) as (Hlabels & new & Ht & Hupd).
  cbn [trace empty_store app] in Ht. subst new.
  split; [exact Hlabels|]. split; [vm_compute; reflexivity|].
  split.
  - apply (Hupd "KAN-11" (extraFields_of (meta_of refused_output))
                (Throw (Error "Jira error: Field 'duedate' cannot be set."))).
    vm_compute. repeat (first [left; reflexivity | right]).
  - apply (Hsp "3"). reflexivity.
Defined.

(** * Further properties *)

(** ** Subtask-type detection *)

Lemma probe_post (w : tracker) (projectKey : string) (names : list string)
      (s : store) :
  exists name s1 probes,
    probe w projectKey names s = (Ok name, s1)
    /\ subtaskTypeCache s1 = <[projectKey := name]> (subtaskTypeCache s)
    /\ createdKeys s1 = createdKeys s
    /\ trace s1 = trace s ++ probes
    /\ Forall (fun e => is_probe e = true) probes
    /\ length probes <= length names
    /\ (In name names \/ name = "Subtask").
Proof.
  revert s. induction names as [|name rest IH]; intros s.
  - exists "Subtask", (cached s projectKey "Subtask"), [].
    cbn. rewrite app_nil_r. repeat split; auto.
  - rewrite probe_step.
    destruct (rejected (on_probe w (trace s) projectKey name)).
    + destruct (IH (extend s (Probe projectKey name
                                (on_probe w (trace s) projectKey name))))
        as (n & s1 & probes & E & Hc & Hk & Ht & Hp & Hl & Hn).
      exists n, s1, (Probe projectKey name
                       (on_probe w (trace s) projectKey name) :: probes).
      rewrite E, Hc, Hk, Ht. cbn [extend trace subtaskTypeCache createdKeys].
      rewrite <- app_assoc. repeat split; auto.
      * cbn [length]. lia.
      * destruct Hn as [Hn| ->]; [left; now right | now right].
    + eexists name, _, [Probe projectKey name _].
      split; [reflexivity|]. cbn. repeat split; auto.
      lia.
Qed.

Lemma detect_post (w : tracker) (projectKey : string) (s : store) :
  exists name s1 evs,
    detectSubtaskTypeName w projectKey s = (Ok name, s1)
    /\ subtaskTypeCache s1 !! projectKey = Some name
    /\ (forall other, other <> projectKey ->
                      subtaskTypeCache s1 !! other
                      = subtaskTypeCache s !! other)
    /\ createdKeys s1 = createdKeys s
    /\ trace s1 = trace s ++ evs.
Proof.
  unfold detectSubtaskTypeName. unfold bind at 1. unfold read_cache.
  destruct (subtaskTypeCache s !! projectKey) as [v|] eqn:C.
  - destruct (Str.truthy v) eqn:T.
    + exists v, s, []. rewrite app_nil_r. repeat split; auto.
    + unfold bind. rewrite discover_spec.
      destruct (first_subtask_type _ _) as [t|].
      * eexists _, _, [_]. split; [reflexivity|]. cbn.
        rewrite lookup_insert_eq. repeat split; auto.
        intros other N. now rewrite lookup_insert_ne.
      * destruct (probe_post w projectKey candidates
                    (extend s (Createmeta projectKey
                                 (on_createmeta w (trace s) projectKey))))
          as (n & s1 & probes & E & Hc & Hk & Ht & _).
        exists n, s1, (Createmeta projectKey
                         (on_createmeta w (trace s) projectKey) :: probes).
        rewrite E, Hc, Hk, Ht. cbn. rewrite lookup_insert_eq, <- app_assoc.
        repeat split; auto.
        intros other N. now rewrite lookup_insert_ne.
  - unfold bind. rewrite discover_spec.
    destruct (first_subtask_type _ _) as [t|].
    + eexists _, _, [_]. split; [reflexivity|]. cbn.
      rewrite lookup_insert_eq. repeat split; auto.
      intros other N. now rewrite lookup_insert_ne.
    + destruct (probe_post w projectKey candidates
                  (extend s (Createmeta projectKey
                               (on_createmeta w (trace s) projectKey))))
        as (n & s1 & probes & E & Hc & Hk & Ht & _).
      exists n, s1, (Createmeta projectKey
                       (on_createmeta w (trace s) projectKey) :: probes).
      rewrite E, Hc, Hk, Ht. cbn. rewrite lookup_insert_eq, <- app_assoc.
      repeat split; auto.
      intros other N. now rewrite lookup_insert_ne.
Qed.

(** [X1] Whatever the tracker answers, [detectSubtaskTypeName] does not
    throw: it returns a name, leaves that name in the cache under the project
    key, changes no other entry of the cache, and only adds calls to the
    trace. *)
Theorem detectSubtaskTypeName_caches_its_answer (w : tracker)
        (projectKey : string) (s : store) :
  exists name s1 evs,
    detectSubtaskTypeName w projectKey s = (Ok name, s1)
    /\ subtaskTypeCache s1 !! projectKey = Some name
    /\ (forall other, other <> projectKey ->
                      subtaskTypeCache s1 !! other
                      = subtaskTypeCache s !! other)
    /\ createdKeys s1 = createdKeys s
    /\ trace s1 = trace s ++ evs.
Proof. apply detect_post. Qed.

(** [X2] Once [detectSubtaskTypeName] has returned a name that is not empty
    for a project, a later call for that project returns the same name and
    makes no call, whatever the tracker would answer by then. *)
Theorem detectSubtaskTypeName_asks_once (w w' : tracker)
        (projectKey name : string) (s s1 : store) :
  detectSubtaskTypeName w projectKey s = (Ok name, s1) ->
  name <> EmptyString ->
  detectSubtaskTypeName w' projectKey s1 = (Ok name, s1).
Proof.
  intros E N.
  destruct (detect_post w projectKey s) as (n & s' & evs & E' & Hc & _).
  rewrite E in E'. injection E' as <- <-.
  unfold detectSubtaskTypeName, bind.
  now rewrite (read_cache_hit _ _ _ Hc N).
Qed.

Lemma detectSubtaskTypeName_asks_once_witness :
  detectSubtaskTypeName offline_jira "KAN"
    (snd (detectSubtaskTypeName restricted_jira "KAN" empty_store))
  = (Ok "Sub-task",
     snd (detectSubtaskTypeName restricted_jira "KAN" empty_store)).
Proof.
  apply (detectSubtaskTypeName_asks_once restricted_jira offline_jira "KAN"
           "Sub-task" empty_store).
  - vm_compute. reflexivity.
  - discriminate.
Defined.

(** [X3] When the cache has no usable name for the project and the creation
    metadata show no subtask type (or cannot be fetched),
    [detectSubtaskTypeName] makes that one metadata request, then at most
    four probes, and returns one of the four candidate names. *)
Theorem detectSubtaskTypeName_falls_back_to_a_candidate (w : tracker)
        (projectKey : string) (s : store) :
  subtaskTypeCache s !! projectKey = None
  \/ subtaskTypeCache s !! projectKey = Some EmptyString ->
  first_subtask_type projectKey (on_createmeta w (trace s) projectKey) = None ->
  exists name s1 probes,
    detectSubtaskTypeName w projectKey s = (Ok name, s1)
    /\ In name candidates
    /\ trace s1
       = trace s
         ++ Createmeta projectKey (on_createmeta w (trace s) projectKey)
            :: probes
    /\ Forall (fun e => is_probe e = true) probes
    /\ length probes <= 4.
Proof.
  intros Hmiss Hnone.
  unfold detectSubtaskTypeName. unfold bind at 1.
  rewrite (read_cache_miss _ _ Hmiss). unfold bind.
  rewrite discover_spec, Hnone.
  destruct (probe_post w projectKey candidates
              (extend s (Createmeta projectKey
                           (on_createmeta w (trace s) projectKey))))
    as (n & s1 & probes & E & _ & _ & Ht & Hp & Hl & Hn).
  exists n, s1, probes. rewrite E, Ht. cbn [extend trace].
  rewrite <- app_assoc. repeat split; auto.
  destruct Hn as [Hn| ->]; [exact Hn | now left].
Qed.

Lemma detectSubtaskTypeName_falls_back_witness :
  exists name s1 probes,
    detectSubtaskTypeName restricted_jira "KAN" empty_store = (Ok name, s1)
    /\ In name candidates
    /\ trace s1 = [] ++ Createmeta "KAN" forbidden :: probes
    /\ Forall (fun e => is_probe e = true) probes
    /\ length probes <= 4.
Proof.
  apply (detectSubtaskTypeName_falls_back_to_a_candidate restricted_jira
           "KAN" empty_store).
  - left. vm_compute. reflexivity.
  - reflexivity.
Defined.

(** ** Watchers *)

(** [X4] [jiraAddWatcher] always ends with the call that adds the watcher,
    and its result is the answer to that call. A query without [@] is used
    as the account as it is, without any search. A query with [@] is searched
    first: the account is that of the first user found, and the query itself
    when the search fails or finds nobody. *)
Theorem jiraAddWatcher_resolves_then_adds (w : tracker)
        (issueKey userQuery : string) (s : store) :
  exists s0 account,
    jiraAddWatcher w issueKey userQuery s
    = (on_watcher w (trace s0) issueKey account,
       extend s0 (AddWatcher issueKey account
                             (on_watcher w (trace s0) issueKey account)))
    /\ (Str.includes "@" userQuery = false ->
        s0 = s /\ account = userQuery)
    /\ (Str.includes "@" userQuery = true ->
        let found := on_user_search w (trace s) userQuery in
        s0 = extend s (UserSearch userQuery found)
        /\ account = match found with
                     | Ok (u :: _) => accountId u
                     | _ => userQuery
                     end).
Proof.
  unfold jiraAddWatcher. unfold bind at 1.
  destruct (Str.includes "@" userQuery) eqn:At.
  - unfold try_catch, bind, remote.
    destruct (on_user_search w (trace s) userQuery) as [e|[|u users]] eqn:F.
    + eexists _, _. split; [reflexivity|]. split; [discriminate|].
      intros _. cbv zeta. now split.
    + eexists _, _. split; [reflexivity|]. split; [discriminate|].
      intros _. cbv zeta. now split.
    + eexists _, _. split; [reflexivity|]. split; [discriminate|].
      intros _. cbv zeta. now split.
  - exists s, userQuery. split; [reflexivity|].
    split; [now split | discriminate].
Qed.

Lemma jiraAddWatcher_witness :
  trace (snd (jiraAddWatcher jira "KAN-11" "alice@example.com" empty_store))
  = [UserSearch "alice@example.com" (Ok []);
     AddWatcher "KAN-11" "alice@example.com"
                (Throw (Error "Jira error: HTTP 404"))]
  /\ trace (snd (jiraAddWatcher directory_jira "KAN-11" "alice@example.com"
                                empty_store))
     = [UserSearch "alice@example.com"
                   (on_user_search directory_jira [] "alice@example.com");
        AddWatcher "KAN-11" "5b10a2844c20165700ede21g" (Ok tt)]
  /\ trace (snd (jiraAddWatcher jira "KAN-11" "5b10a2844c20165700ede21g"
                                empty_store))
     = [AddWatcher "KAN-11" "5b10a2844c20165700ede21g"
                   (Throw (Error "Jira error: HTTP 404"))].
Proof.
  destruct (jiraAddWatcher_resolves_then_adds jira "KAN-11"
              "alice@example.com" empty_store)
    as (s0 & a & E & _ & Hat).
  destruct (Hat eq_refl) as [-> ->]. rewrite E. clear E Hat.
  destruct (jiraAddWatcher_resolves_then_adds directory_jira "KAN-11"
              "alice@example.com" empty_store)
    as (s0 & a & E & _ & Hat).
  destruct (Hat eq_refl) as [-> ->]. rewrite E. clear E Hat.
  destruct (jiraAddWatcher_resolves_then_adds jira "KAN-11"
              "5b10a2844c20165700ede21g" empty_store)
    as (s0 & a & E & Hraw & _).
  destruct (Hraw eq_refl) as [-> ->]. rewrite E.
  repeat split.
Defined.

(** ** What a confirmation accounts for *)

Lemma answered_keys_app (a b : list event) :
  answered_keys (a ++ b) = answered_keys a ++ answered_keys b.
Proof.
  induction a as [|e a IH]; [reflexivity|].
  destruct e as [| f [|k] | | | | | |]; cbn [app answered_keys];
    rewrite IH; reflexivity.
Qed.

Lemma answered_keys_quiet (evs : list event) :
  Forall quiet evs -> answered_keys evs = [].
Proof.
  induction 1 as [|e evs He _ IH]; [reflexivity|].
  destruct e; cbn [answered_keys]; auto; destruct He.
Qed.

Lemma answered_keys_enrichment (m : meta) (k : string) (evs : list event) :
  enrichment m k evs -> answered_keys evs = [].
Proof.
  intros (upd & others & -> & [->|(r & ->)] & Hq);
    rewrite answered_keys_app, (answered_keys_quiet _ Hq); reflexivity.
Qed.

Lemma loop_shape_answered_keys (m : meta) (parentKey : string)
      (sts : list subtask) (evs : list event) (ks : list string)
      (r : result unit) :
  loop_shape m parentKey sts evs ks r -> answered_keys evs = ks.
Proof.
  induction 1 as [ | st rest pre f e Hpre Hf
                   | st rest pre f k post evs ks r Hpre Hf Hpost Hloop IH ].
  - reflexivity.
  - now rewrite answered_keys_app, (answered_keys_quiet _ Hpre).
  - rewrite answered_keys_app, (answered_keys_quiet _ Hpre).
    cbn [app answered_keys].
    now rewrite answered_keys_app, (answered_keys_enrichment _ _ _ Hpost), IH.
Qed.

Lemma body_shape_answered_keys (out : ai_output) (m : meta)
      (evs : list event) (ks : list string) (r : result string) :
  body_shape out m evs ks r -> answered_keys evs = ks.
Proof.
  intros [ e Hm
         | k pre levs lks lr Hm Hpre Hloop
         | pre levs lks lr Hm Hpre Hloop ].
  - reflexivity.
  - cbn [answered_keys].
    now rewrite answered_keys_app, (answered_keys_quiet _ Hpre),
      (loop_shape_answered_keys _ _ _ _ _ _ Hloop).
  - now rewrite answered_keys_app, (answered_keys_quiet _ Hpre),
      (loop_shape_answered_keys _ _ _ _ _ _ Hloop).
Qed.

(** [X5] At the end of every run, failed or not, [createdKeys] is the list
    of the keys the tracker answered to the run's creation requests, those
    of the parent and of the subtasks, in their order: none of these keys is
    lost, invented or moved. The probes of the detection cascade are no such
    requests: the issue that an accepted probe creates has no key in
    [createdKeys]. *)
Theorem onConfirm_keys_are_the_answered_creations (w : tracker)
        (out : ai_output) (cfg : settings) (s : store) :
  validateSettings cfg = true ->
  let fin := onConfirm w (Some out) cfg s in
  exists new,
    trace (snd fin) = trace s ++ new
    /\ createdKeys (snd fin) = answered_keys new
    /\ answered_keys new
       = flat_map (fun e => match e with
                            | CreateIssue _ (Ok k) => [key k]
                            | _ => []
                            end) new.
Proof.
  intros Hcfg fin.
  destruct (onConfirm_shape w out cfg s Hcfg)
    as (evs & ks & r & s' & Hfin & Ht & Hk & Hbody).
  subst fin. rewrite Hfin. cbn [snd]. exists evs.
  split; [exact Ht|]. split.
  - rewrite Hk. symmetry. now apply body_shape_answered_keys in Hbody.
  - clear. induction evs as [|e evs IH]; [reflexivity|].
    destruct e as [| f [|k] | | | | | |]; cbn [answered_keys flat_map app];
      now rewrite IH.
Qed.

Lemma onConfirm_keys_witness :
  let fin := onConfirm welcoming_jira (Some one_subtask_output)
                       sample_settings empty_store in
  trace (snd fin)
  = [ Createmeta "KAN" forbidden;
      Probe "KAN" "Subtask" (Ok created_body);
      CreateIssue (subtask_fields (meta_of one_subtask_output) "KAN-2"
                     {| sub_title := "form"; sub_description := None;
                        sub_acceptance_criteria := None |} "Subtask")
                  (Ok {| key := "KAN-10" |}) ]
  /\ createdKeys (snd fin) = ["KAN-10"].
Proof.
  cbv zeta.
  destruct (onConfirm_keys_are_the_answered_creations welcoming_jira
              one_subtask_output sample_settings empty_store eq_refl)
    as (new & Ht & Hk & _).
  cbn [trace empty_store app] in Ht.
  assert (Hnew : new
                 = [ Createmeta "KAN" forbidden;
                     Probe "KAN" "Subtask" (Ok created_body);
                     CreateIssue
                       (subtask_fields (meta_of one_subtask_output) "KAN-2"
                          {| sub_title := "form"; sub_description := None;
                             sub_acceptance_criteria := None |} "Subtask")
                       (Ok {| key := "KAN-10" |}) ]).
  { rewrite <- Ht. vm_compute. reflexivity. }
  split; [now rewrite Ht|].
  rewrite Hk, Hnew. reflexivity.
Defined.

(** [X6] A run that reaches the result display has created one issue per
    subtask of the generation result: in create mode the keys shown are the
    key of the new parent, which is also the parent key shown, followed by
    one key per subtask; in breakdown mode the parent key shown is the
    configured one and there is one key per subtask. *)
Theorem onConfirm_shows_one_key_per_subtask (w : tracker) (out : ai_output)
        (cfg : settings) (s : store) (parentKey : string)
        (keys : list string) (m' : meta) :
  validateSettings cfg = true ->
  fst (onConfirm w (Some out) cfg s) = Shown parentKey keys m' ->
  let m := meta_of out in
  let sts := or_nil (subtasks out) in
  m' = m
  /\ keys = createdKeys (snd (onConfirm w (Some out) cfg s))
  /\ (m_mode m = Some create ->
      exists subtaskKeys,
        keys = parentKey :: subtaskKeys
        /\ length subtaskKeys = length sts)
  /\ (m_mode m <> Some create ->
      parentKey = or_empty (m_parentKey m) /\ length keys = length sts).
Proof.
  intros Hcfg Hshown m sts.
  destruct (onConfirm_shape w out cfg s Hcfg)
    as (evs & ks & r & s' & Hfin & Ht & Hk & Hbody).
  rewrite Hfin in *. cbn [fst snd] in *. fold m in Hbody, Hshown.
  assert (Hlen : forall pk levs lks lr,
             loop_shape m pk sts levs lks lr ->
             returning lr pk = r -> length lks = length sts).
  { intros pk levs lks lr Hloop Hr.
    destruct (loop_shape_creations _ _ _ _ _ _ Hloop) as (_ & _ & _ & Hres).
    destruct lr as [e|u]; [subst r; discriminate Hshown|].
    destruct Hres as [Hn Hres].
    rewrite <- Hn, <- (length_map snd), Hres. now rewrite length_map. }
  destruct Hbody as [ e Hm
                    | k pre levs lks lr Hm Hpre Hloop
                    | pre levs lks lr Hm Hpre Hloop ].
  - discriminate Hshown.
  - pose proof (Hlen _ _ _ _ Hloop eq_refl) as L.
    destruct lr as [e|u]; [discriminate Hshown|].
    injection Hshown as <- <- <-.
    split; [reflexivity|]. split; [now symmetry|]. split.
    + intros _. now exists lks.
    + intros N. contradiction.
  - pose proof (Hlen _ _ _ _ Hloop eq_refl) as L.
    destruct lr as [e|u]; [discriminate Hshown|].
    injection Hshown as <- <- <-.
    split; [reflexivity|]. split; [now symmetry|]. split.
    + intros N. contradiction.
    + intros _. now split.
Qed.

Lemma onConfirm_shows_one_key_per_subtask_witness :
  fst (onConfirm jira (Some accepted_output) sample_settings empty_store)
  = Shown "KAN-2" ["KAN-10"; "KAN-11"] (meta_of accepted_output)
  /\ length ["KAN-10"; "KAN-11"]
     = length (or_nil (subtasks accepted_output)).
Proof.
  assert (E : fst (onConfirm jira (Some accepted_output) sample_settings
                             empty_store)
              = Shown "KAN-2" ["KAN-10"; "KAN-11"] (meta_of accepted_output))
    by (vm_compute; reflexivity).
  destruct (onConfirm_shows_one_key_per_subtask jira accepted_output
              sample_settings empty_store _ _ _ eq_refl E)
    as (_ & _ & _ & Hbreak).
  split; [exact E|]. apply Hbreak. discriminate.
Defined.

(** ** The calls a confirmation may make *)

Lemma emits_ret {A : Type} (P : event -> Prop) (a : A) : emits P (ret a).
Proof. intros s. exists []. cbn. now rewrite app_nil_r. Qed.

Lemma emits_bind {A B : Type} (P : event -> Prop) (c : M A) (k : A -> M B) :
  emits P c -> (forall a, emits P (k a)) -> emits P (bind c k).
Proof.
  intros Hc Hk s. unfold bind.
  destruct (Hc s) as (evs & Ht & HP).
  destruct (c s) as [[e|a] s1]; cbn [snd] in *.
  - now exists evs.
  - destruct (Hk a s1) as (evs' & Ht' & HP').
    exists (evs ++ evs'). rewrite Ht', Ht, app_assoc.
    split; [reflexivity | now apply Forall_app].
Qed.

Lemma emits_try_catch {A : Type} (P : event -> Prop) (c : M A)
      (h : exn -> M A) :
  emits P c -> (forall e, emits P (h e)) -> emits P (try_catch c h).
Proof.
  intros Hc Hh s. unfold try_catch.
  destruct (Hc s) as (evs & Ht & HP).
  destruct (c s) as [[e|a] s1]; cbn [snd] in *.
  - destruct (Hh e s1) as (evs' & Ht' & HP').
    exists (evs ++ evs'). rewrite Ht', Ht, app_assoc.
    split; [reflexivity | now apply Forall_app].
  - now exists evs.
Qed.

Lemma emits_remote {A : Type} (P : event -> Prop)
      (answer : list event -> result A) (record : result A -> event) :
  (forall r, P (record r)) -> emits P (remote answer record).
Proof.
  intros H s. exists [record (answer (trace s))]. cbn. split; auto.
Qed.

Lemma emits_silent {A : Type} (P : event -> Prop) (c : M A) :
  (forall s, trace (snd (c s)) = trace s) -> emits P c.
Proof. intros H s. exists []. now rewrite H, app_nil_r. Qed.

Ltac emits_step :=
  first
    [ apply emits_ret
    | apply emits_silent; reflexivity
    | apply emits_remote; intros
    | apply emits_try_catch; [|intros]
    | apply emits_bind; [|intros] ].

Lemma probe_emits (P : event -> Prop) (w : tracker) (projectKey : string)
      (names : list string) :
  (forall name r, In name names -> P (Probe projectKey name r)) ->
  emits P (probe w projectKey names).
Proof.
  induction names as [|name rest IH]; intros H; cbn [probe].
  - repeat emits_step.
  - emits_step.
    + emits_step; [|emits_step].
      emits_step; [emits_step; apply H; now left|].
      destruct (_ && _); repeat emits_step.
    + destruct a; [emits_step|].
      apply IH. intros n r Hin. apply H. now right.
Qed.

Lemma detectSubtaskTypeName_emits (P : event -> Prop) (w : tracker)
      (projectKey : string) :
  (forall r, P (Createmeta projectKey r)) ->
  (forall name r, In name candidates -> P (Probe projectKey name r)) ->
  emits P (detectSubtaskTypeName w projectKey).
Proof.
  intros Hmeta Hprobe. unfold detectSubtaskTypeName.
  emits_step; [emits_step|].
  destruct a as [name|]; [emits_step|].
  emits_step.
  - emits_step; [|emits_step]. unfold discover.
    emits_step; [emits_step; apply Hmeta|].
    destruct (find _ _) as [proj|]; [|emits_step].
    destruct (find _ _) as [t|]; repeat emits_step.
  - destruct a as [name|]; [emits_step | now apply probe_emits].
Qed.

Lemma jiraTransition_emits (P : event -> Prop) (w : tracker)
      (issueKey targetStatus : string) :
  (forall r, P (GetTransitions issueKey r)) ->
  (forall id r, P (DoTransition issueKey id r)) ->
  emits P (jiraTransition w issueKey targetStatus).
Proof.
  intros Hget Hdo. unfold jiraTransition.
  emits_step; [emits_step; apply Hget|].
  destruct (find _ _); emits_step. apply Hdo.
Qed.

Lemma transition_if_set_emits (P : event -> Prop) (w : tracker)
      (issueKey jiraStatus : string) :
  (jiraStatus <> EmptyString ->
   (forall r, P (GetTransitions issueKey r))
   /\ (forall id r, P (DoTransition issueKey id r))) ->
  emits P (transition_if_set w issueKey jiraStatus).
Proof.
  intros H. unfold transition_if_set.
  destruct jiraStatus as [|c st]; [emits_step|].
  destruct (H ltac:(discriminate)) as [Hget Hdo].
  destruct (_ && _); [|emits_step].
  unfold swallow. emits_step; [|emits_step].
  now apply jiraTransition_emits.
Qed.

Lemma jiraAddWatcher_emits (P : event -> Prop) (w : tracker)
      (issueKey userQuery : string) :
  (Str.includes "@" userQuery = true -> forall r, P (UserSearch userQuery r)) ->
  (forall account r, P (AddWatcher issueKey account r)) ->
  emits P (jiraAddWatcher w issueKey userQuery).
Proof.
  intros Hsearch Hadd. unfold jiraAddWatcher.
  emits_step; [|emits_step; apply Hadd].
  destruct (Str.includes "@" userQuery); [|emits_step].
  emits_step; [|emits_step].
  emits_step; [emits_step; now apply Hsearch|].
  destruct a; emits_step.
Qed.

Lemma add_watchers_emits (P : event -> Prop) (w : tracker) (stKey : string)
      (watchers : list string) :
  (forall q r, In q watchers -> Str.includes "@" q = true ->
               P (UserSearch q r)) ->
  (watchers <> [] -> forall account r, P (AddWatcher stKey account r)) ->
  emits P (add_watchers w stKey watchers).
Proof.
  induction watchers as [|x rest IH]; intros Hs Ha; cbn [add_watchers];
    [emits_step|].
  emits_step.
  - unfold swallow. emits_step; [|emits_step].
    apply jiraAddWatcher_emits.
    + intros Hat r. apply Hs; [now left | exact Hat].
    + apply Ha. discriminate.
  - apply IH.
    + intros q r Hin. apply Hs. now right.
    + intros _. apply Ha. discriminate.
Qed.

Lemma or_null_idempotent (o : option string) : or_null (or_null o) = or_null o.
Proof.
  destruct o as [s|]; [|reflexivity]. cbn.
  destruct (Str.truthy s) eqn:T; cbn; [now rewrite T | reflexivity].
Qed.

Lemma jiraCreateSubtask_allowed (w : tracker) (out : ai_output) (m : meta)
      (parentKey : string) (st : subtask) :
  In st (or_nil (subtasks out)) ->
  emits (allowed out m)
        (jiraCreateSubtask w parentKey (or_empty (m_projectKey m))
           (sub_title st) (or_empty (sub_description st))
           (or_nil (sub_acceptance_criteria st))
           (or_null (m_breakType m)) (extraFields_of m)).
Proof.
  intros Hin. unfold jiraCreateSubtask. rewrite or_null_idempotent.
  assert (Hrest : forall typeName,
             (forall t, or_null (m_breakType m) = Some t -> typeName = t) ->
             emits (allowed out m)
               (bind (remote (fun t => on_create w t
                                (subtask_fields m parentKey st typeName))
                             (CreateIssue
                                (subtask_fields m parentKey st typeName)))
                     (fun result =>
                        bind (if extra_nonempty (extraFields_of m)
                              then try_catch
                                     (remote (fun t => on_update w t
                                                (key result) (extraFields_of m))
                                             (UpdateIssue (key result)
                                                (extraFields_of m)))
                                     (fun _ => ret tt)
                              else ret tt)
                             (fun _ => ret result)))).
  { intros typeName Htype. emits_step.
    - emits_step. right. now exists parentKey, st, typeName.
    - emits_step; [|emits_step].
      destruct (extra_nonempty (extraFields_of m)) eqn:X; [|emits_step].
      emits_step; [|emits_step]. emits_step. now split. }
  destruct (or_null (m_breakType m)) as [t|] eqn:B.
  - apply (Hrest t). intros t' E. now injection E.
  - emits_step.
    + apply detectSubtaskTypeName_emits.
      * intros r. now split.
      * intros name r Hname. now repeat split.
    + apply Hrest. discriminate.
Qed.

Lemma create_subtasks_allowed (w : tracker) (out : ai_output) (m : meta)
      (parentKey : string) (sts : list subtask) :
  (forall st, In st sts -> In st (or_nil (subtasks out))) ->
  emits (allowed out m) (create_subtasks w m parentKey sts).
Proof.
  induction sts as [|st rest IH]; intros Hincl; cbn [create_subtasks];
    [emits_step|].
  emits_step; [apply jiraCreateSubtask_allowed, Hincl; now left|].
  emits_step; [emits_step|].
  emits_step.
  { apply transition_if_set_emits. intros N. now split. }
  emits_step.
  { apply add_watchers_emits.
    - intros q r Hq Hat. now split.
    - intros N account r. exact N. }
  apply IH. intros st' Hin. apply Hincl. now right.
Qed.

Lemma confirm_body_allowed (w : tracker) (out : ai_output) (m : meta) :
  emits (allowed out m) (confirm_body w out m).
Proof.
  unfold confirm_body. emits_step.
  - destruct (m_mode m) as [[|]|] eqn:Hm.
    + emits_step; [|emits_step].
      apply transition_if_set_emits. intros N. now split.
    + emits_step.
      * unfold jiraCreateIssue. fold (parent_fields out m).
        emits_step. left. now split.
      * emits_step; [emits_step|]. emits_step; [|emits_step].
        apply transition_if_set_emits. intros N. now split.
    + emits_step; [|emits_step].
      apply transition_if_set_emits. intros N. now split.
  - emits_step; [|emits_step].
    apply create_subtasks_allowed. auto.
Qed.

(** Every call of a run is one its output and metadata allow. *)
Lemma onConfirm_allowed (w : tracker) (out : ai_output) (cfg : settings)
      (s : store) :
  validateSettings cfg = true ->
  exists new,
    trace (snd (onConfirm w (Some out) cfg s)) = trace s ++ new
    /\ Forall (allowed out (meta_of out)) new.
Proof.
  intros Hcfg. unfold onConfirm. rewrite Hcfg. cbn [negb].
  fold (meta_of out).
  assert (H : emits (allowed out (meta_of out))
                    (bind reset_keys
                          (fun _ => confirm_body w out (meta_of out)))).
  { emits_step; [emits_step | apply confirm_body_allowed]. }
  destruct (H s) as (new & Ht & HP). exists new. split; [|exact HP].
  destruct (bind reset_keys _ s) as [[e|pk] s']; exact Ht.
Qed.

(** [X7] With a break type configured, a run makes no detection call (no
    metadata request, no probe), and every call that creates a subtask asks
    for the configured type. *)
Theorem onConfirm_configured_type_is_used (w : tracker) (out : ai_output)
        (cfg : settings) (s : store) (breakType : string) :
  validateSettings cfg = true ->
  or_null (m_breakType (meta_of out)) = Some breakType ->
  exists new,
    trace (snd (onConfirm w (Some out) cfg s)) = trace s ++ new
    /\ Forall (fun e => is_detection_call e = false) new
    /\ Forall (fun e => forall asked,
                   subtask_type_asked e = Some asked -> asked = breakType)
              new.
Proof.
  intros Hcfg Htype.
  destruct (onConfirm_allowed w out cfg s Hcfg) as (new & Ht & Hall).
  exists new. split; [exact Ht|]. split.
  - eapply Forall_impl; [exact Hall|].
    intros [] H; try reflexivity; cbn in H; destruct H as [H _]; congruence.
  - eapply Forall_impl; [exact Hall|].
    intros [] H asked Hasked; try discriminate Hasked.
    cbn in H, Hasked.
    destruct H as [[_ ->]|(pk & st & tn & _ & -> & Htn)];
      [discriminate Hasked|].
    cbn in Hasked. injection Hasked as <-. now apply Htn.
Qed.

Lemma onConfirm_configured_type_witness :
  Forall (fun e => is_detection_call e = false)
         (trace (snd (onConfirm jira (Some plain_output) sample_settings
                                empty_store)))
  /\ Forall (fun e => forall asked,
                 subtask_type_asked e = Some asked -> asked = "Task")
            (trace (snd (onConfirm jira (Some plain_output) sample_settings
                                   empty_store))).
Proof.
  destruct (onConfirm_configured_type_is_used jira plain_output
              sample_settings empty_store "Task" eq_refl eq_refl)
    as (new & Ht & Hd & Ha).
  cbn [trace empty_store app] in Ht. rewrite Ht. now split.
Defined.

Lemma or_null_some (o : option string) (p : string) :
  or_null o = Some p <-> o = Some p /\ p <> EmptyString.
Proof.
  destruct o as [[|c r]|]; cbn [or_null Str.truthy]; split.
  - discriminate.
  - intros [H N]. injection H as <-. contradiction.
  - intros H. injection H as <-. split; [reflexivity | discriminate].
  - intros [H _]. exact H.
  - discriminate.
  - intros [H _]. discriminate H.
Qed.

Lemma finalLabels_of_meta (m : meta) :
  finalLabels_of m
  = or_nil (m_labels m)
    ++ match m_storyPoints m with
       | Some (Nonzero r) => [("sp:" ++ r)%string]
       | _ => []
       end.
Proof.
  unfold finalLabels_of, storyPoints_of.
  destruct (m_storyPoints m) as [[| |r]|]; reflexivity.
Qed.

Lemma extraFields_of_labels (m : meta) (l : list string) :
  ef_labels (extraFields_of m) = Some l
  <-> l <> [] /\ l = finalLabels_of m.
Proof.
  cbn [ef_labels extraFields_of].
  destruct (finalLabels_of m) as [|a r]; split.
  - discriminate.
  - intros [N ->]. contradiction.
  - intros H. injection H as <-. split; [discriminate | reflexivity].
  - intros [_ ->]. reflexivity.
Qed.

Lemma extraFields_of_unset (m : meta) :
  or_empty (m_priority m) = EmptyString ->
  or_empty (m_assigneeId m) = EmptyString ->
  or_empty (m_dueDate m) = EmptyString ->
  or_nil (m_labels m) = [] ->
  (forall n, m_storyPoints m = Some n -> number_truthy n = false) ->
  extra_nonempty (extraFields_of m) = false.
Proof.
  intros Hp Ha Hd Hl Hs. unfold extra_nonempty.
  cbn [ef_priority ef_assignee ef_duedate ef_labels extraFields_of].
  rewrite finalLabels_of_meta, Hl.
  replace (or_null (m_priority m)) with (@None string)
    by (destruct (m_priority m) as [[|c r]|]; [reflexivity | discriminate Hp
                                               | reflexivity]).
  replace (or_null (m_assigneeId m)) with (@None string)
    by (destruct (m_assigneeId m) as [[|c r]|];
        [reflexivity | discriminate Ha | reflexivity]).
  replace (or_null (m_dueDate m)) with (@None string)
    by (destruct (m_dueDate m) as [[|c r]|];
        [reflexivity | discriminate Hd | reflexivity]).
  destruct (m_storyPoints m) as [[| |r]|]; try reflexivity.
  specialize (Hs _ eq_refl). discriminate Hs.
Qed.

(** [X8] What a field update carries, read off the metadata of the run.
    Every update names the configured priority, assignee and due date, each
    one exactly when it is not empty, and carries as labels the configured
    labels followed by [sp:<points>] for non-zero story points, when that
    list is not empty. A run for which none of them is configured sends no
    update at all. *)
Theorem onConfirm_updates_carry_the_configured_fields (w : tracker)
        (out : ai_output) (cfg : settings) (s : store) :
  validateSettings cfg = true ->
  let m := meta_of out in
  exists new,
    trace (snd (onConfirm w (Some out) cfg s)) = trace s ++ new
    /\ Forall
         (fun kx =>
            (forall p, ef_priority (snd kx) = Some p
                       <-> m_priority m = Some p /\ p <> EmptyString)
            /\ (forall a, ef_assignee (snd kx) = Some a
                          <-> m_assigneeId m = Some a /\ a <> EmptyString)
            /\ (forall d, ef_duedate (snd kx) = Some d
                          <-> m_dueDate m = Some d /\ d <> EmptyString)
            /\ (forall l,
                   ef_labels (snd kx) = Some l
                   <-> l <> []
                       /\ l = or_nil (m_labels m)
                              ++ match m_storyPoints m with
                                 | Some (Nonzero r) => [("sp:" ++ r)%string]
                                 | _ => []
                                 end))
         (updates new)
    /\ (or_empty (m_priority m) = EmptyString ->
        or_empty (m_assigneeId m) = EmptyString ->
        or_empty (m_dueDate m) = EmptyString ->
        or_nil (m_labels m) = [] ->
        (forall n, m_storyPoints m = Some n -> number_truthy n = false) ->
        Forall (fun e => is_update_call e = false) new).
Proof.
  intros Hcfg m.
  destruct (onConfirm_allowed w out cfg s Hcfg) as (new & Ht & Hall).
  fold m in Hall. exists new. split; [exact Ht|]. split.
  - clear Ht. induction Hall as [|e new He _ IH]; [constructor|].
    destruct e; cbn [updates]; try exact IH.
    constructor; [|exact IH]. cbn [snd]. destruct He as [-> _].
    split; [intros p; apply or_null_some|].
    split; [intros a; apply or_null_some|].
    split; [intros d; apply or_null_some|].
    intros l. rewrite <- finalLabels_of_meta. apply extraFields_of_labels.
  - intros Hp Ha Hd Hl Hs.
    pose proof (extraFields_of_unset m Hp Ha Hd Hl Hs) as Hnone.
    eapply Forall_impl; [exact Hall|].
    intros [] H; try reflexivity. cbn in H. destruct H as [-> H]. congruence.
Qed.

Lemma onConfirm_updates_witness :
  let new := trace (snd (onConfirm jira (Some accepted_output)
                                   sample_settings empty_store)) in
  length (updates new) = 2
  /\ Forall (fun kx =>
               ef_priority (snd kx) = Some "High"
               /\ ef_assignee (snd kx) = None
               /\ ef_duedate (snd kx) = Some "2026-12-01"
               /\ ef_labels (snd kx) = Some ["backend"; "sp:3"])
            (updates new).
Proof.
  cbv zeta.
  destruct (onConfirm_updates_carry_the_configured_fields jira
              accepted_output sample_settings empty_store eq_refl)
    as (new & Ht & Hall & _).
  cbn [trace empty_store app] in Ht. rewrite Ht.
  split; [rewrite <- Ht; vm_compute; reflexivity|].
  eapply Forall_impl; [exact Hall|].
  intros kx (Hp & Ha & Hd & Hl).
  split; [apply Hp; split; [reflexivity | discriminate]|].
  split.
  { destruct (ef_assignee (snd kx)) as [a|]; [|reflexivity].
    destruct (proj1 (Ha a) eq_refl) as [H _]. discriminate H. }
  split; [apply Hd; split; [reflexivity | discriminate]|].
  apply Hl. split; [discriminate | reflexivity].
Defined.

(** [X9] A run without a target status makes no transition call; a run
    without watchers makes no watcher call and no user search; and a run
    whose watchers are all given without [@] makes no user search. *)
Theorem onConfirm_skips_what_is_not_configured (w : tracker)
        (out : ai_output) (cfg : settings) (s : store) :
  validateSettings cfg = true ->
  let m := meta_of out in
  exists new,
    trace (snd (onConfirm w (Some out) cfg s)) = trace s ++ new
    /\ (or_empty (m_jiraStatus m) = EmptyString ->
        Forall (fun e => is_transition_call e = false) new)
    /\ (or_nil (m_watchers m) = [] ->
        Forall (fun e => is_watcher_call e = false) new)
    /\ ((forall q, In q (or_nil (m_watchers m)) ->
                   Str.includes "@" q = false) ->
        Forall (fun e => is_search_call e = false) new).
Proof.
  intros Hcfg m.
  destruct (onConfirm_allowed w out cfg s Hcfg) as (new & Ht & Hall).
  fold m in Hall. exists new. split; [exact Ht|]. split; [|split].
  - intros Hnone. eapply Forall_impl; [exact Hall|].
    intros [] H; try reflexivity; cbn in H; contradiction.
  - intros Hnone. eapply Forall_impl; [exact Hall|].
    intros [] H; try reflexivity; cbn in H.
    + destruct H as [H _]. rewrite Hnone in H. destruct H.
    + contradiction.
  - intros Hplain. eapply Forall_impl; [exact Hall|].
    intros [] H; try reflexivity. cbn in H. destruct H as [Hin Hat].
    apply Hplain in Hin. congruence.
Qed.

Lemma onConfirm_skips_witness :
  Forall (fun e => is_transition_call e = false
                   /\ is_watcher_call e = false)
         (trace (snd (onConfirm jira (Some plain_output) sample_settings
                                empty_store))).
Proof.
  destruct (onConfirm_skips_what_is_not_configured jira plain_output
              sample_settings empty_store eq_refl)
    as (new & Ht & Hstatus & Hwatch & _).
  cbn [trace empty_store app] in Ht. rewrite Ht.
  specialize (Hstatus eq_refl). specialize (Hwatch eq_refl).
  rewrite List.Forall_forall in *. intros e Hin. split; auto.
Defined.

(** [X10] A run of the create flow, whose metadata carry the mode, the
    project key, the issue type and the status only, starts with the
    creation of the parent and never sends a field update, a user search or
    a watcher call: the create form configures none of them. *)
Theorem onConfirm_create_flow_has_no_enrichment (w : tracker)
        (out : ai_output) (cfg : settings) (s : store)
        (project type status : string) :
  validateSettings cfg = true ->
  _meta out = Some (create_meta project type status) ->
  exists r rest,
    trace (snd (onConfirm w (Some out) cfg s))
    = trace s
      ++ CreateIssue (parent_fields out (create_meta project type status)) r
         :: rest
    /\ Forall (fun e => is_update_call e = false
                        /\ is_watcher_call e = false) rest.
Proof.
  intros Hcfg Hmeta.
  destruct (onConfirm_allowed w out cfg s Hcfg) as (new & Ht & Hall).
  destruct (onConfirm_shape w out cfg s Hcfg)
    as (evs & ks & r & s' & Hfin & Ht' & _ & Hbody).
  rewrite Hfin in Ht. cbn [snd] in Ht. rewrite Ht' in Ht.
  apply app_inv_head in Ht. subst evs.
  assert (Hm : meta_of out = create_meta project type status)
    by (unfold meta_of; now rewrite Hmeta).
  rewrite Hm in *.
  destruct (body_shape_parent_first _ _ _ _ _ Hbody) as [Hcreate _].
  destruct (Hcreate eq_refl) as (r0 & rest & -> & _).
  exists r0, rest. rewrite Hfin. cbn [snd]. split; [exact Ht'|].
  apply Forall_inv_tail in Hall.
  eapply Forall_impl; [exact Hall|].
  intros [] H; try (now split).
  - destruct H as [-> H]. discriminate H.
  - destruct H as [[] _].
Qed.

Lemma onConfirm_create_flow_witness :
  exists r rest,
    trace (snd (onConfirm jira (Some created_output) sample_settings
                          empty_store))
    = [] ++ CreateIssue
              (parent_fields created_output
                             (create_meta "KAN" "Story" "In Progress")) r
            :: rest
    /\ Forall (fun e => is_update_call e = false
                        /\ is_watcher_call e = false) rest.
Proof.
  apply (onConfirm_create_flow_has_no_enrichment jira created_output
           sample_settings empty_store "KAN" "Story" "In Progress");
    reflexivity.
Defined.

(** ** Generation results *)

Lemma slice0_length {A : Type} (l : list A) (n : Z) :
  (0 <= n)%Z -> (Z.of_nat (length (slice0 l n)) <= n)%Z.
Proof.
  intros Hn. unfold slice0.
  destruct (n <? 0)%Z eqn:E; [apply Z.ltb_lt in E; lia|].
  rewrite length_firstn. lia.
Qed.

Lemma slice0_negative {A : Type} (l : list A) (n : Z) :
  (n < 0)%Z -> slice0 l n = firstn (length l - Z.to_nat (- n)) l.
Proof.
  intros Hn. unfold slice0.
  destruct (n <? 0)%Z eqn:E; [|apply Z.ltb_ge in E; lia].
  f_equal. lia.
Qed.

(** [X11] Every value [groqGenerate] returns has a subtasks array, and for
    a requested count that is not negative the array has at most that many
    elements. *)
Theorem groqGenerate_returns_bounded_subtasks
        (JSON_parse : string -> option json) (resp : Groq.response)
        (numSubtasks : Z) (out : json) :
  Groq.groqGenerate JSON_parse resp numSubtasks = Ok out ->
  exists items,
    get_prop out "subtasks" = Ok (Some (JArr items))
    /\ ((0 <= numSubtasks)%Z ->
        (Z.of_nat (length items) <= numSubtasks)%Z).
Proof.
  unfold Groq.groqGenerate. destruct resp as [msg|content]; [discriminate|].
  destruct (JSON_parse _) as [parsed|]; [|discriminate].
  destruct (get_prop parsed "subtasks") as [e|[[| | | |items|]|]] eqn:G;
    try discriminate.
  destruct (Z.of_nat (length items) >? numSubtasks)%Z eqn:E.
  - destruct parsed as [| | | | |props]; try discriminate G.
    intros H. injection H as <-. eexists. split.
    + cbn [get_prop]. now rewrite assoc_set_same.
    + apply slice0_length.
  - intros H. injection H as <-. exists items. split; [exact G|].
    intros _. destruct (Z.gtb_spec (Z.of_nat (length items)) numSubtasks);
      [discriminate E | lia].
Qed.

Lemma groqGenerate_returns_bounded_witness :
  exists items,
    get_prop (JObj [("title", JStr "Add login");
                    ("subtasks", JArr (firstn 2 sample_items))]) "subtasks"
    = Ok (Some (JArr items))
    /\ ((0 <= 2)%Z -> (Z.of_nat (length items) <= 2)%Z).
Proof.
  apply (groqGenerate_returns_bounded_subtasks JsonText.parse
           (Groq.Completion (Some sample_body)) 2).
  vm_compute. reflexivity.
Defined.

(** [X12] A negative requested count does not fail and does not empty the
    list: [slice(0, n)] then counts from the end, so a count of [-k] drops
    the last [k] subtasks of the response. *)
Theorem groqGenerate_negative_count_drops_from_the_end
        (JSON_parse : string -> option json) (content : option string)
        (numSubtasks : Z) (parsed : json) (items : list json) :
  JSON_parse (Groq.strip (Groq.raw_content content)) = Some parsed ->
  get_prop parsed "subtasks" = Ok (Some (JArr items)) ->
  (numSubtasks < 0)%Z ->
  exists out,
    Groq.groqGenerate JSON_parse (Groq.Completion content) numSubtasks = Ok out
    /\ get_prop out "subtasks"
       = Ok (Some (JArr (firstn (length items - Z.to_nat (- numSubtasks))
                                items))).
Proof.
  intros Hparse Hsub Hn. unfold Groq.groqGenerate. rewrite Hparse, Hsub.
  destruct (Z.gtb_spec (Z.of_nat (length items)) numSubtasks); [|lia].
  destruct parsed as [| | | | |props]; try discriminate Hsub.
  eexists. split; [reflexivity|].
  cbn [get_prop]. now rewrite assoc_set_same, slice0_negative.
Qed.

Lemma groqGenerate_negative_count_witness :
  exists out,
    Groq.groqGenerate JsonText.parse (Groq.Completion (Some sample_body)) (-2)
    = Ok out
    /\ get_prop out "subtasks"
       = Ok (Some (JArr (firstn (length sample_items - Z.to_nat (- (-2)))
                                sample_items))).
Proof.
  apply (groqGenerate_negative_count_drops_from_the_end JsonText.parse
           (Some sample_body) (-2) sample_parsed sample_items).
  - vm_compute. reflexivity.
  - reflexivity.
  - lia.
Defined.

Lemma lower_char_backtick (c : ascii) :
  Ascii.eqb "`" (Str.lower_char c) = true -> Ascii.eqb "`" c = true.
Proof.
  destruct c as [[] [] [] [] [] [] [] []]; vm_compute; intros H;
    first [reflexivity | discriminate H].
Qed.

Lemma strip_open_no_fence (raw : string) :
  Str.startsWith Groq.fence raw = false -> Groq.strip_open raw = raw.
Proof.
  intros H. unfold Groq.strip_open.
  destruct (Str.startsWith "```json" _) eqn:E; [|reflexivity].
  exfalso.
  unfold Groq.fence in H.
  destruct raw as [|c1 [|c2 [|c3 raw]]];
    cbn [String.substring Str.toLowerCase Str.startsWith] in E, H;
    rewrite ?andb_false_r in E; try discriminate E.
  apply andb_prop in E as [E1 E]. apply andb_prop in E as [E2 E].
  apply andb_prop in E as [E3 _].
  apply lower_char_backtick in E1, E2, E3.
  rewrite E1, E2, E3 in H. discriminate H.
Qed.

Lemma includes_cons_false (needle : string) (c : ascii) (r : string) :
  Str.includes needle (String c r) = false ->
  Str.startsWith needle (String c r) = false
  /\ Str.includes needle r = false.
Proof. cbn [Str.includes]. intros H. now apply orb_false_elim in H. Qed.

Lemma strip_close_no_fence (s : string) :
  Str.includes Groq.fence s = false -> Groq.strip_close s = s.
Proof.
  induction s as [|c r IH]; intros H; [reflexivity|].
  apply includes_cons_false in H as [H1 H2].
  cbn [Groq.strip_close]. rewrite H1. cbn [andb]. now rewrite IH.
Qed.

(** [X13] A response body that contains no fence at all is only trimmed
    before it is parsed. *)
Theorem strip_trims_a_bare_body (raw : string) :
  Str.includes Groq.fence raw = false ->
  Groq.strip raw = Str.trim raw.
Proof.
  intros H. unfold Groq.strip.
  rewrite strip_open_no_fence.
  - now rewrite strip_close_no_fence.
  - destruct raw as [|c r]; [reflexivity|].
    now apply includes_cons_false in H.
Qed.

Lemma strip_trims_a_bare_body_witness :
  Groq.strip (nl ++ sample_body ++ " ") = sample_body.
Proof.
  rewrite (strip_trims_a_bare_body (nl ++ sample_body ++ " "));
    vm_compute; reflexivity.
Defined.

(** ** Documents, the issue reader and the HTTP layer *)

Lemma walk_buildAdf_any (description : string) (acs : list string) :
  Adf.walk (Adf.buildAdf description acs)
  = (if Str.truthy description then [description] else [])
    ++ match acs with
       | [] => []
       | _ :: _ => "Acceptance Criteria" :: acs
       end.
Proof.
  unfold Adf.buildAdf. rewrite walk_node.
  replace (Adf.walk (Adf.Node (Some "doc") (Some 1%Z) None None None))
    with (@nil string) by reflexivity.
  cbn [app]. rewrite flat_map_app. f_equal.
  - destruct (Str.truthy description); [|reflexivity].
    cbn [flat_map]. now rewrite walk_paragraph.
  - destruct acs as [|a r]; [reflexivity|].
    cbn [flat_map].
    now rewrite walk_heading, walk_bulletList, app_nil_r.
Qed.

Lemma extractAdfText_buildAdf_any (description : string) (acs : list string) :
  Adf.extractAdfText (Adf.buildAdf description acs)
  = Str.trim (Str.join " " (Adf.walk (Adf.buildAdf description acs))).
Proof. reflexivity. Qed.

(** [X14] The two documents [C8] leaves aside. A document built without
    acceptance criteria reads back as the trimmed description, the empty
    string for an empty description; a document built from criteria alone
    reads back as the heading text followed by the criteria. *)
Theorem extractAdfText_buildAdf_one_part (description : string) :
  Adf.extractAdfText (Adf.buildAdf description []) = Str.trim description
  /\ forall a r,
       Adf.extractAdfText (Adf.buildAdf EmptyString (a :: r))
       = Str.trim ("Acceptance Criteria " ++ Str.join " " (a :: r)).
Proof.
  split.
  - rewrite extractAdfText_buildAdf_any, walk_buildAdf_any.
    destruct description; reflexivity.
  - intros a r. rewrite extractAdfText_buildAdf_any, walk_buildAdf_any.
    reflexivity.
Qed.

(** [X15] [jiraGetIssue] keeps the key it was asked for and reads back the
    description of an issue the extension created without criteria, trimmed;
    an answer without fields gives empty strings and no failure. *)
Theorem jiraGetIssue_reads_back_a_created_issue
        (issueKey summary description pk : string) :
  jiraGetIssue issueKey
    (Ok {| i_fields :=
             Some {| if_summary := Some summary;
                     if_description := Some (Adf.buildAdf description []);
                     if_project := Some {| pr_key := Some pk |} |} |})
  = Ok {| story_key := issueKey;
          story_title := summary;
          story_description := Str.trim description;
          story_projectKey := pk |}
  /\ jiraGetIssue issueKey (Ok {| i_fields := None |})
     = Ok {| story_key := issueKey;
             story_title := EmptyString;
             story_description := EmptyString;
             story_projectKey := EmptyString |}.
Proof.
  split; [|reflexivity].
  unfold jiraGetIssue. cbn [i_fields if_summary if_description if_project].
  rewrite extractAdfText_buildAdf_any, walk_buildAdf_any.
  destruct description; reflexivity.
Qed.

Lemma collect_strings (l : list string) :
  collect element_text (map JStr l) = Ok l.
Proof.
  induction l as [|x l IH]; [reflexivity|].
  cbn [map collect element_text js_toString]. fold (@collect json string).
  now rewrite IH.
Qed.

Lemma js_join_strings (sep : string) (l : list string) :
  js_join sep (map JStr l) = Ok (Str.join sep l).
Proof. unfold js_join. now rewrite collect_strings. Qed.

(** Induction on a JSON value through the elements of its arrays. *)
Lemma json_array_ind (P : json -> Prop) :
  P JNull -> (forall b, P (JBool b)) -> (forall n, P (JNum n)) ->
  (forall s, P (JStr s)) ->
  (forall items, Forall P items -> P (JArr items)) ->
  (forall props, P (JObj props)) ->
  forall v, P v.
Proof.
  intros Hnull Hbool Hnum Hstr Harr Hobj. fix IH 1.
  intros [| b | n | x | items | props].
  - exact Hnull.
  - exact (Hbool b).
  - exact (Hnum n).
  - exact (Hstr x).
  - apply Harr. revert items. fix IHl 1. intros [|v items].
    + constructor.
    + constructor; [exact (IH v) | exact (IHl items)].
  - exact (Hobj props).
Qed.

Lemma collect_outcome (f : json -> result string) (items : list json) :
  Forall (fun v => (exists t, f v = Ok t)
                   \/ exists m, f v = Throw (TypeError m)) items ->
  (exists ts, collect f items = Ok ts)
  \/ exists m, collect f items = Throw (TypeError m).
Proof.
  induction 1 as [|v items Hv _ IH]; [left; now eexists|].
  cbn [collect]. fold (collect f).
  destruct Hv as [[t ->]|[m ->]]; [|right; now eexists].
  destruct IH as [[ts ->]|[m ->]]; [left | right]; now eexists.
Qed.

Lemma js_toString_array (items : list json) :
  js_toString (JArr items) = js_join "," items.
Proof. reflexivity. Qed.

Lemma js_toString_outcome (v : json) :
  (exists t, js_toString v = Ok t)
  \/ exists m, js_toString v = Throw (TypeError m).
Proof.
  induction v as [| b | n | x | items IH | props] using json_array_ind;
    try (left; now eexists).
  - rewrite js_toString_array. unfold js_join.
    destruct (collect_outcome element_text items) as [[ts ->]|[m ->]];
      [|left; now eexists|right; now eexists].
    eapply Forall_impl; [exact IH|].
    intros [] H; try exact H. left. now eexists.
  - cbn [js_toString]. destruct (assoc "toString" props).
    + right. now eexists.
    + left. now eexists.
Qed.

Lemma js_join_outcome (sep : string) (items : list json) :
  (exists t, js_join sep items = Ok t)
  \/ exists m, js_join sep items = Throw (TypeError m).
Proof.
  unfold js_join.
  destruct (collect_outcome element_text items) as [[ts ->]|[m ->]];
    [|left; now eexists|right; now eexists].
  apply Forall_forall. intros v _. unfold element_text.
  destruct v; try apply js_toString_outcome. left. now eexists.
Qed.

Lemma error_text_outcome (status : nat) (err : json) :
  (exists detail,
      error_text status err = Ok detail /\ detail <> EmptyString)
  \/ exists m, error_text status err = Throw (TypeError m).
Proof.
  pose proof (js_join_outcome ", ") as Hjoin.
  unfold error_text, joined_messages.
  destruct err as [| b | n | x | items | props]; cbn [get_prop].
  - right. now eexists.
  - destruct (Hjoin (values_or_none None)) as [[t ->]|[m ->]];
      [|right; now eexists].
    cbn [Str.truthy]. left. destruct t.
    + eexists. split; [reflexivity|]. rewrite append_cons. discriminate.
    + eexists. split; [reflexivity | discriminate].
  - left. eexists. split; [reflexivity|]. rewrite append_cons. discriminate.
  - left. eexists. split; [reflexivity|]. rewrite append_cons. discriminate.
  - left. eexists. split; [reflexivity|]. rewrite append_cons. discriminate.
  - assert (Hrest :
              (exists detail,
                  match js_join ", " (values_or_none (assoc "errors" props))
                  with
                  | Throw e => Throw e
                  | Ok fields =>
                      if Str.truthy fields then Ok fields
                      else Ok ("HTTP " ++ nat_toString status)%string
                  end = Ok detail /\ detail <> EmptyString)
              \/ exists m,
                   match js_join ", " (values_or_none (assoc "errors" props))
                   with
                   | Throw e => Throw e
                   | Ok fields =>
                       if Str.truthy fields then Ok fields
                       else Ok ("HTTP " ++ nat_toString status)%string
                   end = Throw (TypeError m)).
    { destruct (Hjoin (values_or_none (assoc "errors" props)))
        as [[t ->]|[m ->]]; [|right; now eexists].
      left. destruct t; cbn [Str.truthy].
      - eexists. split; [reflexivity|]. rewrite append_cons. discriminate.
      - eexists. split; [reflexivity | discriminate]. }
    destruct (assoc "errorMessages" props) as [[| b | n | x | items | ps]|];
      try (right; now eexists); try exact Hrest.
    destruct (Hjoin items) as [[t ->]|[m ->]]; [|right; now eexists].
    destruct t; cbn [Str.truthy]; [exact Hrest|].
    left. eexists. split; [reflexivity | discriminate].
Qed.

(** [X16] A refused request always makes [jiraRequest] throw. The failure
    is an [Error] whose message is the prefix and a reason that is never
    empty, or a [TypeError] raised while the reason is read; a body that is
    [null] gives the [TypeError]. For a body that is an object: error
    messages that are strings and give a text are the reason; without them,
    the values of [errors] that are strings and give a text are the reason;
    without any member, the reason is the status code. *)
Theorem jiraRequest_refusal_names_a_reason {A : Type} (empty : A)
        (resp : http_response A) :
  resp_ok resp = false ->
  ((exists detail,
       jiraRequest empty (Ok resp) = Throw (Error ("Jira error: " ++ detail))
       /\ detail <> EmptyString)
   \/ exists m, jiraRequest empty (Ok resp) = Throw (TypeError m))
  /\ (resp_error resp = JNull ->
      exists m, jiraRequest empty (Ok resp) = Throw (TypeError m))
  /\ (forall props l,
         resp_error resp = JObj props ->
         assoc "errorMessages" props = Some (JArr (map JStr l)) ->
         Str.join ", " l <> EmptyString ->
         jiraRequest empty (Ok resp)
         = Throw (Error ("Jira error: " ++ Str.join ", " l)))
  /\ (forall props fields,
         resp_error resp = JObj props ->
         assoc "errorMessages" props = None
         \/ assoc "errorMessages" props = Some (JArr []) ->
         assoc "errors" props
         = Some (JObj (map (fun kv => (fst kv, JStr (snd kv))) fields)) ->
         Str.join ", " (map snd fields) <> EmptyString ->
         jiraRequest empty (Ok resp)
         = Throw (Error ("Jira error: " ++ Str.join ", " (map snd fields))))
  /\ (resp_error resp = JObj [] ->
      jiraRequest empty (Ok resp)
      = Throw (Error ("Jira error: HTTP " ++ nat_toString (resp_status resp)))).
Proof.
  intros Hok. unfold jiraRequest. rewrite Hok. cbn [negb].
  split; [|split; [|split; [|split]]].
  - destruct (error_text_outcome (resp_status resp) (resp_error resp))
      as [(detail & -> & N)|(m & ->)].
    + left. now exists detail.
    + right. now exists m.
  - intros ->. now eexists.
  - intros props l -> Hm N. unfold error_text, joined_messages.
    cbn [get_prop]. rewrite Hm, js_join_strings.
    destruct (Str.join ", " l); [contradiction | reflexivity].
  - intros props fields -> Hm He N. unfold error_text, joined_messages.
    cbn [get_prop]. rewrite He.
    replace (values_or_none
               (Some (JObj (map (fun kv => (fst kv, JStr (snd kv))) fields))))
      with (map JStr (map snd fields)).
    2:{ cbn [values_or_none json_truthy]. rewrite !map_map. reflexivity. }
    rewrite js_join_strings.
    destruct Hm as [-> | ->]; cbn [js_join collect Str.join Str.truthy];
      (destruct (Str.join ", " (map snd fields));
       [contradiction | reflexivity]).
  - intros ->. reflexivity.
Qed.

Lemma jiraRequest_refusal_witness :
  jiraRequest tt
    (Ok {| resp_ok := false; resp_status := 400;
           resp_error :=
             JObj [("errorMessages", JArr []);
                   ("errors",
                    JObj [("summary", JStr "You must specify a summary");
                          ("duedate", JStr "Field cannot be set")])];
           resp_json := Ok tt |})
  = Throw (Error ("Jira error: "
                    ++ "You must specify a summary, Field cannot be set")).
Proof.
  destruct (jiraRequest_refusal_names_a_reason tt
              {| resp_ok := false; resp_status := 400;
                 resp_error :=
                   JObj [("errorMessages", JArr []);
                         ("errors",
                          JObj [("summary",
                                 JStr "You must specify a summary");
                                ("duedate", JStr "Field cannot be set")])];
                 resp_json := Ok tt |} eq_refl)
    as (_ & _ & _ & Hfields & _).
  apply (Hfields _ [("summary", "You must specify a summary");
                    ("duedate", "Field cannot be set")] eq_refl).
  - right. reflexivity.
  - reflexivity.
  - discriminate.
Defined.

(** [X17] [jiraRequest] returns a value only for an accepted answer: the
    empty object for status 204, whatever the body, and the parsed body
    otherwise. The body of a refused answer is never returned. *)
Theorem jiraRequest_returns_only_accepted_answers {A : Type} (empty : A)
        (fetched : result (http_response A)) (a : A) :
  jiraRequest empty fetched = Ok a ->
  exists resp,
    fetched = Ok resp /\ resp_ok resp = true
    /\ ((resp_status resp = 204 /\ a = empty)
        \/ (resp_status resp <> 204 /\ resp_json resp = Ok a)).
Proof.
  unfold jiraRequest. destruct fetched as [e|resp]; [discriminate|].
  destruct (resp_ok resp) eqn:Hok; cbn [negb].
  2:{ destruct (error_text _ _); discriminate. }
  intros H. exists resp. split; [reflexivity|]. split; [exact Hok|].
  destruct (Nat.eqb_spec (resp_status resp) 204) as [E|E].
  - left. split; [exact E|]. now injection H.
  - right. now split.
Qed.

Lemma jiraRequest_returns_witness :
  exists resp,
    Ok {| resp_ok := true; resp_status := 204; resp_error := JObj [];
          resp_json := Throw (Error "Unexpected end of JSON input") |}
    = Ok resp
    /\ resp_ok resp = true
    /\ ((resp_status resp = 204 /\ {| key := EmptyString |}
                                   = {| key := EmptyString |})
        \/ (resp_status resp <> 204
            /\ resp_json resp = Ok {| key := EmptyString |})).
Proof.
  apply (jiraRequest_returns_only_accepted_answers {| key := EmptyString |}).
  reflexivity.
Defined.

(** ** Status catalogue, without repeated names *)

Lemma assoc_set_fresh {V : Type} (k : string) (v : V)
      (m : list (string * V)) :
  ~ In k (map fst m) -> assoc_set k v m = m ++ [(k, v)].
Proof.
  induction m as [|[k' v'] m IH]; intros H; [reflexivity|].
  cbn [assoc_set]. destruct (String.eqb k k') eqn:E.
  - apply String.eqb_eq in E. subst. exfalso. apply H. now left.
  - cbn [app]. f_equal. apply IH. intros N. apply H. now right.
Qed.

Lemma fill_distinct (l : list status) :
  List.NoDup (map st_name l) -> map snd (fill l) = l.
Proof.
  induction l as [|s l IH] using rev_ind; intros ND; [reflexivity|].
  rewrite map_app in ND. cbn [map] in ND.
  apply List.NoDup_remove in ND as [ND Hs]. rewrite app_nil_r in ND, Hs.
  rewrite fill_snoc, assoc_set_fresh.
  - rewrite map_app, IH by exact ND. reflexivity.
  - now rewrite fill_keys, first_occurrences_In.
Qed.

(** [X18] When no two statuses of the project share a name, the statuses
    operation returns the tracker's lists unchanged, flattened in their
    order. *)
Theorem fetchProjectStatuses_distinct_names
        (data : list issuetype_statuses) :
  List.NoDup (map st_name (all_statuses data)) ->
  fetchProjectStatuses (Ok data) = Ok (all_statuses data).
Proof.
  intros ND. unfold fetchProjectStatuses.
  now rewrite collect_statuses_fill, fill_distinct.
Qed.

Lemma fetchProjectStatuses_distinct_names_witness :
  fetchProjectStatuses
    (Ok [ {| its_name := "Story";
             its_statuses := [ {| st_name := "To Do"; st_id := "1" |};
                               {| st_name := "Done"; st_id := "3" |} ] |};
          {| its_name := "Bug";
             its_statuses := [ {| st_name := "Triage"; st_id := "7" |} ] |} ])
  = Ok [ {| st_name := "To Do"; st_id := "1" |};
         {| st_name := "Done"; st_id := "3" |};
         {| st_name := "Triage"; st_id := "7" |} ].
Proof.
  apply (fetchProjectStatuses_distinct_names
           [ {| its_name := "Story";
                its_statuses := [ {| st_name := "To Do"; st_id := "1" |};
                                  {| st_name := "Done"; st_id := "3" |} ] |};
             {| its_name := "Bug";
                its_statuses :=
                  [ {| st_name := "Triage"; st_id := "7" |} ] |} ]).
  cbn [all_statuses map its_statuses concat app st_name].
  repeat constructor; cbn [In]; intros H;
    repeat (destruct H as [H|H]; [discriminate H|]); exact H.
Defined.

(** ** Escaping *)

Lemma has_char_app (c : ascii) (a b : string) :
  has_char c (a ++ b) = has_char c a || has_char c b.
Proof.
  induction a as [|x a IH]; [reflexivity|].
  rewrite append_cons. cbn [has_char]. now rewrite IH, orb_assoc.
Qed.

Lemma replace_char_removes (c : ascii) (rep s : string) :
  has_char c rep = false -> has_char c (replace_char c rep s) = false.
Proof.
  intros Hrep. induction s as [|x s IH]; [reflexivity|].
  cbn [replace_char]. destruct (Ascii.eqb x c) eqn:E.
  - now rewrite has_char_app, Hrep, IH.
  - cbn [has_char]. now rewrite E, IH.
Qed.

Lemma replace_char_keeps_out (c d : ascii) (rep s : string) :
  has_char c rep = false -> has_char c s = false ->
  has_char c (replace_char d rep s) = false.
Proof.
  intros Hrep. induction s as [|x s IH]; intros Hs; [reflexivity|].
  cbn [has_char] in Hs. apply orb_false_elim in Hs as [Hx Hs].
  cbn [replace_char]. destruct (Ascii.eqb x d).
  - now rewrite has_char_app, Hrep, IH.
  - cbn [has_char]. now rewrite Hx, IH.
Qed.

Lemma replace_char_absent (c : ascii) (rep s : string) :
  has_char c s = false -> replace_char c rep s = s.
Proof.
  induction s as [|x s IH]; intros Hs; [reflexivity|].
  cbn [has_char] in Hs. apply orb_false_elim in Hs as [Hx Hs].
  cbn [replace_char]. now rewrite Hx, IH.
Qed.

(** [X19] The escaped text holds no angle bracket and no double quote,
    whatever the input. *)
Theorem escHtml_leaves_no_markup (str : string) :
  has_char "<" (escHtml str) = false
  /\ has_char ">" (escHtml str) = false
  /\ has_char double_quote (escHtml str) = false.
Proof.
  unfold escHtml. repeat split.
  - apply replace_char_keeps_out; [reflexivity|].
    apply replace_char_keeps_out; [reflexivity|].
    now apply replace_char_removes.
  - apply replace_char_keeps_out; [reflexivity|].
    now apply replace_char_removes.
  - now apply replace_char_removes.
Qed.

(** [X20] A text without ampersand, angle bracket and double quote is
    escaped to itself. *)
Theorem escHtml_keeps_plain_text (str : string) :
  has_char "&" str = false -> has_char "<" str = false ->
  has_char ">" str = false -> has_char double_quote str = false ->
  escHtml str = str.
Proof.
  intros Ha Hl Hg Hq. unfold escHtml.
  now rewrite (replace_char_absent "&"), (replace_char_absent "<"),
    (replace_char_absent ">"), (replace_char_absent double_quote).
Qed.

Lemma escHtml_keeps_plain_text_witness :
  escHtml "KAN-2: Add login" = "KAN-2: Add login".
Proof.
  apply (escHtml_keeps_plain_text "KAN-2: Add login"); reflexivity.
Defined.

(** ** The content script *)

Lemma span_spec (p : ascii -> bool) (s run rest : string) :
  span p s = (run, rest) ->
  s = (run ++ rest)%string /\ all_chars p run = true.
Proof.
  revert run rest. induction s as [|c s IH]; intros run rest H.
  - injection H as <- <-. now split.
  - cbn [span] in H. destruct (p c) eqn:E.
    + destruct (span p s) as [run' rest'] eqn:S.
      injection H as <- <-. destruct (IH _ _ eq_refl) as [-> Hall].
      split; [reflexivity|]. cbn [all_chars]. now rewrite E.
    + injection H as <- <-. now split.
Qed.

Lemma startsWith_drop (p s : string) :
  Str.startsWith p s = true ->
  s = (p ++ Str.drop (String.length p) s)%string.
Proof.
  revert s. induction p as [|a p IH]; intros s H; [reflexivity|].
  destruct s as [|b s]; [discriminate H|].
  cbn [Str.startsWith] in H. apply andb_prop in H as [Hab H].
  apply Ascii.eqb_eq in Hab. subst b.
  cbn [String.length Str.drop]. rewrite append_cons. f_equal. now apply IH.
Qed.

Lemma capture_after_spec (prefix : string)
      (at_start : string -> option string) (url k : string) :
  capture_after prefix at_start url = Some k ->
  exists pre rest,
    url = (pre ++ prefix ++ rest)%string /\ at_start rest = Some k.
Proof.
  induction url as [|c url IH]; intros H; cbn [capture_after] in H.
  - destruct (Str.startsWith prefix EmptyString) eqn:S.
    + destruct (at_start _) eqn:F; [|discriminate H]. injection H as ->.
      exists EmptyString, (Str.drop (String.length prefix) EmptyString).
      split; [now apply startsWith_drop | exact F].
    + discriminate H.
  - destruct (if Str.startsWith prefix (String c url) then _ else None)
      as [k'|] eqn:F.
    + injection H as ->.
      destruct (Str.startsWith prefix (String c url)) eqn:S;
        [|discriminate F].
      exists EmptyString, (Str.drop (String.length prefix) (String c url)).
      split; [now apply startsWith_drop | exact F].
    + destruct (IH H) as (pre & rest & -> & Hk).
      exists (String c pre), rest. now split.
Qed.

Lemma capture_after_none (prefix : string)
      (at_start : string -> option string) (url : string) :
  Str.includes prefix url = false ->
  capture_after prefix at_start url = None.
Proof.
  induction url as [|c url IH]; intros H.
  - cbn [Str.includes] in H. apply orb_false_elim in H as [H _].
    cbn [capture_after]. now rewrite H.
  - apply includes_cons_false in H as [S H].
    cbn [capture_after]. rewrite S. now apply IH.
Qed.

Lemma upper_or_digit_no_dash (s : string) :
  all_chars is_upper_or_digit s = true -> has_char "-" s = false.
Proof.
  induction s as [|c s IH]; intros H; [reflexivity|].
  cbn [all_chars] in H. apply andb_prop in H as [Hc H].
  cbn [has_char]. rewrite IH by exact H.
  destruct (Ascii.eqb_spec c "-") as [->|]; [discriminate Hc | reflexivity].
Qed.

Lemma before_dash_app (a b : string) :
  has_char "-" a = false -> before_dash (a ++ "-" ++ b) = a.
Proof.
  induction a as [|c a IH]; intros H; [reflexivity|].
  cbn [has_char] in H. apply orb_false_elim in H as [Hc H].
  rewrite append_cons. cbn [before_dash]. now rewrite Hc, IH.
Qed.

Lemma issue_key_at_spec (s k : string) :
  issue_key_at s = Some k ->
  exists c letters digits rest,
    k = (String c letters ++ "-" ++ digits)%string
    /\ is_upper c = true
    /\ letters <> EmptyString
    /\ all_chars is_upper_or_digit letters = true
    /\ digits <> EmptyString
    /\ all_chars is_digit digits = true
    /\ s = (k ++ rest)%string.
Proof.
  unfold issue_key_at. destruct s as [|c r]; [discriminate|].
  destruct (is_upper c) eqn:Hc; [|discriminate].
  destruct (span is_upper_or_digit r) as [[|a run] [|d rest]] eqn:S1;
    try discriminate.
  destruct (Ascii.eqb_spec d "-") as [->|]; [|discriminate].
  destruct (span is_digit rest) as [[|n ds] rest'] eqn:S2; [discriminate|].
  intros H. injection H as <-.
  apply span_spec in S1 as [-> H1]. apply span_spec in S2 as [-> H2].
  exists c, (String a run), (String n ds), rest'.
  repeat split; try assumption; try discriminate.
  rewrite !append_cons, !string_app_assoc, !append_cons, append_nil_l.
  reflexivity.
Qed.

(** [X21] When the content script reports an issue page, the issue key is
    the project key, a dash and a run of digits; the project key is an
    upper-case letter followed by upper-case letters or digits, at least one;
    and the address holds the key right after [/browse/]. *)
Theorem getJiraContext_issue_key_shape (url : string) :
  isJiraIssue (getJiraContext url) = true ->
  exists c letters digits,
    projectKey (getJiraContext url) = String c letters
    /\ issueKey (getJiraContext url)
       = (String c letters ++ "-" ++ digits)%string
    /\ is_upper c = true
    /\ letters <> EmptyString
    /\ all_chars is_upper_or_digit letters = true
    /\ digits <> EmptyString
    /\ all_chars is_digit digits = true
    /\ Str.includes ("/browse/" ++ issueKey (getJiraContext url)) url = true.
Proof.
  unfold getJiraContext.
  destruct (capture_after "/browse/" issue_key_at url) as [k|] eqn:C.
  - intros _. cbn [projectKey issueKey].
    apply capture_after_spec in C as (pre & rest & -> & Hk).
    apply issue_key_at_spec in Hk
      as (c & letters & digits & rest' & -> & Hc & Hl & Hls & Hd & Hds & ->).
    exists c, letters, digits.
    split.
    { apply before_dash_app. cbn [has_char].
      rewrite (upper_or_digit_no_dash letters Hls).
      destruct (Ascii.eqb_spec c "-") as [->|]; [discriminate Hc|reflexivity]. }
    repeat split; try assumption.
    rewrite <- (string_app_assoc "/browse/"
                  (String c letters ++ "-" ++ digits) rest').
    apply includes_occurs.
  - destruct (capture_after _ project_key_at url); discriminate.
Qed.

Lemma getJiraContext_issue_key_witness :
  exists c letters digits,
    projectKey (getJiraContext "https://acme.atlassian.net/browse/KAN-2?x=1")
    = String c letters
    /\ issueKey (getJiraContext "https://acme.atlassian.net/browse/KAN-2?x=1")
       = (String c letters ++ "-" ++ digits)%string
    /\ String c letters = "KAN" /\ digits = "2".
Proof.
  destruct (getJiraContext_issue_key_shape
              "https://acme.atlassian.net/browse/KAN-2?x=1" eq_refl)
    as (c & letters & digits & Hp & Hi & _).
  exists c, letters, digits. split; [exact Hp|]. split; [exact Hi|].
  rewrite <- Hp. split; [reflexivity|].
  rewrite <- Hp in Hi. vm_compute in Hi. now injection Hi.
Defined.

(** [X22] An address that holds neither [/browse/] nor
    [/jira/software/projects/] gives the empty context. *)
Theorem getJiraContext_elsewhere (url : string) :
  Str.includes "/browse/" url = false ->
  Str.includes "/jira/software/projects/" url = false ->
  getJiraContext url
  = {| issueKey := EmptyString; projectKey := EmptyString;
       isJiraIssue := false |}.
Proof.
  intros Hb Hp. unfold getJiraContext.
  now rewrite (capture_after_none _ _ _ Hb), (capture_after_none _ _ _ Hp).
Qed.

Lemma getJiraContext_elsewhere_witness :
  getJiraContext "https://acme.atlassian.net/jira/your-work"
  = {| issueKey := EmptyString; projectKey := EmptyString;
       isJiraIssue := false |}.
Proof.
  apply (getJiraContext_elsewhere
           "https://acme.atlassian.net/jira/your-work"); reflexivity.
Defined.

(** ** The form values and the options page *)

Lemma trimEnd_keeps_text (s : string) :
  Str.all_space s = false -> Str.all_space (Str.trimEnd s) = false.
Proof.
  induction s as [|c s IH]; intros H; [discriminate H|].
  cbn [Str.trimEnd]. rewrite H. cbn [Str.all_space] in H |- *.
  destruct (Str.is_space c); [cbn [andb] in H |- *; now apply IH|reflexivity].
Qed.

Lemma trimEnd_idempotent (s : string) :
  Str.trimEnd (Str.trimEnd s) = Str.trimEnd s.
Proof.
  induction s as [|c s IH]; [reflexivity|].
  cbn [Str.trimEnd]. destruct (Str.all_space (String c s)) eqn:E;
    [reflexivity|].
  cbn [Str.trimEnd]. rewrite IH.
  replace (Str.all_space (String c (Str.trimEnd s))) with false;
    [reflexivity|].
  symmetry. cbn [Str.all_space] in E |- *.
  destruct (Str.is_space c); [cbn [andb] in E |- *|reflexivity].
  now apply trimEnd_keeps_text.
Qed.

Lemma trimStart_trim (s : string) :
  Str.trimStart (Str.trim s) = Str.trim s.
Proof.
  unfold Str.trim. induction s as [|c s IH]; [reflexivity|].
  cbn [Str.trimStart]. destruct (Str.is_space c) eqn:E; [exact IH|].
  cbn [Str.trimEnd Str.all_space]. rewrite E. cbn [andb Str.trimStart].
  now rewrite E.
Qed.

Lemma trim_idempotent (s : string) : Str.trim (Str.trim s) = Str.trim s.
Proof.
  unfold Str.trim at 1. rewrite trimStart_trim.
  unfold Str.trim. apply trimEnd_idempotent.
Qed.

Lemma has_char_trimStart (c : ascii) (s : string) :
  has_char c s = false -> has_char c (Str.trimStart s) = false.
Proof.
  induction s as [|x s IH]; intros H; [reflexivity|].
  cbn [Str.trimStart]. destruct (Str.is_space x); [|exact H].
  cbn [has_char] in H. apply orb_false_elim in H as [_ H]. now apply IH.
Qed.

Lemma has_char_trimEnd (c : ascii) (s : string) :
  has_char c s = false -> has_char c (Str.trimEnd s) = false.
Proof.
  induction s as [|x s IH]; intros H; [reflexivity|].
  cbn [Str.trimEnd]. destruct (Str.all_space (String x s)); [reflexivity|].
  cbn [has_char] in H |- *. apply orb_false_elim in H as [Hx H].
  now rewrite Hx, IH.
Qed.

Lemma split_on_pieces (c : ascii) (s p : string) :
  In p (split_on c s) -> has_char c p = false.
Proof.
  revert p. induction s as [|x s IH]; intros p H.
  - destruct H as [<-|[]]. reflexivity.
  - cbn [split_on] in H. destruct (Ascii.eqb x c) eqn:E.
    + destruct H as [<-|H]; [reflexivity | now apply IH].
    + destruct (split_on c s) as [|h t].
      * destruct H as [<-|[]]. cbn [has_char]. now rewrite E.
      * destruct H as [<-|H].
        -- cbn [has_char]. rewrite E. apply IH. now left.
        -- apply IH. now right.
Qed.

(** [X23] Every entry of a comma-separated field, as the generate handlers
    read it, is non-empty, trimmed and free of commas. *)
Theorem comma_list_entries (raw l : string) :
  In l (comma_list raw) ->
  l <> EmptyString /\ Str.trim l = l /\ has_char "," l = false.
Proof.
  unfold comma_list. destruct (Str.truthy raw); [|intros []].
  intros H. apply List.filter_In in H as [H Ht].
  apply in_map_iff in H as (p & <- & Hp).
  split; [intros E; rewrite E in Ht; discriminate Ht|].
  split; [apply trim_idempotent|].
  unfold Str.trim. apply has_char_trimEnd, has_char_trimStart.
  now apply split_on_pieces with (s := raw).
Qed.

Lemma comma_list_entries_witness :
  In "c d" (comma_list " a , ,b,,  c d ,")
  /\ "c d" <> EmptyString /\ Str.trim "c d" = "c d"
  /\ has_char "," "c d" = false.
Proof.
  assert (H : In "c d" (comma_list " a , ,b,,  c d ,")).
  { vm_compute. right. right. now left. }
  split; [exact H|].
  exact (comma_list_entries " a , ,b,,  c d ," "c d" H).
Defined.

Lemma all_chars_app (p : ascii -> bool) (a b : string) :
  all_chars p (a ++ b) = all_chars p a && all_chars p b.
Proof.
  induction a as [|c a IH]; [reflexivity|].
  rewrite append_cons. cbn [all_chars]. now rewrite IH, andb_assoc.
Qed.

Lemma dash_spaces_no_space (in_run : bool) (s : string) :
  all_chars (fun c => negb (Str.is_space c)) (dash_spaces in_run s) = true.
Proof.
  revert in_run. induction s as [|c s IH]; intros in_run; [reflexivity|].
  cbn [dash_spaces]. destruct (Str.is_space c) eqn:E.
  - destruct in_run; [apply IH|]. cbn [all_chars]. now rewrite IH.
  - cbn [all_chars]. now rewrite E, IH.
Qed.

(** [X24] A team name always adds one label, after the labels typed in: it
    starts with [team-] and holds no white space, whatever the name. *)
Theorem breakdown_labels_team_label (labelsRaw team : string) :
  team <> EmptyString ->
  exists l,
    breakdown_labels labelsRaw team = comma_list labelsRaw ++ [l]
    /\ Str.startsWith "team-" l = true
    /\ all_chars (fun c => negb (Str.is_space c)) l = true.
Proof.
  intros Ht. exists (team_label team). split.
  - unfold breakdown_labels. destruct team; [contradiction | reflexivity].
  - unfold team_label. split; [apply startsWith_app|].
    now rewrite all_chars_app, dash_spaces_no_space.
Qed.

Lemma breakdown_labels_team_label_witness :
  exists l,
    breakdown_labels "ui, login" "Core  Team A" = ["ui"; "login"] ++ [l]
    /\ Str.startsWith "team-" l = true
    /\ all_chars (fun c => negb (Str.is_space c)) l = true.
Proof.
  apply (breakdown_labels_team_label "ui, login" "Core  Team A").
  discriminate.
Defined.

(** [X25] Whatever the options page stores passes the popup's
    [validateSettings], so a confirmation with stored settings and a
    generated result never returns at its guards; and the stored address
    starts with [https://]. *)
Theorem saveSettings_stores_valid_settings
        (groq url email token : string) (cfg : settings) :
  saveSettings groq url email token = Saved cfg ->
  validateSettings cfg = true
  /\ Str.startsWith "https://" (jira_url cfg) = true
  /\ forall w out s, fst (onConfirm w (Some out) cfg s) <> NotStarted.
Proof.
  unfold saveSettings.
  destruct (Str.truthy (Str.trim groq)) eqn:E1; [|discriminate].
  destruct (Str.truthy (strip_trailing_slash (Str.trim url))) eqn:E2;
    [|discriminate].
  destruct (Str.truthy (Str.trim email)) eqn:E3; [|discriminate].
  destruct (Str.truthy (Str.trim token)) eqn:E4; [|discriminate].
  cbn [negb orb].
  destruct (Str.startsWith "https://" _) eqn:E5; [|discriminate].
  cbn [negb]. intros H. injection H as <-.
  assert (V : validateSettings
                {| groq_key := Str.trim groq;
                   jira_url := strip_trailing_slash (Str.trim url);
                   jira_email := Str.trim email;
                   jira_token := Str.trim token |} = true).
  { unfold validateSettings.
    cbn [groq_key jira_url jira_email jira_token].
    now rewrite E1, E2, E3, E4. }
  split; [exact V|]. split; [exact E5|].
  intros w out s. unfold onConfirm. rewrite V. cbn [negb].
  destruct (bind reset_keys _ s) as [[e|k] s']; discriminate.
Qed.

Lemma saveSettings_stores_valid_settings_witness :
  validateSettings
    {| groq_key := "gsk_1"; jira_url := "https://acme.atlassian.net";
       jira_email := "dev@acme.io"; jira_token := "t0" |} = true
  /\ Str.startsWith "https://" "https://acme.atlassian.net" = true
  /\ forall w out s,
       fst (onConfirm w (Some out)
              {| groq_key := "gsk_1"; jira_url := "https://acme.atlassian.net";
                 jira_email := "dev@acme.io"; jira_token := "t0" |} s)
       <> NotStarted.
Proof.
  apply (saveSettings_stores_valid_settings
           " gsk_1" "https://acme.atlassian.net/ " "dev@acme.io" "t0 ").
  vm_compute. reflexivity.
Defined.
